(** * Istanbul BFT consensus core and the EVM context

    A shallow embedding of [consensus/istanbul/core] (the methods of [core]
    in core.go and the components its tests exercise), of [core/evm.go]
    (the context of the EVM, its two caching closures, transfers) and of
    the minimum client version check, together with the properties the
    specification states about the consensus core and further properties
    read off the code.

    Layout: integers and outcomes, the data model (views, messages,
    certificates, validator sets, message sets, round state), the
    round-change set, the [core] value with its methods and handlers, a
    concrete validator set and backend for the scenarios, the EVM context,
    the version check, the vocabulary of the properties; then the
    properties of the specification, each applied to a scenario, the tests
    of the package replayed, and the further properties of core.go, of
    evm.go and of the version check with their scenarios. *)

From Stdlib Require Import ZArith List Lia Bool Strings.String Strings.Byte.
From stdpp Require Import base option list sorting gmap.

Import ListNotations.
Local Open Scope Z_scope.

(** ** Integers as Go has them *)

Module BigInt.
(** [big.Int.Uint64]: the low 64 bits of the magnitude. *)
Definition Uint64 (x : Z) : Z := Z.abs x mod 2 ^ 64.

(** Two's complement reading of a 64-bit pattern, the result of every
    [int64] operation. *)
Definition wrap_int64 (z : Z) : Z := (z + 2 ^ 63) mod 2 ^ 64 - 2 ^ 63.

(** [big.Int.Int64]: [int64(low64(abs))], negated when [x] is negative. *)
Definition Int64 (x : Z) : Z :=
  let v := wrap_int64 (Z.abs x mod 2 ^ 64) in
  if x <? 0 then wrap_int64 (- v) else v.

(** [a.Cmp(b)] as -1, 0 or 1. *)
Definition Cmp (a b : Z) : Z :=
  match a ?= b with Lt => -1 | Eq => 0 | Gt => 1 end.
End BigInt.

(** ** Outcomes

    A method either returns or the goroutine panics (an explicit [panic(..)]
    or a nil dereference). *)

Inductive outcome (A : Type) : Type :=
| Returned (a : A)
| Panicked (why : string).
Arguments Returned {A} a.
Arguments Panicked {A} why.

Definition obind {A B} (m : outcome A) (k : A -> outcome B) : outcome B :=
  match m with
  | Returned a => k a
  | Panicked w => Panicked w
  end.

Declare Scope outcome_scope.
Delimit Scope outcome_scope with outcome.
Notation "'let!' x ':=' m 'in' k" := (obind m (fun x => k))
  (at level 10, x pattern, m at level 100, k at level 200) : outcome_scope.
Local Open Scope outcome_scope.

(** Dereferencing a pointer that may be nil. *)
Definition deref {A} (p : option A) : outcome A :=
  match p with
  | Some a => Returned a
  | None => Panicked "invalid memory address or nil pointer dereference"
  end.

(** ** Data model *)

(** Account identifiers and hashes, as the integers their bytes encode. *)
Abbreviation Address := N (only parsing).
Abbreviation Hash := N (only parsing).

(** The stable error values of the package (errors.go and the backend). *)
Inductive Err : Type :=
| errInconsistentSubject
| errOldMessage
| errFutureMessage
| errInvalidMessage
| errUnauthorizedAddress
| errFailedDecodePrepare
| errInvalidPreparedCertificateNumMsgs
| errInvalidPreparedCertificateMsgCode
| errInvalidPreparedCertificateMsgView
| errInvalidPreparedCertificateDigestMismatch
| errInvalidPreparedCertificateDuplicate
| errFailedCreateRoundChangeCertificate
| errBackend (code : N).

#[global] Instance Err_eq_dec : EqDecision Err.
Proof. solve_decision. Defined.

(** The states of [core], in the order of their [iota] declaration. *)
Inductive State : Type :=
| StateAcceptRequest
| StatePreprepared
| StatePrepared
| StateCommitted
| StateWaitingForNewRound.

#[global] Instance State_eq_dec : EqDecision State.
Proof. solve_decision. Defined.

Definition State_rank (s : State) : Z :=
  match s with
  | StateAcceptRequest => 0
  | StatePreprepared => 1
  | StatePrepared => 2
  | StateCommitted => 3
  | StateWaitingForNewRound => 4
  end.

(** [s.Cmp(y)]. *)
Definition State_Cmp (s y : State) : Z := BigInt.Cmp (State_rank s) (State_rank y).

Inductive MsgCode : Type := MsgPreprepare | MsgPrepare | MsgCommit | MsgRoundChange.

#[global] Instance MsgCode_eq_dec : EqDecision MsgCode.
Proof. solve_decision. Defined.

Record View : Type := mkView { Sequence : Z; Round : Z }.

#[global] Instance View_eq_dec : EqDecision View.
Proof. solve_decision. Defined.

(** [v.Cmp(y)]: sequence first, then round. *)
Definition View_Cmp (v y : View) : Z :=
  if decide (BigInt.Cmp (Sequence v) (Sequence y) ≠ 0)
  then BigInt.Cmp (Sequence v) (Sequence y)
  else BigInt.Cmp (Round v) (Round y).

Record Subject : Type := mkSubject { SubjectView : View; Digest : Hash }.

#[global] Instance Subject_eq_dec : EqDecision Subject.
Proof. solve_decision. Defined.

(** A proposal is an opaque block of which the core reads the number and
    the hash. *)
Record Proposal : Type := mkProposal { Number : Z; ProposalHash : Hash }.

#[global] Instance Proposal_eq_dec : EqDecision Proposal.
Proof. solve_decision. Defined.

(** [istanbul.Request]: its proposal is an interface value, nil in
    [&istanbul.Request{}]. *)
Record Request : Type := mkRequest { RequestProposal : option Proposal }.

(** A message envelope.  The payload [Msg] is a byte string on the wire;
    it is represented here by the body it decodes to, so that
    [message.Decode(&x)] succeeds exactly when the payload holds a body of
    the type of [x]. *)
Inductive Message : Type :=
| mkMessage (Code : MsgCode) (Msg : Payload) (MsgAddress : Address)
    (Signature : list byte) (CommittedSeal : list byte)
with Payload : Type :=
| EncSubject (s : Subject)
| EncRoundChange (v : View) (certProposal : Proposal) (certMessages : list Message)
| EncPreprepare (v : View) (p : Proposal) (roundChangeMessages : list Message)
| EncUndecodable.

Definition Code (m : Message) : MsgCode := let (c, _, _, _, _) := m in c.
Definition Msg (m : Message) : Payload := let (_, p, _, _, _) := m in p.
Definition MsgAddress (m : Message) : Address := let (_, _, a, _, _) := m in a.
Definition Signature (m : Message) : list byte := let (_, _, _, s, _) := m in s.
Definition CommittedSeal (m : Message) : list byte := let (_, _, _, _, s) := m in s.

Record PreparedCertificate : Type := mkPreparedCertificate {
  CertProposal : Proposal;
  PrepareOrCommitMessages : list Message
}.

Record RoundChange : Type := mkRoundChange {
  RoundChangeView : View;
  RoundChangePreparedCertificate : PreparedCertificate
}.

Record RoundChangeCertificate : Type := mkRoundChangeCertificate {
  RoundChangeMessages : list Message
}.

(** [message.Decode(&subject)] and [message.Decode(&roundChange)]. *)
Definition DecodeSubject (m : Message) : option Subject :=
  match Msg m with EncSubject s => Some s | _ => None end.

Definition DecodeRoundChange (m : Message) : option RoundChange :=
  match Msg m with
  | EncRoundChange v p ms => Some (mkRoundChange v (mkPreparedCertificate p ms))
  | _ => None
  end.

(** Modelled from the spec: istanbul/types.go is not among the embedded
    files.  "Empty certificate is a distinguished value": the certificate
    without messages, around the block of the zero header. *)
Definition emptyProposal : Proposal := mkProposal 0 0.
Definition EmptyPreparedCertificate : PreparedCertificate :=
  mkPreparedCertificate emptyProposal [].

Definition IsEmpty (pc : PreparedCertificate) : bool :=
  match PrepareOrCommitMessages pc with [] => true | _ => false end.

(** Modelled from the spec: [PreparedCertificate.View], the view its
    messages share, read off the first of them; nil for the empty
    certificate and when that message does not decode. *)
Definition PreparedCertificate_View (pc : PreparedCertificate) : option View :=
  match PrepareOrCommitMessages pc with
  | [] => None
  | m :: _ => SubjectView <$> DecodeSubject m
  end.

Definition HasPreparedCertificate (rc : RoundChange) : bool :=
  negb (IsEmpty (RoundChangePreparedCertificate rc)).

(** ** Validator sets and the backend

    [istanbul.ValidatorSet] and [istanbul.Backend] are Go interfaces whose
    implementations (round-robin and sticky proposer selection, the chain
    backend) live in other packages: the core is written against the
    interface, and so is this development. *)

Record Validator : Type := mkValidator {
  ValAddress : Address;
  BLSPublicKey : list byte
}.

#[global] Instance byte_eq_decision : EqDecision byte := Byte.byte_eq_dec.

#[global] Instance Validator_eq_dec : EqDecision Validator.
Proof. solve_decision. Defined.

Class ValidatorSet (VS : Type) : Type := {
  (** [Size()] and [MinQuorumSize()], Go [int]s. *)
  Size : VS -> Z;
  MinQuorumSize : VS -> Z;
  (** [GetByAddress(addr)]: the index and the validator, or [(-1, nil)]. *)
  GetByAddress : VS -> Address -> Z * option Validator;
  GetProposer : VS -> option Validator;
  IsProposer : VS -> Address -> bool;
  (** [CalcProposer(lastProposer, round)] updates the set's proposer in
      place; here it returns the updated set. *)
  CalcProposer : VS -> Address -> Z -> VS
}.

Inductive LogLevel : Type := LvlTrace | LvlDebug | LvlWarn | LvlError.

(** Events of the driver's loop that the core itself posts. *)
Inductive LoopEvent : Type :=
| timeoutEvent (view : View)
| otherEvent.

(** A [time.Timer] armed by [time.AfterFunc]: when [timerDuration]
    (nanoseconds, an [int64]) has elapsed it posts [timerPosts] with
    [c.sendEvent], unless it was stopped before. *)
Record Timer : Type := mkTimer {
  timerDuration : Z;
  timerPosts : LoopEvent;
  timerStopped : bool
}.

Definition Timer_Stop (t : Timer) : Timer :=
  mkTimer (timerDuration t) (timerPosts t) true.

(** What the core asks of its collaborators, in the order it asks.  The
    methods of [core] defined in other files of the package (request and
    backlog processing, the senders of PRE-PREPARE and ROUND-CHANGE, the
    message journal) appear as the calls made to them. *)
Inductive Call : Type :=
| CallLog (lvl : LogLevel) (text : string)
| CallProcessPendingRequests
| CallProcessBacklog
| CallDeleteMessageFromDisk (round sequence : Z)
| CallSendPreprepare (request : Request) (cert : RoundChangeCertificate)
| CallSendRoundChange (round : Z)
| CallSendNextRoundChange
| CallSequenceMeterMark (n : Z)
| CallConsensusTimerUpdateSince (since : Z)
| CallBackendCommit (proposal : Proposal) (bitmap : Z) (aggregate : list byte)
| CallBackendBroadcast (payload : Message).

Record Config : Type := mkConfig {
  RequestTimeout : Z;   (* uint64, milliseconds *)
  BlockPeriod : Z       (* uint64, seconds *)
}.

(** The answers of the backend during one step of the loop. *)
Record Backend (VS : Type) : Type := mkBackend {
  BackendAddress : Address;
  LastProposal : Proposal * Address;
  Validators : Proposal -> VS;
  Commit : Proposal -> Z -> list byte -> option Err;
  Sign : Message -> Err + list byte;
  Broadcast : Message -> option Err
}.
Arguments BackendAddress {VS} _.
Arguments LastProposal {VS} _.
Arguments Validators {VS} _ _.
Arguments Commit {VS} _ _ _ _.
Arguments Sign {VS} _ _.
Arguments Broadcast {VS} _ _.

(** ** Message sets

    Modelled from the spec: message_set.go is not among the embedded files.
    "Keyed by sender address; insertion idempotent per sender per round;
    size() exact; exposes values(), getAddressIndex(addr),
    getAddressPublicKey(addr)."  A set shares the validator-set object of
    the core that created it, so the two lookups are made in the core's
    [valSet]. *)

Abbreviation messageSet := (gmap N Message) (only parsing).

Definition messageSet_Add (msg : Message) (ms : messageSet) : messageSet :=
  <[MsgAddress msg := msg]> ms.

Definition messageSet_Remove (a : Address) (ms : messageSet) : messageSet :=
  delete a ms.

Definition messageSet_Size (ms : messageSet) : Z := Z.of_nat (size ms).

(** [Values()]: Go ranges over the map in no specified order; the order of
    [map_to_list] stands for it. *)
Definition messageSet_Values (ms : messageSet) : list Message :=
  (map_to_list ms).*2.

Definition GetAddressIndex `{ValidatorSet VS} (vs : VS) (a : Address) : Err + Z :=
  let '(i, _) := GetByAddress vs a in
  if decide (i = -1) then inl errUnauthorizedAddress else inr i.

Definition GetAddressPublicKey `{ValidatorSet VS} (vs : VS) (a : Address)
  : Err + list byte :=
  match GetByAddress vs a with
  | (_, Some v) => inr (BLSPublicKey v)
  | (_, None) => inl errUnauthorizedAddress
  end.

(** ** Round state

    Modelled from the spec: roundstate.go is not among the embedded files.
    "Round State (per (sequence,round), mutable): view, desiredRound (>=
    round), preprepare, proposal, Prepares, Commits, preparedCertificate,
    pendingRequest."  A fresh round state desires its own round. *)

Record Preprepare : Type := mkPreprepare {
  PreprepareView : View;
  PreprepareProposal : Proposal;
  PreprepareRoundChangeCertificate : RoundChangeCertificate
}.

Record roundState : Type := mkRoundState {
  round : Z;
  desiredRound : Z;
  sequence : Z;
  rsPreprepare : option Preprepare;
  Prepares : gmap N Message;
  Commits : gmap N Message;
  pendingRequest : option Request;
  preparedCertificate : PreparedCertificate
}.

Definition newRoundState (view : View) (preprepare : option Preprepare)
    (pending : option Request) (cert : PreparedCertificate) : roundState :=
  {| round := Round view;
     desiredRound := Round view;
     sequence := Sequence view;
     rsPreprepare := preprepare;
     Prepares := ∅;
     Commits := ∅;
     pendingRequest := pending;
     preparedCertificate := cert |}.

Definition roundState_Proposal (s : roundState) : option Proposal :=
  PreprepareProposal <$> rsPreprepare s.

Definition roundState_View (s : roundState) : View :=
  mkView (sequence s) (round s).

(** [Subject()]: nil until a PRE-PREPARE has been accepted. *)
Definition roundState_Subject (s : roundState) : option Subject :=
  (fun p => mkSubject (roundState_View s) (ProposalHash (PreprepareProposal p)))
    <$> rsPreprepare s.

Definition SetDesiredRound (r : Z) (s : roundState) : roundState :=
  {| round := round s;
     desiredRound := r;
     sequence := sequence s;
     rsPreprepare := rsPreprepare s;
     Prepares := Prepares s;
     Commits := Commits s;
     pendingRequest := pendingRequest s;
     preparedCertificate := preparedCertificate s |}.

(** ** The round-change set

    Modelled from the spec: roundchange.go is not among the embedded files
    (its test is).  "Insert into roundChangeSet.msgsForRound[msg.Round].
    For each sender, keep only the message at the highest round;
    latestRoundForVal[addr] = max."  Rounds are keyed by their [uint64]
    value, as the test reads them ([rc.msgsForRound[view.Round.Uint64()]]). *)

Record roundChangeSet : Type := mkRoundChangeSet {
  msgsForRound : gmap Z (gmap N Message);
  latestRoundForVal : gmap N Z
}.

Definition newRoundChangeSet : roundChangeSet := mkRoundChangeSet ∅ ∅.

(** The messages held for one round (none when the round has no entry). *)
Definition msgsAt (rcs : roundChangeSet) (r : Z) : gmap N Message :=
  default ∅ (msgsForRound rcs !! r).

(** Drop what [a] sent for round [prev]. *)
Definition rcs_forget (prev : Z) (a : Address) (rcs : roundChangeSet)
  : roundChangeSet :=
  match msgsForRound rcs !! prev with
  | Some ms =>
      mkRoundChangeSet (<[prev := messageSet_Remove a ms]> (msgsForRound rcs))
                       (latestRoundForVal rcs)
  | None => rcs
  end.

(** Record [msg] for round [r] as the latest of [a]. *)
Definition rcs_store (r : Z) (msg : Message) (a : Address) (rcs : roundChangeSet)
  : roundChangeSet :=
  mkRoundChangeSet (<[r := messageSet_Add msg (msgsAt rcs r)]> (msgsForRound rcs))
                   (<[a := r]> (latestRoundForVal rcs)).

(** [rcs.Add(r, msg, src)]: the set afterwards and the error returned. *)
Definition rcs_Add (r : Z) (msg : Message) (src : Validator) (rcs : roundChangeSet)
  : roundChangeSet * option Err :=
  let round := BigInt.Uint64 r in
  let a := ValAddress src in
  match latestRoundForVal rcs !! a with
  | Some prev =>
      if decide (round < prev) then (rcs, Some errOldMessage)
      else if decide (prev < round)
           then (rcs_store round msg a (rcs_forget prev a rcs), None)
           else (rcs_store round msg a rcs, None)
  | None => (rcs_store round msg a rcs, None)
  end.

(** The latest round of every sender seen, one entry per sender. *)
Definition latestRounds (rcs : roundChangeSet) : list Z :=
  (map_to_list (latestRoundForVal rcs)).*2.

(** How many distinct senders have their latest round at [R] or above. *)
Definition sendersAtOrAbove (rcs : roundChangeSet) (R : Z) : Z :=
  Z.of_nat (length (filter (fun r => R <= r) (latestRounds rcs))).

Definition max_round (l : list Z) : option Z :=
  foldr (fun r acc => Some (match acc with Some m => Z.max r m | None => r end)) None l.

(** [rcs.MaxRound(num)]: "the largest round R such that >= num distinct
    senders have latestRoundForVal >= R", nil when there is none. *)
Definition MaxRound (num : Z) (rcs : roundChangeSet) : option Z :=
  max_round (filter (fun R => num <= sendersAtOrAbove rcs R) (latestRounds rcs)).

(** [rcs.getCertificate(r, quorumSize)]: "set of ROUND-CHANGE messages, one
    per distinct sender, each with Round >= the target round; size >=
    minQuorumSize", taken from the highest rounds down. *)
Definition round_ge (a b : Z) : Prop := b <= a.

#[global] Instance round_ge_dec a b : Decision (round_ge a b).
Proof. unfold round_ge. apply _. Defined.

Definition roundsFrom (r : Z) (rcs : roundChangeSet) : list Z :=
  merge_sort round_ge
    (filter (fun k => r <= k) (map_to_list (msgsForRound rcs)).*1).

Definition getCertificate (r : Z) (quorumSize : Z) (rcs : roundChangeSet)
  : Err + RoundChangeCertificate :=
  let msgs := concat (map (fun k => messageSet_Values (msgsAt rcs k))
                          (roundsFrom (BigInt.Uint64 r) rcs)) in
  if decide (quorumSize <= Z.of_nat (length msgs))
  then inr (mkRoundChangeCertificate (take (Z.to_nat quorumSize) msgs))
  else inl errFailedCreateRoundChangeCertificate.

(** ** The core (core.go) *)

(** [time.Duration] arithmetic: [int64] nanoseconds, wrapping. *)
Definition Millisecond : Z := 1000000.
Definition Second : Z := 1000000000.
Definition Duration_of_uint64 (u : Z) : Z := BigInt.wrap_int64 u.
Definition Duration_mul (a b : Z) : Z := BigInt.wrap_int64 (a * b).
Definition Duration_add (a b : Z) : Z := BigInt.wrap_int64 (a + b).

(** [math.Pow(2, math.Min(float64(round), 5.))] for a [uint64] round that is
    not zero.  Every step is exact in [float64]: [float64(round)] is [round]
    itself up to 2^53 and at least 2^53 beyond, so the minimum is the
    integer [min(round, 5)], one of 1..5, and its power of two is one of
    2, 4, 8, 16, 32; the conversion to [time.Duration] truncates nothing. *)
Definition backoffFactor (round : Z) : Z := 2 ^ Z.min round 5.

Section Core.
Context {VS : Type} `{ValidatorSet VS}.

(** [blscrypto.AggregateSignatures] and [types.IstanbulExtraCommittedSeal],
    from the BLS binding and the block types. *)
Variable AggregateSignatures : list (list byte) -> Err + list byte.
Variable IstanbulExtraCommittedSeal : nat.

(** The fields of [core] the embedded methods read or write, and the
    calls made so far (oldest first).  [valSet], [current] and the two
    timers may be nil. *)
Record core : Type := mkCore {
  config : Config;
  address : Address;
  state : State;
  backend : Backend VS;
  futurePreprepareTimer : option Timer;
  valSet : option VS;
  current : option roundState;
  coreRoundChangeSet : option roundChangeSet;
  roundChangeTimer : option Timer;
  consensusTimestamp : option Z;
  calls : list Call
}.

Definition set_state (st : State) (c : core) : core :=
  mkCore (config c) (address c) st (backend c) (futurePreprepareTimer c)
    (valSet c) (current c) (coreRoundChangeSet c) (roundChangeTimer c)
    (consensusTimestamp c) (calls c).

Definition set_futurePreprepareTimer (t : option Timer) (c : core) : core :=
  mkCore (config c) (address c) (state c) (backend c) t
    (valSet c) (current c) (coreRoundChangeSet c) (roundChangeTimer c)
    (consensusTimestamp c) (calls c).

Definition set_valSet (v : option VS) (c : core) : core :=
  mkCore (config c) (address c) (state c) (backend c) (futurePreprepareTimer c)
    v (current c) (coreRoundChangeSet c) (roundChangeTimer c)
    (consensusTimestamp c) (calls c).

Definition set_current (s : option roundState) (c : core) : core :=
  mkCore (config c) (address c) (state c) (backend c) (futurePreprepareTimer c)
    (valSet c) s (coreRoundChangeSet c) (roundChangeTimer c)
    (consensusTimestamp c) (calls c).

Definition set_roundChangeSet (s : option roundChangeSet) (c : core) : core :=
  mkCore (config c) (address c) (state c) (backend c) (futurePreprepareTimer c)
    (valSet c) (current c) s (roundChangeTimer c)
    (consensusTimestamp c) (calls c).

Definition set_roundChangeTimer (t : option Timer) (c : core) : core :=
  mkCore (config c) (address c) (state c) (backend c) (futurePreprepareTimer c)
    (valSet c) (current c) (coreRoundChangeSet c) t
    (consensusTimestamp c) (calls c).

Definition set_consensusTimestamp (t : option Z) (c : core) : core :=
  mkCore (config c) (address c) (state c) (backend c) (futurePreprepareTimer c)
    (valSet c) (current c) (coreRoundChangeSet c) (roundChangeTimer c)
    t (calls c).

(** One more call to a collaborator. *)
Definition emit (e : Call) (c : core) : core :=
  mkCore (config c) (address c) (state c) (backend c) (futurePreprepareTimer c)
    (valSet c) (current c) (coreRoundChangeSet c) (roundChangeTimer c)
    (consensusTimestamp c) (calls c ++ [e]).

Definition logf (lvl : LogLevel) (text : string) (c : core) : core :=
  emit (CallLog lvl text) c.

(** [msg.PayloadNoSig()]: the envelope with an empty signature. *)
Definition PayloadNoSig (m : Message) : Message :=
  mkMessage (Code m) (Msg m) (MsgAddress m) [] (CommittedSeal m).

Definition finalizeMessage (msg : Message) (c : core) : Err + Message :=
  let msg := mkMessage (Code msg) (Msg msg) (address c) (Signature msg)
                       (CommittedSeal msg) in
  match Sign (backend c) (PayloadNoSig msg) with
  | inl e => inl e
  | inr sig =>
      inr (mkMessage (Code msg) (Msg msg) (MsgAddress msg) sig (CommittedSeal msg))
  end.

Definition broadcast (msg : Message) (c : core) : outcome core :=
  let! _ := deref (current c) in
  match finalizeMessage msg c with
  | inl _ => Returned (logf LvlError "Failed to finalize message" c)
  | inr payload =>
      let c := emit (CallBackendBroadcast payload) c in
      match Broadcast (backend c) payload with
      | Some _ => Returned (logf LvlError "Failed to broadcast message" c)
      | None => Returned c
      end
  end.

Definition currentView (c : core) : outcome View :=
  let! cur := deref (current c) in
  Returned (mkView (sequence cur) (round cur)).

Definition isProposer (c : core) : bool :=
  match valSet c with
  | None => false
  | Some v => IsProposer v (BackendAddress (backend c))
  end.

Definition setState (st : State) (c : core) : core :=
  let c := if decide (state c ≠ st) then set_state st c else c in
  let c := if decide (st = StateAcceptRequest)
           then emit CallProcessPendingRequests c else c in
  emit CallProcessBacklog c.

(** [copy(make([]byte, n), seal)]. *)
Definition sealBuffer (seal : list byte) : list byte :=
  take IstanbulExtraCommittedSeal (seal ++ replicate IstanbulExtraCommittedSeal x00).

(** The loop of [commit] over [c.current.Commits.Values()]: the seals,
    the bitmap and the public keys gathered so far. *)
Fixpoint commitLoop (vs : option VS) (values : list Message)
    (acc : list (list byte) * Z * list (list byte))
  : outcome (list (list byte) * Z * list (list byte)) :=
  match values with
  | [] => Returned acc
  | v :: rest =>
      let '(committedSeals, bitmap, publicKeys) := acc in
      let committedSeals := committedSeals ++ [sealBuffer (CommittedSeal v)] in
      let! set := deref vs in
      match GetAddressIndex set (MsgAddress v) with
      | inl _ => Panicked "commit: couldn't get address index for address"
      | inr j =>
          match GetAddressPublicKey set (MsgAddress v) with
          | inl _ => Panicked "commit: couldn't get public key for address"
          | inr publicKey =>
              commitLoop vs rest
                (committedSeals, Z.setbit bitmap j, publicKeys ++ [publicKey])
          end
      end
  end.

Definition commit (c : core) : outcome core :=
  let c := setState StateCommitted c in
  let! cur := deref (current c) in
  match roundState_Proposal cur with
  | None => Returned c
  | Some proposal =>
      let! (committedSeals, bitmap, _) :=
        commitLoop (valSet c) (messageSet_Values (Commits cur)) ([], 0, []) in
      match AggregateSignatures committedSeals with
      | inl _ =>
          Panicked "commit: couldn't aggregate signatures which have been verified in the commit phase"
      | inr asig =>
          let c := emit (CallBackendCommit proposal bitmap asig) c in
          match Commit (backend c) proposal bitmap asig with
          | Some _ => Returned (emit CallSendNextRoundChange c)
          | None => Returned c
          end
      end
  end.

(** One turn of the search loop of [getPreprepareWithRoundChangeCertificate]:
    [maxRound] and [request] before and after [message]. *)
Definition pickRequest (acc : Z * option Request) (message : Message)
  : Z * option Request :=
  let '(maxRound, _) := acc in
  match DecodeRoundChange message with
  | None => acc
  | Some roundChangeMsg =>
      let cert := RoundChangePreparedCertificate roundChangeMsg in
      let preparedCertificateView := PreparedCertificate_View cert in
      if HasPreparedCertificate roundChangeMsg then
        match preparedCertificateView with
        | Some view =>
            if bool_decide (0 < BigInt.Cmp (Round view) maxRound)
            then (Round view, Some (mkRequest (Some (CertProposal cert))))
            else acc
        | None => acc
        end
      else acc
  end.

Definition getPreprepareWithRoundChangeCertificate (round : Z) (c : core)
  : outcome (option Request * RoundChangeCertificate * option Err) :=
  let! vs := deref (valSet c) in
  let! rcs := deref (coreRoundChangeSet c) in
  match getCertificate round (MinQuorumSize vs) rcs with
  | inl err =>
      Returned (Some (mkRequest None), mkRoundChangeCertificate [], Some err)
  | inr roundChangeCertificate =>
      let! cur := deref (current c) in
      let request := pendingRequest cur in
      let '(_, request) :=
        fold_left pickRequest (RoundChangeMessages roundChangeCertificate)
                  (-1, request) in
      Returned (request, roundChangeCertificate, None)
  end.

Definition updateRoundState (view : View) (roundChange : bool) (c : core) : core :=
  match current c with
  | Some cur =>
      if roundChange
      then set_current
             (Some (newRoundState view None (pendingRequest cur)
                                  (preparedCertificate cur))) c
      else set_current
             (Some (newRoundState view None None EmptyPreparedCertificate)) c
  | None =>
      set_current (Some (newRoundState view None None EmptyPreparedCertificate)) c
  end.

Definition stopFuturePreprepareTimer (c : core) : core :=
  set_futurePreprepareTimer (Timer_Stop <$> futurePreprepareTimer c) c.

Definition stopTimer (c : core) : core :=
  let c := stopFuturePreprepareTimer c in
  set_roundChangeTimer (Timer_Stop <$> roundChangeTimer c) c.

(** The duration [newRoundChangeTimerForView] computes. *)
Definition roundChangeTimeout (cfg : Config) (view : View) : Z :=
  let timeout := Duration_mul (Duration_of_uint64 (RequestTimeout cfg)) Millisecond in
  let round := BigInt.Uint64 (Round view) in
  if decide (round = 0)
  then Duration_add timeout
         (Duration_mul (Duration_of_uint64 (BlockPeriod cfg)) Second)
  else Duration_add timeout (Duration_mul (backoffFactor round) Second).

Definition newRoundChangeTimerForView (view : View) (c : core) : core :=
  let c := stopTimer c in
  set_roundChangeTimer
    (Some (mkTimer (roundChangeTimeout (config c) view) (timeoutEvent view) false)) c.

Definition newRoundChangeTimer (c : core) : outcome core :=
  let! view := currentView c in
  Returned (newRoundChangeTimerForView view c).

(** The second half of [startNewRound], entered once the new view, the
    request and the certificate are known: fresh round-change set and
    round state, proposer, state, PRE-PREPARE and timer. *)
Definition enterRound (roundChange : bool) (newView : View)
    (request : option Request) (roundChangeCertificate : RoundChangeCertificate)
    (lastProposer : Address) (c : core) : outcome core :=
  let! vs := deref (valSet c) in
  let c := set_roundChangeSet (Some newRoundChangeSet) c in
  let c := updateRoundState newView roundChange c in
  let c := set_valSet
             (Some (CalcProposer vs lastProposer (BigInt.Uint64 (Round newView)))) c in
  let c := setState StateAcceptRequest c in
  let c := match request with
           | Some req =>
               if roundChange && isProposer c && bool_decide (is_Some (current c))
               then emit (CallSendPreprepare req roundChangeCertificate) c
               else c
           | None => c
           end in
  let! c := newRoundChangeTimer c in
  Returned (logf LvlDebug "New round" c).

(** [startNewRound(round)]; the argument is called [r] here, [round]
    being the field of the round state. *)
Definition startNewRound (r : Z) (c : core) : outcome core :=
  let '(lastProposal, lastProposer) := LastProposal (backend c) in
  match current c with
  | None =>
      let c := logf LvlTrace "Start the initial round" c in
      let newView := mkView (Number lastProposal + 1) 0 in
      let c := set_valSet (Some (Validators (backend c) lastProposal)) c in
      enterRound false newView None (mkRoundChangeCertificate []) lastProposer c
  | Some cur =>
      if decide (0 <= BigInt.Cmp (Number lastProposal) (sequence cur)) then
        let diff := Number lastProposal - sequence cur in
        let c := emit (CallSequenceMeterMark (BigInt.Int64 (diff + 1))) c in
        let c := match consensusTimestamp c with
                 | Some t =>
                     set_consensusTimestamp None
                       (emit (CallConsensusTimerUpdateSince t) c)
                 | None => c
                 end in
        let c := logf LvlTrace "Catch up to the latest proposal." c in
        let request := pendingRequest cur in
        let c := emit (CallDeleteMessageFromDisk (round cur) (sequence cur)) c in
        let newView := mkView (Number lastProposal + 1) 0 in
        let c := set_valSet (Some (Validators (backend c) lastProposal)) c in
        enterRound false newView request (mkRoundChangeCertificate []) lastProposer c
      else if decide (BigInt.Cmp (Number lastProposal)
                        (BigInt.wrap_int64 (BigInt.Int64 (sequence cur) - 1)) = 0) then
        if decide (BigInt.Cmp r (round cur) = 0) then
          Returned (logf LvlTrace "Already in the desired round." c)
        else if decide (BigInt.Cmp r (round cur) < 0) then
          Returned (logf LvlWarn "New round should not be smaller than current round" c)
        else
          let newView := mkView (sequence cur) r in
          let! (request, roundChangeCertificate, err) :=
            getPreprepareWithRoundChangeCertificate r c in
          match err with
          | Some _ =>
              Returned (logf LvlError "Unable to produce round change certificate" c)
          | None =>
              enterRound true newView request roundChangeCertificate lastProposer c
          end
      else
        Returned (logf LvlWarn "New sequence should be larger than current sequence" c)
  end.

Definition waitForDesiredRound (r : Z) (c : core) : outcome core :=
  let! cur := deref (current c) in
  if decide (0 <= BigInt.Cmp (desiredRound cur) r) then
    Returned (logf LvlDebug "New desired round not greater than current desired round" c)
  else
    let c := logf LvlDebug "Waiting for desired round" c in
    let desiredView := mkView (sequence cur) r in
    let c := setState StateWaitingForNewRound c in
    let! cur := deref (current c) in
    let c := set_current (Some (SetDesiredRound r cur)) c in
    let '(_, lastProposer) := LastProposal (backend c) in
    let! vs := deref (valSet c) in
    let c := set_valSet
               (Some (CalcProposer vs lastProposer
                        (BigInt.Uint64 (Round desiredView)))) c in
    let c := newRoundChangeTimerForView desiredView c in
    Returned (emit (CallSendRoundChange (Round desiredView)) c).

(** *** Handlers and certificate validation

    prepare.go and the certificate checks are not among the embedded
    files; their tests are (TestVerifyPreparedCertificate,
    TestHandlePrepare, TestVerifyPrepare). *)

(** [istanbul.CheckValidatorSignature], the signer of [data] when it is a
    validator of the set, and the BLS signature of a committed seal. *)
Variable CheckValidatorSignature : VS -> Message -> list byte -> Err + Address.
Variable SignCommittedSeal : list byte -> list byte.

Definition checkValidatorSignature (data : Message) (sig : list byte) (c : core)
  : outcome (Err + Address) :=
  let! vs := deref (valSet c) in
  Returned (CheckValidatorSignature vs data sig).

(** [hash.Bytes()]: the 32 bytes of a hash, most significant first. *)
Definition byte_of_N (n : N) : byte := default x00 (Byte.of_N (n mod 256)%N).

Fixpoint bytes_of_N (len : nat) (n : N) : list byte :=
  match len with
  | O => []
  | S k => bytes_of_N k (n / 256)%N ++ [byte_of_N n]
  end.

Definition Hash_Bytes (h : Hash) : list byte := bytes_of_N 32 h.

(** [PrepareCommittedSeal(hash)]: the hash followed by the COMMIT tag. *)
Definition PrepareCommittedSeal (hash : Hash) : list byte :=
  Hash_Bytes hash ++ [x02].

(** Modelled from the spec: verifyPreparedCertificate.  "A
    PreparedCertificate is valid iff: it contains exactly minQuorumSize
    messages; all messages share the same (Sequence, Round, Digest);
    Sequence <= current.Sequence (no future sequences); each message's
    code is PREPARE or COMMIT; signatures verify; no duplicate senders;
    and the Digest equals hash(certificate.Proposal)."  The size is
    checked first; then every message in turn, the conditions on one
    message in the order signature, sender, code, view, digest (the order
    TestVerifyPreparedCertificate needs: a certificate whose second
    message repeats the first and whose proposal has another hash is
    refused for its digest).

    The signature check is [c.validateFn], which [New] sets to
    [checkValidatorSignature].

    The first condition [message] violates, [seen] being the senders
    before it and [view] the view of the certificate. *)
Definition certificateMessageError (vs : VS) (currentSequence : Z)
    (proposal : Proposal) (view : option View) (seen : list Address)
    (message : Message) : option Err :=
  match CheckValidatorSignature vs (PayloadNoSig message) (Signature message) with
  | inl e => Some e
  | inr signer =>
      if decide (signer ≠ MsgAddress message) then Some errInvalidMessage
      else if decide (signer ∈ seen) then
        Some errInvalidPreparedCertificateDuplicate
      else if decide (Code message ≠ MsgPrepare ∧ Code message ≠ MsgCommit) then
        Some errInvalidPreparedCertificateMsgCode
      else
        match DecodeSubject message with
        | None => Some errFailedDecodePrepare
        | Some subject =>
            if decide (currentSequence < Sequence (SubjectView subject)) then
              Some errInvalidPreparedCertificateMsgView
            else if decide (view ≠ Some (SubjectView subject)) then
              Some errInvalidPreparedCertificateMsgView
            else if decide (Digest subject ≠ ProposalHash proposal) then
              Some errInvalidPreparedCertificateDigestMismatch
            else None
        end
  end.

Fixpoint certificateMessagesError (vs : VS) (currentSequence : Z)
    (proposal : Proposal) (view : option View) (seen : list Address)
    (messages : list Message) : option Err :=
  match messages with
  | [] => None
  | message :: rest =>
      match certificateMessageError vs currentSequence proposal view seen message with
      | Some e => Some e
      | None =>
          certificateMessagesError vs currentSequence proposal view
            (MsgAddress message :: seen) rest
      end
  end.

Definition verifyPreparedCertificate (cert : PreparedCertificate) (c : core)
  : outcome (option Err) :=
  let! cur := deref (current c) in
  let! vs := deref (valSet c) in
  if decide (Z.of_nat (length (PrepareOrCommitMessages cert)) ≠ MinQuorumSize vs)
  then Returned (Some errInvalidPreparedCertificateNumMsgs)
  else Returned (certificateMessagesError vs (sequence cur) (CertProposal cert)
                   (PreparedCertificate_View cert) []
                   (PrepareOrCommitMessages cert)).

(** A [*istanbul.Subject] as a caller may build it in memory: the view
    pointer and the two [*big.Int] of a view may each be nil (the wire
    decoder never leaves one nil). *)
Record ViewPtr : Type := mkViewPtr { RoundPtr : option Z; SequencePtr : option Z }.
Record SubjectPtr : Type := mkSubjectPtr { ViewOfPtr : option ViewPtr; DigestOfPtr : Hash }.

#[global] Instance ViewPtr_eq_dec : EqDecision ViewPtr.
Proof. solve_decision. Defined.

#[global] Instance SubjectPtr_eq_dec : EqDecision SubjectPtr.
Proof. solve_decision. Defined.

Definition Subject_ptr (s : Subject) : SubjectPtr :=
  mkSubjectPtr
    (Some (mkViewPtr (Some (Round (SubjectView s))) (Some (Sequence (SubjectView s)))))
    (Digest s).

(** Modelled from the spec: verifyPrepare.  "require (view, digest) ==
    current (view, proposal.hash) else InconsistentSubject". *)
Definition verifyPrepare (prepare : option SubjectPtr) (c : core)
  : outcome (option Err) :=
  let! cur := deref (current c) in
  if decide (prepare = Subject_ptr <$> roundState_Subject cur)
  then Returned None
  else Returned (Some errInconsistentSubject).

(** Modelled from the spec: the view comparison of handle(Message).  "Past
    view -> error OldMessage; Future view -> error FutureMessage; Current
    view -> dispatch by code." *)
Definition checkMessage (view : View) (c : core) : outcome (option Err) :=
  let! cur := deref (current c) in
  let cmp := View_Cmp view (roundState_View cur) in
  if decide (cmp < 0) then Returned (Some errOldMessage)
  else if decide (0 < cmp) then Returned (Some errFutureMessage)
  else Returned None.

Definition set_Prepares (ms : gmap N Message) (s : roundState) : roundState :=
  {| round := round s;
     desiredRound := desiredRound s;
     sequence := sequence s;
     rsPreprepare := rsPreprepare s;
     Prepares := ms;
     Commits := Commits s;
     pendingRequest := pendingRequest s;
     preparedCertificate := preparedCertificate s |}.

Definition set_preparedCertificate (cert : PreparedCertificate) (s : roundState)
  : roundState :=
  {| round := round s;
     desiredRound := desiredRound s;
     sequence := sequence s;
     rsPreprepare := rsPreprepare s;
     Prepares := Prepares s;
     Commits := Commits s;
     pendingRequest := pendingRequest s;
     preparedCertificate := cert |}.

(** Modelled from the spec: "broadcasts COMMIT (with BLS committed seal
    over hash || COMMIT-tag)", the subject being the current one. *)
Definition sendCommit (c : core) : outcome core :=
  let! cur := deref (current c) in
  let! sub := deref (roundState_Subject cur) in
  broadcast
    (mkMessage MsgCommit (EncSubject sub) 0%N []
               (SignCommittedSeal (PrepareCommittedSeal (Digest sub)))) c.

(** Modelled from the spec: handlePrepare.  "decode to Subject, require
    (view, digest) == current (view, proposal.hash) else
    InconsistentSubject.  Insert into Prepares.  If size >= minQuorumSize
    and state >= Preprepared, freeze preparedCertificate, set state
    Prepared, broadcast COMMIT."  The transition is the one the state
    machine names, Preprepared -> Prepared: a node that is Prepared
    already keeps counting and sends nothing more, as TestHandlePrepare
    requires (four PREPAREs at a quorum of three, and "the Send() should
    be called once"). *)
Definition handlePrepare (msg : Message) (c : core) : outcome (core * option Err) :=
  match DecodeSubject msg with
  | None => Returned (c, Some errFailedDecodePrepare)
  | Some prepare =>
      let! e := checkMessage (SubjectView prepare) c in
      match e with
      | Some err => Returned (c, Some err)
      | None =>
          let! e := verifyPrepare (Some (Subject_ptr prepare)) c in
          match e with
          | Some err => Returned (c, Some err)
          | None =>
              let! cur := deref (current c) in
              let cur := set_Prepares (messageSet_Add msg (Prepares cur)) cur in
              let c := set_current (Some cur) c in
              let! vs := deref (valSet c) in
              if decide (MinQuorumSize vs <= messageSet_Size (Prepares cur)
                         ∧ 0 <= State_Cmp (state c) StatePreprepared
                         ∧ State_Cmp (state c) StatePrepared < 0)
              then
                let! proposal := deref (roundState_Proposal cur) in
                let cur := set_preparedCertificate
                             (mkPreparedCertificate proposal
                                (messageSet_Values (Prepares cur))) cur in
                let c := set_current (Some cur) c in
                let c := setState StatePrepared c in
                let! c := sendCommit c in
                Returned (c, None)
              else Returned (c, None)
          end
      end
  end.
End Core.

Arguments core : clear implicits.

(** ** Construction (core.go: New, SetAddress) *)

Section Construction.
Context {VS : Type} `{ValidatorSet VS}.

(** [New(backend, config)]: no validator set, round state, round-change
    set or timer yet; [consensusTimestamp] is the zero time.  The wait
    group, the mutexes, the queues and the meters are not read by the
    methods embedded here. *)
Definition New (backend : Backend VS) (config : Config) : core VS :=
  {| config := config;
     address := BackendAddress backend;
     state := StateAcceptRequest;
     backend := backend;
     futurePreprepareTimer := None;
     valSet := None;
     current := None;
     coreRoundChangeSet := None;
     roundChangeTimer := None;
     consensusTimestamp := None;
     calls := [] |}.

Definition SetAddress (a : Address) (c : core VS) : core VS :=
  mkCore (config c) a (state c) (backend c) (futurePreprepareTimer c)
    (valSet c) (current c) (coreRoundChangeSet c) (roundChangeTimer c)
    (consensusTimestamp c) (calls c).
End Construction.

(** ** A validator set and a backend to run the scenarios of the tests

    A round-robin set in the manner of the validator package (the next of
    the last proposer, shifted by the round; a quorum of ceil(2n/3)) and a
    backend that signs with the bytes of the sender's address.  They are
    instances of the two interfaces, used in the examples only. *)

Module Scenario.
Record roundRobinSet : Type := mkRoundRobinSet {
  members : list Validator;
  proposerIndex : nat
}.

Fixpoint indexOf (a : Address) (l : list Validator) (i : Z) : Z * option Validator :=
  match l with
  | [] => (-1, None)
  | v :: rest => if decide (ValAddress v = a) then (i, Some v) else indexOf a rest (i + 1)
  end.

Definition calcProposer (s : roundRobinSet) (lastProposer : Address) (round : Z)
  : roundRobinSet :=
  let n := Z.of_nat (length (members s)) in
  let '(i, _) := indexOf lastProposer (members s) 0 in
  let seed := if decide (i = -1) then round else i + 1 + round in
  mkRoundRobinSet (members s) (Z.to_nat (seed mod n)).

#[global] Instance roundRobin : ValidatorSet roundRobinSet := {|
  Size s := Z.of_nat (length (members s));
  MinQuorumSize s := (2 * Z.of_nat (length (members s)) + 2) / 3;
  GetByAddress s a := indexOf a (members s) 0;
  GetProposer s := members s !! proposerIndex s;
  IsProposer s a :=
    bool_decide (ValAddress <$> (members s !! proposerIndex s) = Some a);
  CalcProposer := calcProposer
|}.

Definition validator (a : Address) : Validator := mkValidator a [byte_of_N a].

(** Four validators, addresses 1 to 4. *)
Definition four : roundRobinSet :=
  mkRoundRobinSet [validator 1; validator 2; validator 3; validator 4] 0.

Definition signature (a : Address) : list byte := [byte_of_N a].

(** A signature is the byte of its signer; an empty one verifies nothing. *)
Definition checkSignature (s : roundRobinSet) (data : Message) (sig : list byte)
  : Err + Address :=
  if decide (sig = signature (MsgAddress data))
  then (if decide ((indexOf (MsgAddress data) (members s) 0).1 = -1)
        then inl errUnauthorizedAddress else inr (MsgAddress data))
  else inl errInvalidMessage.

Definition aggregate (seals : list (list byte)) : Err + list byte :=
  inr (concat seals).

Definition sealLength : nat := 2.

Definition signSeal (data : list byte) : list byte := take 2 data.

Definition block (n : Z) : Proposal := mkProposal n (Z.to_N (100 + n)).

(** A backend at address [a] whose chain head is block [n] proposed by
    [p], and whose [Commit] answers [commitAnswer]. *)
Definition backendAt (a : Address) (n : Z) (p : Address) (commitAnswer : option Err)
  : Backend roundRobinSet :=
  {| BackendAddress := a;
     LastProposal := (block n, p);
     Validators := fun _ => four;
     Commit := fun _ _ _ => commitAnswer;
     Sign := fun m => inr (signature (MsgAddress m));
     Broadcast := fun _ => None |}.

Definition config0 : Config := mkConfig 3000 1.

(** The core of validator [a] in [st], working on [rs], the chain head
    being block [n]. *)
Definition coreAt (a : Address) (st : State) (rs : roundState) (n : Z)
    (commitAnswer : option Err) : core roundRobinSet :=
  {| config := config0;
     address := a;
     state := st;
     backend := backendAt a n 4 commitAnswer;
     futurePreprepareTimer := None;
     valSet := Some four;
     current := Some rs;
     coreRoundChangeSet := Some newRoundChangeSet;
     roundChangeTimer := None;
     consensusTimestamp := None;
     calls := [] |}.

Definition prepareMsg (a : Address) (v : View) (p : Proposal) : Message :=
  mkMessage MsgPrepare (EncSubject (mkSubject v (ProposalHash p))) a (signature a) [].

Definition commitMsg (a : Address) (v : View) (p : Proposal) : Message :=
  mkMessage MsgCommit (EncSubject (mkSubject v (ProposalHash p))) a (signature a)
    (signSeal (PrepareCommittedSeal (ProposalHash p))).

(** A PREPARED certificate for [p] at [v] from validators 1, 2 and 3. *)
Definition preparedCertificateFor (v : View) (p : Proposal) : PreparedCertificate :=
  mkPreparedCertificate p [prepareMsg 1 v p; prepareMsg 2 v p; prepareMsg 3 v p].

Definition roundChangeMsg (a : Address) (v : View) (cert : PreparedCertificate)
  : Message :=
  mkMessage MsgRoundChange
    (EncRoundChange v (CertProposal cert) (PrepareOrCommitMessages cert))
    a (signature a) [].

(** A round state at [v] that has accepted [p]. *)
Definition acceptedAt (v : View) (p : Proposal) : roundState :=
  newRoundState v (Some (mkPreprepare v p (mkRoundChangeCertificate [])))
                None EmptyPreparedCertificate.

(** The core of [coreAt] with a given round-change set. *)
Definition coreWith (a : Address) (st : State) (rs : roundState) (n : Z)
    (commitAnswer : option Err) (rcs : roundChangeSet) : core roundRobinSet :=
  {| config := config0;
     address := a;
     state := st;
     backend := backendAt a n 4 commitAnswer;
     futurePreprepareTimer := None;
     valSet := Some four;
     current := Some rs;
     coreRoundChangeSet := Some rcs;
     roundChangeTimer := None;
     consensusTimestamp := None;
     calls := [] |}.

(** Sequence 5, round 0, nothing accepted, with a pending request. *)
Definition waitingState : roundState :=
  newRoundState (mkView 5 0) None (Some (mkRequest (Some (block 5))))
                EmptyPreparedCertificate.

(** Validator 1 at (5, 0), the chain head being block 4. *)
Definition atFiveZero : core roundRobinSet :=
  coreAt 1 StateAcceptRequest waitingState 4 None.

(** The same validator once block 5 is the chain head, and once block 7 is. *)
Definition headAtFive : core roundRobinSet :=
  coreAt 1 StateAcceptRequest waitingState 5 None.
Definition headAtSeven : core roundRobinSet :=
  coreAt 1 StateAcceptRequest waitingState 7 None.

(** ROUND-CHANGE messages for round 1 of sequence 5 from validators 1, 2
    and 3; the first carries a certificate prepared at round 0 for a block
    other than the pending one. *)
Definition preparedBlock : Proposal := mkProposal 5 777.

Definition roundChangesForOne : roundChangeSet :=
  let add i cert rcs :=
    (rcs_Add 1 (roundChangeMsg i (mkView 5 1) cert) (validator i) rcs).1 in
  add 3%N EmptyPreparedCertificate
    (add 2%N EmptyPreparedCertificate
       (add 1%N (preparedCertificateFor (mkView 5 0) preparedBlock) newRoundChangeSet)).

(** Validator 2, the proposer of round 1 after validator 4, holding them. *)
Definition proposerOfOne : core roundRobinSet :=
  coreWith 2 StateWaitingForNewRound waitingState 4 None roundChangesForOne.

Definition certificateForOne : RoundChangeCertificate :=
  match getCertificate 1 3 roundChangesForOne with
  | inr cert => cert
  | inl _ => mkRoundChangeCertificate []
  end.

(** A round state at (1, 0) that has accepted block 1 and counted the
    PREPAREs of the validators in [senders]. *)
Definition preparesOf (senders : list Address) : roundState :=
  set_Prepares
    (foldr (fun a ms => messageSet_Add (prepareMsg a (mkView 1 0) (block 1)) ms) ∅ senders)
    (acceptedAt (mkView 1 0) (block 1)).

(** Validator 1 in [st] with the PREPAREs of [senders]. *)
Definition preparing (st : State) (senders : list Address) : core roundRobinSet :=
  coreAt 1 st (preparesOf senders) 0 None.

(** A round state at (1, 0) that has accepted block 1 and holds the COMMITs
    of validators 1, 2 and 3; and one that has accepted nothing. *)
Definition committing : roundState :=
  {| round := 0;
     desiredRound := 0;
     sequence := 1;
     rsPreprepare := Some (mkPreprepare (mkView 1 0) (block 1) (mkRoundChangeCertificate []));
     Prepares := ∅;
     Commits := foldr (fun a ms => messageSet_Add (commitMsg a (mkView 1 0) (block 1)) ms)
                      ∅ [1%N; 2%N; 3%N];
     pendingRequest := None;
     preparedCertificate := EmptyPreparedCertificate |}.

(** The same round state with the COMMITs of validators 1 and 2 and of
    address 9, which is no validator. *)
Definition committingWithStranger : roundState :=
  {| round := 0;
     desiredRound := 0;
     sequence := 1;
     rsPreprepare := Some (mkPreprepare (mkView 1 0) (block 1) (mkRoundChangeCertificate []));
     Prepares := ∅;
     Commits := foldr (fun a ms => messageSet_Add (commitMsg a (mkView 1 0) (block 1)) ms)
                      ∅ [1%N; 2%N; 9%N];
     pendingRequest := None;
     preparedCertificate := EmptyPreparedCertificate |}.

Definition commitRefused : core roundRobinSet :=
  coreAt 1 StatePrepared committing 0 (Some (errBackend 1)).

Definition nothingAccepted : core roundRobinSet :=
  coreAt 1 StatePrepared (newRoundState (mkView 1 0) None None EmptyPreparedCertificate)
         0 None.

(** The validators of [senders], each adding its ROUND-CHANGE for round
    [r a], in turn. *)
Definition addAll (r : Address -> Z) (senders : list Address) (rcs : roundChangeSet)
  : roundChangeSet :=
  foldl (fun acc a =>
           (rcs_Add (r a) (roundChangeMsg a (mkView 1 (r a)) EmptyPreparedCertificate)
                    (validator a) acc).1)
        rcs senders.

(** All four validators at round 1; and validator i at round i - 1. *)
Definition allAtOne : roundChangeSet :=
  addAll (fun _ => 1) [1%N; 2%N; 3%N; 4%N] newRoundChangeSet.
Definition staircase : roundChangeSet :=
  addAll (fun a => Z.of_N a - 1) [1%N; 2%N; 3%N; 4%N] newRoundChangeSet.

(** [cert.PrepareOrCommitMessages[i] = m]. *)
Definition replaceMessage (i : nat) (m : Message) (cert : PreparedCertificate)
  : PreparedCertificate :=
  mkPreparedCertificate (CertProposal cert) (<[i := m]> (PrepareOrCommitMessages cert)).

(** The PREPAREs of [senders] handled in turn, up to the first error. *)
Fixpoint handlePrepares (senders : list Address) (c : core roundRobinSet)
  : outcome (core roundRobinSet * option Err) :=
  match senders with
  | [] => Returned (c, None)
  | a :: rest =>
      match handlePrepare signSeal (prepareMsg a (mkView 1 0) (block 1)) c with
      | Returned (c', None) => handlePrepares rest c'
      | other => other
      end
  end.

(** What a test reads off a core after a call. *)
Definition observe (o : outcome (core roundRobinSet * option Err))
  : option (State * Z * list Call * option Err) :=
  match o with
  | Returned (c, e) =>
      Some (state c,
            default 0 ((fun rs => messageSet_Size (Prepares rs)) <$> current c),
            calls c, e)
  | Panicked _ => None
  end.
End Scenario.

(** ** The EVM context (core/evm.go) *)

Module Evm.
(** [uint64] subtraction, wrapping. *)
Definition sub64 (a b : Z) : Z := (a - b) mod 2 ^ 64.

(** The fields of [types.Header] that evm.go reads; [Number], [Time] and
    [Difficulty] are [big.Int]s. *)
Record Header : Type := mkHeader {
  ParentHash : Hash;
  Coinbase : Address;
  Root : Hash;
  Number : Z;
  GasLimit : Z;
  Time : Z;
  Difficulty : Z
}.

(** [ChainContext]: [Engine().Author(header)], and [GetHeader(hash, number)],
    which is nil when the chain holds no such header. *)
Record ChainContext : Type := mkChainContext {
  EngineAuthor : Header -> Address * option Err;
  GetHeader : Hash -> Z -> option Header
}.

(** [header.Number.Uint64() - 1] and [header.Number.Uint64()], the keys of
    the two caches. *)
Definition parentNumber (header : Header) : Z :=
  sub64 (BigInt.Uint64 (Number header)) 1.

Definition ownNumber (header : Header) : Z := BigInt.Uint64 (Number header).

(** What [GetHashFn(ref, chain)] returns is a closure: the two variables
    it captures and the cache it owns, nil until the first call. *)
Record GetHashFunc : Type := mkGetHashFunc {
  hashRef : Header;
  hashChain : ChainContext;
  hashCache : option (gmap Z Hash)
}.

Definition GetHashFn (ref : Header) (chain : ChainContext) : GetHashFunc :=
  mkGetHashFunc ref chain None.

(** The loop of the closure, [header] being its variable: the answer and
    the cache when it returns within [fuel] turns. *)
Fixpoint hashLoop (fuel : nat) (chain : ChainContext) (n : Z)
    (header : option Header) (cache : gmap Z Hash) : option (Hash * gmap Z Hash) :=
  match header with
  | None => Some (0%N, cache)
  | Some header =>
      match fuel with
      | O => None
      | S fuel =>
          let cache := <[parentNumber header := ParentHash header]> cache in
          if decide (n = parentNumber header) then Some (ParentHash header, cache)
          else hashLoop fuel chain n
                 (GetHeader chain (ParentHash header) (parentNumber header)) cache
      end
  end.

(** One call [f(n)] of the closure: the hash returned and the closure
    afterwards; [None] when the loop is still running after [fuel] turns. *)
Definition GetHashFunc_call (fuel : nat) (f : GetHashFunc) (n : Z)
  : option (Hash * GetHashFunc) :=
  let ref := hashRef f in
  let chain := hashChain f in
  let cache := match hashCache f with
               | None => {[ parentNumber ref := ParentHash ref ]}
               | Some cache => cache
               end in
  match cache !! n with
  | Some hash => Some (hash, mkGetHashFunc ref chain (Some cache))
  | None =>
      match hashLoop fuel chain n
              (GetHeader chain (ParentHash ref) (parentNumber ref)) cache with
      | Some (hash, cache) => Some (hash, mkGetHashFunc ref chain (Some cache))
      | None => None
      end
  end.

(** The closure of [GetCoinbaseFn(ref, chain)]. *)
Record GetCoinbaseFunc : Type := mkGetCoinbaseFunc {
  coinbaseRef : Header;
  coinbaseChain : ChainContext;
  coinbaseCache : option (gmap Z Address)
}.

Definition GetCoinbaseFn (ref : Header) (chain : ChainContext) : GetCoinbaseFunc :=
  mkGetCoinbaseFunc ref chain None.

Fixpoint coinbaseLoop (fuel : nat) (chain : ChainContext) (n : Z)
    (header : option Header) (cache : gmap Z Address)
  : option (Address * gmap Z Address) :=
  match header with
  | None => Some (0%N, cache)
  | Some header =>
      match fuel with
      | O => None
      | S fuel =>
          let cache := <[ownNumber header := Coinbase header]> cache in
          if decide (n = ownNumber header) then Some (Coinbase header, cache)
          else coinbaseLoop fuel chain n
                 (GetHeader chain (ParentHash header) (parentNumber header)) cache
      end
  end.

Definition GetCoinbaseFunc_call (fuel : nat) (f : GetCoinbaseFunc) (n : Z)
  : option (Address * GetCoinbaseFunc) :=
  let ref := coinbaseRef f in
  let chain := coinbaseChain f in
  let cache := match coinbaseCache f with
               | None => {[ ownNumber ref := Coinbase ref ]}
               | Some cache => cache
               end in
  match cache !! n with
  | Some address => Some (address, mkGetCoinbaseFunc ref chain (Some cache))
  | None =>
      match coinbaseLoop fuel chain n
              (GetHeader chain (ParentHash ref) (parentNumber ref)) cache with
      | Some (address, cache) =>
          Some (address, mkGetCoinbaseFunc ref chain (Some cache))
      | None => None
      end
  end.

(** The closure called for each number of a list in turn. *)
Fixpoint GetHashFunc_calls (fuel : nat) (f : GetHashFunc) (ns : list Z)
  : option (list Hash) :=
  match ns with
  | [] => Some []
  | n :: ns =>
      match GetHashFunc_call fuel f n with
      | Some (hash, f) => cons hash <$> GetHashFunc_calls fuel f ns
      | None => None
      end
  end.

Fixpoint GetCoinbaseFunc_calls (fuel : nat) (f : GetCoinbaseFunc) (ns : list Z)
  : option (list Address) :=
  match ns with
  | [] => Some []
  | n :: ns =>
      match GetCoinbaseFunc_call fuel f n with
      | Some (address, f) => cons address <$> GetCoinbaseFunc_calls fuel f ns
      | None => None
      end
  end.

(** The two methods of the [core.Message] interface that
    [NewEVMContext] calls. *)
Record TxMessage : Type := mkTxMessage { From : Address; GasPrice : Z }.

(** [vm.Context] as [NewEVMContext] fills it.  Its [CanTransfer] and
    [Transfer] fields are always the two functions below. *)
Record Context : Type := mkContext {
  GetHash : GetHashFunc;
  GetCoinbase : GetCoinbaseFunc;
  Origin : Address;
  ContextCoinbase : Address;
  BlockNumber : Z;
  ContextTime : Z;
  ContextDifficulty : Z;
  ContextGasLimit : Z;
  ContextGasPrice : Z
}.

Definition NewEVMContext (msg : TxMessage) (header : Header) (chain : ChainContext)
    (author : option Address) : Context :=
  let beneficiary := match author with
                     | None => (EngineAuthor chain header).1
                     | Some a => a
                     end in
  {| GetHash := GetHashFn header chain;
     GetCoinbase := GetCoinbaseFn header chain;
     Origin := From msg;
     ContextCoinbase := beneficiary;
     BlockNumber := Number header;
     ContextTime := Time header;
     ContextDifficulty := Difficulty header;
     ContextGasLimit := GasLimit header;
     ContextGasPrice := GasPrice msg |}.

(** The three methods of [vm.StateDB] that evm.go calls; the two updates
    return the database afterwards. *)
Class StateDB (DB : Type) : Type := {
  GetBalance : DB -> Address -> Z;
  SubBalance : DB -> Address -> Z -> DB;
  AddBalance : DB -> Address -> Z -> DB
}.

Definition CanTransfer {DB : Type} `{StateDB DB} (db : DB) (addr : Address)
    (amount : Z) : bool :=
  bool_decide (0 <= BigInt.Cmp (GetBalance db addr) amount).

Definition Transfer {DB : Type} `{StateDB DB} (db : DB) (sender recipient : Address)
    (amount : Z) : DB :=
  AddBalance (SubBalance db sender amount) recipient amount.
End Evm.

(** ** The minimum client version (blockchain_parameters) *)

Module BlockchainParameters.
Record VersionInfo : Type := mkVersionInfo { Major : Z; Minor : Z; Patch : Z }.

(** What a run of [CheckMinimumVersion] does besides returning. *)
Inductive Effect : Type :=
| LogWarn (text : string)
| Sleep (seconds : Z)
| LogCrit (text : string).

Section Version.
(** [contract_comm.MakeStaticCall] of [getMinimumClientVersion] on a header
    and a state (both may be nil): an error, or the three [uint256] the
    contract answers; [VersionInfo.Cmp] and [params.CurrentVersionInfo]. *)
Context {DB : Type}.
Variable MakeStaticCall : option Evm.Header -> option DB -> Err + Z * Z * Z.
Variable VersionInfo_Cmp : VersionInfo -> VersionInfo -> Z.
Variable CurrentVersionInfo : VersionInfo.

Definition GetMinimumVersion (header : option Evm.Header) (state : option DB)
  : Err + VersionInfo :=
  match MakeStaticCall header state with
  | inl err => inl err
  | inr (major, minor, patch) =>
      inr (mkVersionInfo (BigInt.Uint64 major) (BigInt.Uint64 minor)
                         (BigInt.Uint64 patch))
  end.

Definition CheckMinimumVersion (header : option Evm.Header) (state : option DB)
  : list Effect :=
  match GetMinimumVersion header state with
  | inl _ => [LogWarn "Error checking client version"]
  | inr version =>
      if decide (VersionInfo_Cmp CurrentVersionInfo version = -1)
      then [Sleep 10; LogCrit "Client version older than required"]
      else []
  end.
End Version.
End BlockchainParameters.

(** ** Chains and ledgers to run the EVM context on *)

Module EvmScenario.
(** Block [n] of a chain whose block [k] has hash [1000 + k] and was mined
    by [k mod 3 + 1]. *)
Definition headerAt (n : Z) : Evm.Header :=
  {| Evm.ParentHash := Z.to_N (1000 + n - 1);
     Evm.Coinbase := Z.to_N (n mod 3 + 1);
     Evm.Root := 0%N;
     Evm.Number := n;
     Evm.GasLimit := 8000000;
     Evm.Time := 5 * n;
     Evm.Difficulty := 1 |}.

(** The chain of blocks 0 to 9. *)
Definition tenBlocks : Evm.ChainContext :=
  {| Evm.EngineAuthor := fun h => (Evm.Coinbase h, None);
     Evm.GetHeader := fun hash number =>
       if decide (0 <= number < 10 ∧ hash = Z.to_N (1000 + number))
       then Some (headerAt number) else None |}.

(** A chain that answers every request with the same header. *)
Definition looping : Evm.ChainContext :=
  {| Evm.EngineAuthor := fun h => (Evm.Coinbase h, None);
     Evm.GetHeader := fun _ _ => Some (headerAt 3) |}.

(** Balances by account, zero for an account never touched. *)
#[global] Instance ledger : Evm.StateDB (gmap N Z) := {|
  Evm.GetBalance db a := default 0 (db !! a);
  Evm.SubBalance db a x := <[a := default 0 (db !! a) - x]> db;
  Evm.AddBalance db a x := <[a := default 0 (db !! a) + x]> db
|}.

Definition accounts : gmap N Z := {[ 1%N := 100; 2%N := 5 ]}.

(** A contract that answers [2^64 + 1 . 2 . 3], and one that fails. *)
Definition answering (_ : option Evm.Header) (_ : option (gmap N Z))
  : Err + Z * Z * Z := inr (2 ^ 64 + 1, 2, 3).

Definition failing (_ : option Evm.Header) (_ : option (gmap N Z))
  : Err + Z * Z * Z := inl (errBackend 7).

(** Versions compared component by component, major first. *)
Definition compareVersions (a b : BlockchainParameters.VersionInfo) : Z :=
  if decide (BlockchainParameters.Major a ≠ BlockchainParameters.Major b)
  then BigInt.Cmp (BlockchainParameters.Major a) (BlockchainParameters.Major b)
  else if decide (BlockchainParameters.Minor a ≠ BlockchainParameters.Minor b)
  then BigInt.Cmp (BlockchainParameters.Minor a) (BlockchainParameters.Minor b)
  else BigInt.Cmp (BlockchainParameters.Patch a) (BlockchainParameters.Patch b).
End EvmScenario.

(** ** Vocabulary of the specification *)

(** The backoff [b] of the round-change timer, in nanoseconds: "b(0) =
    blockPeriod (seconds) and b(k>0) = 2^min(k,5) seconds". *)
Definition backoff (cfg : Config) (k : Z) : Z :=
  if decide (k = 0) then BlockPeriod cfg * Second else 2 ^ Z.min k 5 * Second.

(** The prepared certificate a ROUND-CHANGE message carries, as the round
    of its view and its proposal; none when the message does not decode,
    when its certificate is empty, or when the certificate has no view. *)
Definition carriedCertificate (m : Message) : option (Z * Proposal) :=
  match DecodeRoundChange m with
  | Some rc =>
      let cert := RoundChangePreparedCertificate rc in
      if HasPreparedCertificate rc
      then (fun v => (Round v, CertProposal cert)) <$> PreparedCertificate_View cert
      else None
  | None => None
  end.

(** The PRE-PREPARE [startNewRound] sends when it enters a round: one, on a
    round change with this node proposing and a request at hand. *)
Definition preprepareCalls (roundChange proposing : bool) (request : option Request)
    (cert : RoundChangeCertificate) : list Call :=
  match request with
  | Some req => if roundChange && proposing then [CallSendPreprepare req cert] else []
  | None => []
  end.

(** What the specification asks of one message of a prepared certificate:
    a signature of its sender, a PREPARE or COMMIT code, and a subject of
    the certificate's view, not of a future sequence, whose digest is the
    hash of the certificate's proposal. *)
Definition messageAcceptable {VS : Type}
    (check : VS -> Message -> list byte -> Err + Address)
    (vs : VS) (currentSequence : Z) (cert : PreparedCertificate) (m : Message) : Prop :=
  check vs (PayloadNoSig m) (Signature m) = inr (MsgAddress m)
  ∧ (Code m = MsgPrepare ∨ Code m = MsgCommit)
  ∧ ∃ s, DecodeSubject m = Some s
      ∧ Sequence (SubjectView s) <= currentSequence
      ∧ PreparedCertificate_View cert = Some (SubjectView s)
      ∧ Digest s = ProposalHash (CertProposal cert).

(** "A PreparedCertificate is valid iff: it contains exactly minQuorumSize
    messages; all messages share the same (Sequence, Round, Digest);
    Sequence <= current.Sequence; each message's code is PREPARE or COMMIT;
    signatures verify; no duplicate senders; and the Digest equals
    hash(certificate.Proposal)." *)
Definition ValidPreparedCertificate {VS : Type} `{ValidatorSet VS}
    (check : VS -> Message -> list byte -> Err + Address)
    (vs : VS) (currentSequence : Z) (cert : PreparedCertificate) : Prop :=
  Z.of_nat (length (PrepareOrCommitMessages cert)) = MinQuorumSize vs
  ∧ (∃ view,
       Sequence view <= currentSequence
       ∧ ∀ m, m ∈ PrepareOrCommitMessages cert ->
              DecodeSubject m = Some (mkSubject view (ProposalHash (CertProposal cert)))
              ∧ (Code m = MsgPrepare ∨ Code m = MsgCommit)
              ∧ check vs (PayloadNoSig m) (Signature m) = inr (MsgAddress m))
  ∧ NoDup (MsgAddress <$> PrepareOrCommitMessages cert).

(** In a round-change set, a sender has messages in one round only, the
    round recorded as its latest. *)
Definition latestOnly (rcs : roundChangeSet) : Prop :=
  ∀ k a, is_Some (msgsAt rcs k !! a) -> latestRoundForVal rcs !! a = Some k.

(** The order of the answers of [MaxRound]: nil is below every round. *)
Definition maxRound_le (a b : option Z) : Prop :=
  match a, b with
  | None, _ => True
  | Some _, None => False
  | Some x, Some y => x <= y
  end.

(** ** Vocabulary of the EVM context *)

(** The headers the loop of a closure visits from the request for
    [(hash, number)] on, on a chain that ends. *)
Inductive Ancestors (chain : Evm.ChainContext) : Hash -> Z -> list Evm.Header -> Prop :=
| Ancestors_end hash number :
    Evm.GetHeader chain hash number = None -> Ancestors chain hash number []
| Ancestors_step hash number header rest :
    Evm.GetHeader chain hash number = Some header ->
    Ancestors chain (Evm.ParentHash header) (Evm.parentNumber header) rest ->
    Ancestors chain hash number (header :: rest).

(** The parent hash of the first of [headers] whose parent has number
    [n], and the coinbase of the first whose own number is [n]; the zero
    value when there is none. *)
Definition hashOf (headers : list Evm.Header) (n : Z) : Hash :=
  default 0%N
    (Evm.ParentHash <$> head (filter (fun h => Evm.parentNumber h = n) headers)).

Definition coinbaseOf (headers : list Evm.Header) (n : Z) : Address :=
  default 0%N
    (Evm.Coinbase <$> head (filter (fun h => Evm.ownNumber h = n) headers)).

(** A chain that answers a request for a number with a header of that
    number. *)
Definition numbered (chain : Evm.ChainContext) : Prop :=
  ∀ hash number header,
    Evm.GetHeader chain hash number = Some header -> Evm.ownNumber header = number.

(** What a state database does with balances: an update changes the
    balance of its account by the amount, and of no other. *)
Definition accounting (DB : Type) `{Evm.StateDB DB} : Prop :=
  ∀ (db : DB) a x b,
    Evm.GetBalance (Evm.AddBalance db a x) b
      = (if decide (a = b) then Evm.GetBalance db b + x else Evm.GetBalance db b)
    ∧ Evm.GetBalance (Evm.SubBalance db a x) b
      = (if decide (a = b) then Evm.GetBalance db b - x else Evm.GetBalance db b).

(** * Properties *)

(** ** Integers *)

Module BigIntFacts.
Lemma Uint64_small x : 0 <= x < 2 ^ 64 -> BigInt.Uint64 x = x.
Proof.
  intros Hx. unfold BigInt.Uint64. rewrite Z.abs_eq by lia. apply Z.mod_small; lia.
Qed.

Lemma wrap_int64_small z : - 2 ^ 63 <= z < 2 ^ 63 -> BigInt.wrap_int64 z = z.
Proof.
  intros Hz. unfold BigInt.wrap_int64. rewrite Z.mod_small; lia.
Qed.

Lemma Int64_small x : 0 <= x < 2 ^ 63 -> BigInt.Int64 x = x.
Proof.
  intros Hx. unfold BigInt.Int64.
  destruct (Z.ltb_spec x 0) as [Hn|_]; [lia|].
  rewrite Z.abs_eq by lia. rewrite (Z.mod_small x) by lia.
  apply wrap_int64_small; lia.
Qed.

Lemma Cmp_ge a b : 0 <= BigInt.Cmp a b <-> b <= a.
Proof. unfold BigInt.Cmp. destruct (Z.compare_spec a b); lia. Qed.

Lemma Cmp_gt a b : 0 < BigInt.Cmp a b <-> b < a.
Proof. unfold BigInt.Cmp. destruct (Z.compare_spec a b); lia. Qed.

Lemma Cmp_lt a b : BigInt.Cmp a b < 0 <-> a < b.
Proof. unfold BigInt.Cmp. destruct (Z.compare_spec a b); lia. Qed.

Lemma Cmp_eq a b : BigInt.Cmp a b = 0 <-> a = b.
Proof. unfold BigInt.Cmp. destruct (Z.compare_spec a b); lia. Qed.
End BigIntFacts.

Section CoreProperties.
Context {VS : Type} `{ValidatorSet VS}.
Variable AggregateSignatures : list (list byte) -> Err + list byte.
Variable IstanbulExtraCommittedSeal : nat.

Implicit Types (c : core VS) (cur : roundState) (view : View).

(** ** Frame facts: what each small step leaves alone *)

Lemma setState_fields st c :
  state (setState st c) = st
  ∧ current (setState st c) = current c
  ∧ valSet (setState st c) = valSet c
  ∧ coreRoundChangeSet (setState st c) = coreRoundChangeSet c
  ∧ roundChangeTimer (setState st c) = roundChangeTimer c
  ∧ futurePreprepareTimer (setState st c) = futurePreprepareTimer c
  ∧ backend (setState st c) = backend c
  ∧ config (setState st c) = config c
  ∧ consensusTimestamp (setState st c) = consensusTimestamp c.
Proof.
  unfold setState.
  destruct (decide (state c ≠ st)) as [Hne|Heq];
    destruct (decide (st = StateAcceptRequest)); cbn; repeat split; try done;
    destruct (decide (state c = st)) as [Hs|Hs]; try done; by destruct Heq.
Qed.

Lemma setState_calls st c :
  calls (setState st c) =
  calls c ++ (if decide (st = StateAcceptRequest)
              then [CallProcessPendingRequests; CallProcessBacklog]
              else [CallProcessBacklog]).
Proof.
  unfold setState.
  destruct (decide (state c ≠ st)); destruct (decide (st = StateAcceptRequest));
    cbn; rewrite <- ?app_assoc; reflexivity.
Qed.

#[local] Arguments setState : simpl never.

(** ** The round-change timer *)

Lemma backoff_bounds cfg k :
  0 < k -> 2 * Second <= backoff cfg k <= 32 * Second.
Proof.
  intros Hk. unfold backoff. destruct (decide (k = 0)) as [->|_]; [lia|].
  assert (Hc : Z.min k 5 = 1 ∨ Z.min k 5 = 2 ∨ Z.min k 5 = 3
               ∨ Z.min k 5 = 4 ∨ Z.min k 5 = 5) by lia.
  unfold Second. destruct Hc as [->|[->|[->|[->| ->]]]]; cbn; lia.
Qed.

Lemma backoff_capped cfg k : 5 <= k -> backoff cfg k = 32 * Second.
Proof.
  intros Hk. unfold backoff. destruct (decide (k = 0)); [lia|].
  rewrite Z.min_r by lia. reflexivity.
Qed.

Lemma roundChangeTimeout_exact cfg view :
  0 <= Round view < 2 ^ 64 ->
  0 <= RequestTimeout cfg ->
  0 <= BlockPeriod cfg ->
  RequestTimeout cfg * Millisecond + BlockPeriod cfg * Second < 2 ^ 63 ->
  RequestTimeout cfg * Millisecond + 32 * Second < 2 ^ 63 ->
  roundChangeTimeout cfg view =
  RequestTimeout cfg * Millisecond + backoff cfg (Round view).
Proof.
  intros Hr Ht Hb Hsum0 Hsum.
  unfold roundChangeTimeout, Duration_add, Duration_mul, Duration_of_uint64.
  rewrite (BigIntFacts.Uint64_small (Round view)) by exact Hr.
  assert (Hms : 0 <= RequestTimeout cfg * Millisecond) by (unfold Millisecond; lia).
  assert (Hs : 0 <= BlockPeriod cfg * Second) by (unfold Second; lia).
  assert (H32 : 0 <= 32 * Second) by (unfold Second; lia).
  assert (HT : RequestTimeout cfg < 2 ^ 63) by (unfold Millisecond in *; lia).
  assert (HB : BlockPeriod cfg < 2 ^ 63) by (unfold Second in *; lia).
  rewrite (BigIntFacts.wrap_int64_small (RequestTimeout cfg)) by lia.
  rewrite (BigIntFacts.wrap_int64_small (RequestTimeout cfg * Millisecond)) by lia.
  unfold backoff. destruct (decide (Round view = 0)) as [H0|H0].
  - rewrite (BigIntFacts.wrap_int64_small (BlockPeriod cfg)) by lia.
    rewrite (BigIntFacts.wrap_int64_small (BlockPeriod cfg * Second)) by lia.
    apply BigIntFacts.wrap_int64_small. lia.
  - assert (Hk : 0 < Round view) by lia.
    pose proof (backoff_bounds cfg (Round view) Hk) as Hbk.
    unfold backoff in Hbk. destruct (decide (Round view = 0)); [lia|].
    unfold backoffFactor.
    rewrite (BigIntFacts.wrap_int64_small (2 ^ Z.min (Round view) 5 * Second)) by lia.
    apply BigIntFacts.wrap_int64_small. lia.
Qed.

(** C7.  Starting the round-change timer for a view (a round that fits a
    [uint64], a configuration whose durations fit an [int64]) arms a timer
    of duration requestTimeout + b(round), with b(0) = blockPeriod seconds
    and b(k) = 2^min(k,5) seconds for k > 0, hence 32 seconds from round 5
    on; what the timer does on expiry is to post [timeoutEvent] with that
    view, and arming it changes no other field of the core and makes no
    call. *)
Theorem round_change_timer_duration c view :
  0 <= Round view < 2 ^ 64 ->
  0 <= RequestTimeout (config c) ->
  0 <= BlockPeriod (config c) ->
  RequestTimeout (config c) * Millisecond + BlockPeriod (config c) * Second < 2 ^ 63 ->
  RequestTimeout (config c) * Millisecond + 32 * Second < 2 ^ 63 ->
  let c' := newRoundChangeTimerForView view c in
  roundChangeTimer c' =
    Some (mkTimer (RequestTimeout (config c) * Millisecond
                   + backoff (config c) (Round view))
                  (timeoutEvent view) false)
  ∧ backoff (config c) 0 = BlockPeriod (config c) * Second
  ∧ (0 < Round view ->
     backoff (config c) (Round view) = 2 ^ Z.min (Round view) 5 * Second)
  ∧ (5 <= Round view -> backoff (config c) (Round view) = 32 * Second)
  ∧ state c' = state c
  ∧ current c' = current c
  ∧ valSet c' = valSet c
  ∧ coreRoundChangeSet c' = coreRoundChangeSet c
  ∧ calls c' = calls c.
Proof.
  intros Hr Ht Hb Hsum0 Hsum c'.
  split.
  { subst c'. cbn. do 2 f_equal.
    apply roundChangeTimeout_exact; assumption. }
  split; [reflexivity|].
  split.
  { intros Hk. unfold backoff. destruct (decide (Round view = 0)); [lia|reflexivity]. }
  split; [apply backoff_capped|].
  subst c'. cbn. repeat split.
Qed.

(** ** Waiting for a desired round *)

(** C3.  [waitForDesiredRound(r)] on a core with a round state and a
    validator set: when [r] is not above the desired round the call
    returns the core as it was, one debug line apart; otherwise the state
    is WaitingForNewRound, the desired round is [r], the proposer has been
    recomputed for [r] (its [uint64] value, which is [r] for every round
    below 2^64), the round-change timer is armed anew for the view
    (current sequence, r), and the last call made is the sending of a
    ROUND-CHANGE for [r].  Either way the desired round has not
    decreased and the sequence is the same. *)
Theorem waitForDesiredRound_spec c cur vs r :
  current c = Some cur ->
  valSet c = Some vs ->
  (r <= desiredRound cur ->
     waitForDesiredRound r c =
     Returned (logf LvlDebug
                 "New desired round not greater than current desired round" c))
  ∧ (desiredRound cur < r ->
     ∃ c', waitForDesiredRound r c = Returned c'
       ∧ state c' = StateWaitingForNewRound
       ∧ current c' = Some (SetDesiredRound r cur)
       ∧ valSet c' = Some (CalcProposer vs (LastProposal (backend c)).2
                                        (BigInt.Uint64 r))
       ∧ (0 <= r < 2 ^ 64 -> BigInt.Uint64 r = r)
       ∧ roundChangeTimer c' =
           Some (mkTimer (roundChangeTimeout (config c) (mkView (sequence cur) r))
                         (timeoutEvent (mkView (sequence cur) r)) false)
       ∧ calls c' = calls c ++
           [CallLog LvlDebug "Waiting for desired round";
            CallProcessBacklog;
            CallSendRoundChange r])
  ∧ (∃ c' cur', waitForDesiredRound r c = Returned c'
       ∧ current c' = Some cur'
       ∧ desiredRound cur <= desiredRound cur'
       ∧ sequence cur' = sequence cur
       ∧ round cur' = round cur).
Proof.
  intros Hcur Hvs.
  assert (Hle : r <= desiredRound cur ->
                waitForDesiredRound r c =
                Returned (logf LvlDebug
                  "New desired round not greater than current desired round" c)).
  { intros Hr. unfold waitForDesiredRound. rewrite Hcur. cbn.
    destruct (decide (0 <= BigInt.Cmp (desiredRound cur) r)) as [_|Hn];
      [reflexivity|].
    exfalso. apply Hn. apply BigIntFacts.Cmp_ge. exact Hr. }
  assert (Hgt : desiredRound cur < r ->
                waitForDesiredRound r c =
                Returned
                  (emit (CallSendRoundChange r)
                     (newRoundChangeTimerForView (mkView (sequence cur) r)
                        (set_valSet
                           (Some (CalcProposer vs (LastProposal (backend c)).2
                                    (BigInt.Uint64 r)))
                           (set_current (Some (SetDesiredRound r cur))
                              (setState StateWaitingForNewRound
                                 (logf LvlDebug "Waiting for desired round" c))))))).
  { intros Hr. unfold waitForDesiredRound. rewrite Hcur. cbn.
    destruct (decide (0 <= BigInt.Cmp (desiredRound cur) r)) as [Hn|_].
    { apply (proj1 (BigIntFacts.Cmp_ge _ _)) in Hn. lia. }
    destruct (setState_fields StateWaitingForNewRound
                (logf LvlDebug "Waiting for desired round" c))
      as (_ & Hc & Hv & _ & _ & _ & Hb & _).
    cbn. rewrite Hc. cbn. rewrite Hcur. cbn.
    rewrite Hb. cbn.
    destruct (LastProposal (backend c)) as [lp lper]. cbn.
    rewrite Hv. cbn. rewrite Hvs. reflexivity. }
  split; [exact Hle|]. split.
  - intros Hr. eexists. split; [apply Hgt; exact Hr|].
    destruct (setState_fields StateWaitingForNewRound
                (logf LvlDebug "Waiting for desired round" c))
      as (Hst & _ & _ & _ & _ & _ & _ & Hcfg & _).
    split; [exact Hst|]. split; [reflexivity|]. split; [reflexivity|].
    split; [apply BigIntFacts.Uint64_small|].
    split.
    + cbn. rewrite Hcfg. reflexivity.
    + cbn. rewrite setState_calls. rewrite decide_False by discriminate.
      cbn. rewrite <- !app_assoc. reflexivity.
  - destruct (Z_le_gt_dec r (desiredRound cur)) as [Hr|Hr].
    + exists (logf LvlDebug
                "New desired round not greater than current desired round" c), cur.
      split; [apply Hle; exact Hr|]. cbn. repeat split; [exact Hcur|lia].
    + eexists. exists (SetDesiredRound r cur).
      split; [apply Hgt; lia|]. cbn. repeat split. lia.
Qed.

(** ** Commit *)


(** C10.  [commit()] on a core with a round state.  When the run reaches
    [Backend.Commit] (the loop over the COMMITs and the aggregation did
    not panic) and the backend answers with an error, [commit] returns:
    the calls it made are the backlog processing of [setState], the
    [Backend.Commit] itself and, last, [sendNextRoundChange]; the state is
    Committed and the round state, validator set and round-change set are
    those it started with.  When there is no current proposal, [commit]
    returns with the state Committed after the backlog processing alone:
    the backend is not called. *)
Theorem commit_backend_error_or_no_proposal c cur :
  current c = Some cur ->
  (∀ proposal seals bitmap keys asig e,
     roundState_Proposal cur = Some proposal ->
     commitLoop IstanbulExtraCommittedSeal (valSet c) (messageSet_Values (Commits cur))
         ([], 0, [])
       = Returned (seals, bitmap, keys) ->
     AggregateSignatures seals = inr asig ->
     Commit (backend c) proposal bitmap asig = Some e ->
     ∃ c', commit AggregateSignatures IstanbulExtraCommittedSeal c = Returned c'
       ∧ calls c' = calls c ++ [CallProcessBacklog;
                               CallBackendCommit proposal bitmap asig;
                               CallSendNextRoundChange]
       ∧ state c' = StateCommitted
       ∧ current c' = Some cur
       ∧ valSet c' = valSet c
       ∧ coreRoundChangeSet c' = coreRoundChangeSet c)
  ∧ (roundState_Proposal cur = None ->
     ∃ c', commit AggregateSignatures IstanbulExtraCommittedSeal c = Returned c'
       ∧ calls c' = calls c ++ [CallProcessBacklog]
       ∧ state c' = StateCommitted
       ∧ current c' = Some cur).
Proof.
  intros Hcur.
  destruct (setState_fields StateCommitted c)
    as (Hst & Hc & Hv & Hrcs & _ & _ & Hb & _).
  pose proof (setState_calls StateCommitted c) as Hcalls.
  rewrite decide_False in Hcalls by discriminate.
  split.
  - intros proposal seals bitmap keys asig e Hp Hloop Hagg Hcommit.
    eexists. split.
    + unfold commit. rewrite Hc, Hcur. cbn. rewrite Hp.
      rewrite Hv, Hloop. cbn. rewrite Hagg. cbn. rewrite Hb, Hcommit.
      reflexivity.
    + cbn. rewrite Hcalls, Hst, Hc, Hv, Hrcs, <- !app_assoc. cbn.
      repeat split; assumption.
  - intros Hp. exists (setState StateCommitted c). split.
    + unfold commit. rewrite Hc, Hcur. cbn. rewrite Hp. reflexivity.
    + rewrite Hcalls, Hst, Hc. repeat split; assumption.
Qed.

(** ** Starting a round *)

Lemma pickRequest_carried mx req m :
  pickRequest (mx, req) m =
  match carriedCertificate m with
  | Some (rho, p) =>
      if decide (mx < rho) then (rho, Some (mkRequest (Some p))) else (mx, req)
  | None => (mx, req)
  end.
Proof.
  unfold pickRequest, carriedCertificate.
  destruct (DecodeRoundChange m) as [rc|]; [|reflexivity].
  cbn. destruct (HasPreparedCertificate rc); [|reflexivity].
  destruct (PreparedCertificate_View (RoundChangePreparedCertificate rc)) as [v|];
    cbn; [|reflexivity].
  destruct (decide (mx < Round v)) as [Hlt|Hge].
  - rewrite bool_decide_eq_true_2; [reflexivity|]. apply BigIntFacts.Cmp_gt. exact Hlt.
  - rewrite bool_decide_eq_false_2; [reflexivity|].
    intros Hc. apply (proj1 (BigIntFacts.Cmp_gt _ _)) in Hc. lia.
Qed.

(** The search loop keeps the first certificate of the highest round above
    the round it starts from, and the request it starts from when there
    is none. *)
Lemma pickRequest_fold msgs : ∀ mx req,
  let res := fold_left pickRequest msgs (mx, req) in
  (∀ m rho p, m ∈ msgs -> carriedCertificate m = Some (rho, p) -> rho <= res.1)
  ∧ ((res = (mx, req)
      ∧ ∀ m rho p, m ∈ msgs -> carriedCertificate m = Some (rho, p) -> rho <= mx)
     ∨ (∃ m p, m ∈ msgs ∧ carriedCertificate m = Some (res.1, p)
         ∧ res.2 = Some (mkRequest (Some p)) ∧ mx < res.1)).
Proof.
  induction msgs as [|m msgs IH]; intros mx req res; subst res.
  - cbn. split; [intros m rho p Hin; inversion Hin|].
    left. split; [reflexivity|]. intros m rho p Hin. inversion Hin.
  - change (fold_left pickRequest (m :: msgs) (mx, req))
      with (fold_left pickRequest msgs (pickRequest (mx, req) m)).
    rewrite pickRequest_carried.
    destruct (carriedCertificate m) as [[rho p]|] eqn:Hm.
    + destruct (decide (mx < rho)) as [Hlt|Hge].
      * destruct (IH rho (Some (mkRequest (Some p)))) as [Hmax Hcase].
        cbn in Hmax, Hcase. split.
        -- intros m' rho' p' Hin Hc. apply elem_of_cons in Hin as [->|Hin].
           ++ rewrite Hm in Hc. injection Hc as <- <-.
              destruct Hcase as [[-> _]|(m1 & p1 & _ & _ & _ & Hlt1)]; cbn; lia.
           ++ eapply Hmax; eassumption.
        -- right. destruct Hcase as [[Heq Hall]|(m1 & p1 & Hin1 & Hc1 & Hr1 & Hlt1)].
           ++ rewrite Heq. cbn. exists m, p. repeat split; try done.
              apply elem_of_cons. by left.
           ++ exists m1, p1. repeat split; try done; [|lia].
              apply elem_of_cons. by right.
      * destruct (IH mx req) as [Hmax Hcase]. cbn in Hmax, Hcase. split.
        -- intros m' rho' p' Hin Hc. apply elem_of_cons in Hin as [->|Hin].
           ++ rewrite Hm in Hc. injection Hc as <- <-.
              destruct Hcase as [[-> _]|(m1 & p1 & _ & _ & _ & Hlt1)]; cbn; lia.
           ++ eapply Hmax; eassumption.
        -- destruct Hcase as [[Heq Hall]|(m1 & p1 & Hin1 & Hc1 & Hr1 & Hlt1)].
           ++ left. split; [exact Heq|].
              intros m' rho' p' Hin Hc. apply elem_of_cons in Hin as [->|Hin].
              ** rewrite Hm in Hc. injection Hc as <- <-. lia.
              ** eapply Hall; eassumption.
           ++ right. exists m1, p1. repeat split; try done.
              apply elem_of_cons. by right.
    + destruct (IH mx req) as [Hmax Hcase]. cbn in Hmax, Hcase. split.
      * intros m' rho' p' Hin Hc. apply elem_of_cons in Hin as [->|Hin].
        -- rewrite Hm in Hc. discriminate.
        -- eapply Hmax; eassumption.
      * destruct Hcase as [[Heq Hall]|(m1 & p1 & Hin1 & Hc1 & Hr1 & Hlt1)].
        -- left. split; [exact Heq|].
           intros m' rho' p' Hin Hc. apply elem_of_cons in Hin as [->|Hin].
           ++ rewrite Hm in Hc. discriminate.
           ++ eapply Hall; eassumption.
        -- right. exists m1, p1. repeat split; try done.
           apply elem_of_cons. by right.
Qed.

Lemma updateRoundState_current view roundChange c :
  current (updateRoundState view roundChange c) =
  Some (match current c with
        | Some cur =>
            if roundChange
            then newRoundState view None (pendingRequest cur) (preparedCertificate cur)
            else newRoundState view None None EmptyPreparedCertificate
        | None => newRoundState view None None EmptyPreparedCertificate
        end).
Proof.
  unfold updateRoundState. destruct (current c); [destruct roundChange|]; reflexivity.
Qed.

Lemma roundState_View_new view preprepare pending cert :
  roundState_View (newRoundState view preprepare pending cert) = view.
Proof. destruct view. reflexivity. Qed.

(** Entering a round with a validator set at hand returns, and leaves the
    core in AcceptRequest with the round state of [updateRoundState], the
    proposer computed for the new round, an empty round-change set and the
    timer of the new view. *)
Lemma enterRound_returns roundChange newView request cert lper c vs :
  valSet c = Some vs ->
  ∃ c', enterRound roundChange newView request cert lper c = Returned c'
    ∧ state c' = StateAcceptRequest
    ∧ current c' = current (updateRoundState newView roundChange c)
    ∧ valSet c' = Some (CalcProposer vs lper (BigInt.Uint64 (Round newView)))
    ∧ coreRoundChangeSet c' = Some newRoundChangeSet
    ∧ roundChangeTimer c' =
        Some (mkTimer (roundChangeTimeout (config c) newView)
                      (timeoutEvent newView) false)
    ∧ calls c' =
        calls c ++ [CallProcessPendingRequests; CallProcessBacklog]
        ++ preprepareCalls roundChange
             (IsProposer (CalcProposer vs lper (BigInt.Uint64 (Round newView)))
                         (BackendAddress (backend c)))
             request cert
        ++ [CallLog LvlDebug "New round"].
Proof.
  intros Hvs. unfold enterRound. rewrite Hvs. cbn.
  set (c1 := set_valSet _ (updateRoundState newView roundChange
                             (set_roundChangeSet (Some newRoundChangeSet) c))).
  destruct (setState_fields StateAcceptRequest c1)
    as (Hst & Hc & Hv & Hrcs & _ & _ & Hb & Hcfg & _).
  pose proof (setState_calls StateAcceptRequest c1) as Hcalls.
  rewrite decide_True in Hcalls by reflexivity.
  assert (Hcur1 : current c1 = current (updateRoundState newView roundChange c)).
  { subst c1. cbn. unfold updateRoundState. cbn.
    destruct (current c); [destruct roundChange|]; reflexivity. }
  assert (Hcfg1 : config c1 = config c).
  { subst c1. cbn. unfold updateRoundState. cbn.
    destruct (current c); [destruct roundChange|]; reflexivity. }
  assert (Hb1 : backend c1 = backend c).
  { subst c1. cbn. unfold updateRoundState. cbn.
    destruct (current c); [destruct roundChange|]; reflexivity. }
  assert (Hcalls1 : calls c1 = calls c).
  { subst c1. cbn. unfold updateRoundState. cbn.
    destruct (current c); [destruct roundChange|]; reflexivity. }
  assert (Hv1 : valSet c1 = Some (CalcProposer vs lper (BigInt.Uint64 (Round newView))))
    by reflexivity.
  assert (Hrcs1 : coreRoundChangeSet c1 = Some newRoundChangeSet).
  { subst c1. cbn. unfold updateRoundState. cbn.
    destruct (current c); [destruct roundChange|]; reflexivity. }
  set (c2 := setState StateAcceptRequest c1) in *.
  set (c3 := match request with
             | Some req =>
                 if roundChange && isProposer c2 && bool_decide (is_Some (current c2))
                 then emit (CallSendPreprepare req cert) c2 else c2
             | None => c2
             end).
  assert (Hsome : ∃ rs, current c2 = Some rs ∧ roundState_View rs = newView).
  { rewrite Hc, Hcur1, updateRoundState_current. eexists. split; [reflexivity|].
    destruct (current c); [destruct roundChange|]; apply roundState_View_new. }
  destruct Hsome as (rs & Hrs & Hview).
  assert (Hprop : isProposer c2 =
                  IsProposer (CalcProposer vs lper (BigInt.Uint64 (Round newView)))
                             (BackendAddress (backend c))).
  { unfold isProposer. rewrite Hv, Hv1, Hb, Hb1. reflexivity. }
  assert (H3 : state c3 = state c2 ∧ current c3 = current c2 ∧ valSet c3 = valSet c2
               ∧ coreRoundChangeSet c3 = coreRoundChangeSet c2
               ∧ config c3 = config c2
               ∧ calls c3 = calls c2 ++
                   preprepareCalls roundChange
                     (IsProposer (CalcProposer vs lper (BigInt.Uint64 (Round newView)))
                                 (BackendAddress (backend c)))
                     request cert).
  { subst c3. unfold preprepareCalls. rewrite Hprop, Hrs.
    rewrite bool_decide_eq_true_2 by (by eexists). rewrite andb_true_r.
    destruct request as [req|]; [|by rewrite app_nil_r].
    destruct (roundChange && IsProposer _ _); cbn; [done|by rewrite app_nil_r]. }
  destruct H3 as (Hst3 & Hc3 & Hv3 & Hrcs3 & Hcfg3 & Hcalls3).
  unfold newRoundChangeTimer, currentView. rewrite Hc3, Hrs. cbn.
  change (mkView (sequence rs) (round rs)) with (roundState_View rs). rewrite Hview.
  eexists. split; [reflexivity|]. cbn.
  rewrite Hst3, Hst, Hc3, Hc, Hcur1, Hv3, Hv, Hv1, Hrcs3, Hrcs, Hrcs1.
  rewrite Hcfg3, Hcfg, Hcfg1, Hcalls3, Hcalls, Hcalls1, <- !app_assoc.
  repeat split.
Qed.

(** What [getPreprepareWithRoundChangeCertificate] returns once the
    round-change set yields a certificate. *)
Lemma getPreprepare_returns r c cur vs rcs cert :
  current c = Some cur ->
  valSet c = Some vs ->
  coreRoundChangeSet c = Some rcs ->
  getCertificate r (MinQuorumSize vs) rcs = inr cert ->
  getPreprepareWithRoundChangeCertificate r c =
  Returned ((fold_left pickRequest (RoundChangeMessages cert)
                       (-1, pendingRequest cur)).2, cert, None).
Proof.
  intros Hcur Hvs Hrcs Hcert. unfold getPreprepareWithRoundChangeCertificate.
  rewrite Hvs, Hrcs. cbn. rewrite Hcert, Hcur. cbn.
  destruct (fold_left pickRequest (RoundChangeMessages cert) (-1, pendingRequest cur)).
  reflexivity.
Qed.

Lemma getPreprepare_fails r c vs rcs e :
  valSet c = Some vs ->
  coreRoundChangeSet c = Some rcs ->
  getCertificate r (MinQuorumSize vs) rcs = inl e ->
  getPreprepareWithRoundChangeCertificate r c =
  Returned (Some (mkRequest None), mkRoundChangeCertificate [], Some e).
Proof.
  intros Hvs Hrcs Hcert. unfold getPreprepareWithRoundChangeCertificate.
  rewrite Hvs, Hrcs. cbn. rewrite Hcert. reflexivity.
Qed.

(** The branch of [startNewRound] taken for a round change: the chain head
    is the block before the current sequence and the round asked for is
    above the current one. *)
Lemma startNewRound_roundChange r c cur :
  current c = Some cur ->
  0 <= sequence cur < 2 ^ 63 ->
  Number (LastProposal (backend c)).1 = sequence cur - 1 ->
  round cur < r ->
  startNewRound r c =
  (let! (request, roundChangeCertificate, err) :=
     getPreprepareWithRoundChangeCertificate r c in
   match err with
   | Some _ => Returned (logf LvlError "Unable to produce round change certificate" c)
   | None =>
       enterRound true (mkView (sequence cur) r) request roundChangeCertificate
                  (LastProposal (backend c)).2 c
   end).
Proof.
  intros Hcur Hseq Hlp Hr. unfold startNewRound.
  destruct (LastProposal (backend c)) as [lp lper]. cbn in Hlp. rewrite Hcur.
  destruct (decide (0 <= BigInt.Cmp (Number lp) (sequence cur))) as [Hge|_].
  { apply (proj1 (BigIntFacts.Cmp_ge _ _)) in Hge. lia. }
  rewrite BigIntFacts.Int64_small by exact Hseq.
  rewrite BigIntFacts.wrap_int64_small by lia.
  destruct (decide (BigInt.Cmp (Number lp) (sequence cur - 1) = 0)) as [_|Hne].
  2:{ exfalso. apply Hne. apply BigIntFacts.Cmp_eq. exact Hlp. }
  destruct (decide (BigInt.Cmp r (round cur) = 0)) as [Heq|_].
  { apply (proj1 (BigIntFacts.Cmp_eq _ _)) in Heq. lia. }
  destruct (decide (BigInt.Cmp r (round cur) < 0)) as [Hlt|_].
  { apply (proj1 (BigIntFacts.Cmp_lt _ _)) in Hlt. lia. }
  reflexivity.
Qed.

(** C1.  A round change to round [r] (the chain head is the block before
    the current sequence and [r] is above the current round) for which the
    round-change set yields a certificate, on the node that is the proposer
    of the new round, a request being at hand (a ROUND-CHANGE message of
    the certificate carries a prepared certificate, or there is a pending
    request): [startNewRound] sends one PRE-PREPARE, with that round-change
    certificate and with the proposal of a carried prepared certificate
    whose round no other carried certificate exceeds, or with the pending
    request when no message carries one.  Rounds of decoded views are not
    negative. *)
Theorem new_proposer_preprepare c cur vs rcs r cert :
  current c = Some cur ->
  valSet c = Some vs ->
  coreRoundChangeSet c = Some rcs ->
  0 <= sequence cur < 2 ^ 63 ->
  Number (LastProposal (backend c)).1 = sequence cur - 1 ->
  round cur < r ->
  getCertificate r (MinQuorumSize vs) rcs = inr cert ->
  (∀ m rho p, m ∈ RoundChangeMessages cert ->
              carriedCertificate m = Some (rho, p) -> 0 <= rho) ->
  IsProposer (CalcProposer vs (LastProposal (backend c)).2 (BigInt.Uint64 r))
             (BackendAddress (backend c)) = true ->
  (∃ m, m ∈ RoundChangeMessages cert ∧ is_Some (carriedCertificate m))
  ∨ is_Some (pendingRequest cur) ->
  ∃ c' req,
    startNewRound r c = Returned c'
    ∧ calls c' = calls c ++ [CallProcessPendingRequests; CallProcessBacklog;
                            CallSendPreprepare req cert;
                            CallLog LvlDebug "New round"]
    ∧ ((∃ m rho p, m ∈ RoundChangeMessages cert
          ∧ carriedCertificate m = Some (rho, p)
          ∧ req = mkRequest (Some p)
          ∧ ∀ m' rho' p', m' ∈ RoundChangeMessages cert ->
                          carriedCertificate m' = Some (rho', p') -> rho' <= rho)
       ∨ ((∀ m, m ∈ RoundChangeMessages cert -> carriedCertificate m = None)
          ∧ pendingRequest cur = Some req)).
Proof.
  intros Hcur Hvs Hrcs Hseq Hlp Hr Hcert Hnonneg Hprop Havail.
  rewrite (startNewRound_roundChange r c cur Hcur Hseq Hlp Hr).
  rewrite (getPreprepare_returns r c cur vs rcs cert Hcur Hvs Hrcs Hcert). cbn.
  destruct (pickRequest_fold (RoundChangeMessages cert) (-1) (pendingRequest cur))
    as [Hmax Hcase].
  cbn in Hmax, Hcase.
  set (res := fold_left pickRequest (RoundChangeMessages cert)
                        (-1, pendingRequest cur)) in *.
  assert (Hreq : ∃ req, res.2 = Some req
            ∧ ((∃ m rho p, m ∈ RoundChangeMessages cert
                  ∧ carriedCertificate m = Some (rho, p)
                  ∧ req = mkRequest (Some p)
                  ∧ ∀ m' rho' p', m' ∈ RoundChangeMessages cert ->
                       carriedCertificate m' = Some (rho', p') -> rho' <= rho)
               ∨ ((∀ m, m ∈ RoundChangeMessages cert -> carriedCertificate m = None)
                  ∧ pendingRequest cur = Some req))).
  { destruct Hcase as [[Heq Hall]|(m & p & Hin & Hc & Hres & Hlt)].
    - assert (Hnone : ∀ m, m ∈ RoundChangeMessages cert -> carriedCertificate m = None).
      { intros m Hin. destruct (carriedCertificate m) as [[rho p]|] eqn:Hc; [|done].
        specialize (Hnonneg m rho p Hin Hc). specialize (Hall m rho p Hin Hc). lia. }
      destruct Havail as [(m & Hin & Hsome)|[req Hpend]].
      + rewrite (Hnone m Hin) in Hsome. by destruct Hsome.
      + exists req. rewrite Heq. cbn. split; [exact Hpend|]. right. by split.
    - exists (mkRequest (Some p)). split; [exact Hres|]. left.
      exists m, (res.1), p. repeat split; try done. }
  destruct Hreq as (req & Hres & Hchar).
  destruct (enterRound_returns true (mkView (sequence cur) r) (res.2) cert
              (LastProposal (backend c)).2 c vs Hvs)
    as (c' & Hrun & _ & _ & _ & _ & _ & Hcalls).
  exists c', req. split; [exact Hrun|]. split; [|exact Hchar].
  rewrite Hcalls. cbn. rewrite Hprop, Hres. cbn. reflexivity.
Qed.

(** The branch of [startNewRound] taken when the chain head is at or beyond
    the current sequence. *)
Lemma startNewRound_advance r c cur :
  current c = Some cur ->
  sequence cur <= Number (LastProposal (backend c)).1 ->
  ∃ c0, current c0 = Some cur
    ∧ valSet c0 = Some (Validators (backend c) (LastProposal (backend c)).1)
    ∧ startNewRound r c =
      enterRound false (mkView (Number (LastProposal (backend c)).1 + 1) 0)
                 (pendingRequest cur) (mkRoundChangeCertificate [])
                 (LastProposal (backend c)).2 c0.
Proof.
  intros Hcur Hle. unfold startNewRound.
  destruct (LastProposal (backend c)) as [lp lper]. cbn in Hle. rewrite Hcur.
  destruct (decide (0 <= BigInt.Cmp (Number lp) (sequence cur))) as [_|Hn].
  2:{ exfalso. apply Hn. apply BigIntFacts.Cmp_ge. exact Hle. }
  eexists. split; [|split; [|reflexivity]].
  - cbn. destruct (consensusTimestamp c); exact Hcur.
  - cbn. destruct (consensusTimestamp c); reflexivity.
Qed.

(** The sequence advances: fresh round state for the block after the chain
    head, the backend's validator set, an empty round-change set. *)
Lemma startNewRound_advance_returns r c cur :
  current c = Some cur ->
  sequence cur <= Number (LastProposal (backend c)).1 ->
  ∃ c', startNewRound r c = Returned c'
    ∧ current c' =
        Some (newRoundState
                (mkView (Number (LastProposal (backend c)).1 + 1) 0)
                None None EmptyPreparedCertificate)
    ∧ valSet c' =
        Some (CalcProposer (Validators (backend c) (LastProposal (backend c)).1)
                           (LastProposal (backend c)).2 0)
    ∧ coreRoundChangeSet c' = Some newRoundChangeSet
    ∧ state c' = StateAcceptRequest.
Proof.
  intros Hcur Hle.
  destruct (startNewRound_advance r c cur Hcur Hle) as (c0 & Hcur0 & Hv0 & Hrun).
  destruct (enterRound_returns false
              (mkView (Number (LastProposal (backend c)).1 + 1) 0)
              (pendingRequest cur) (mkRoundChangeCertificate [])
              (LastProposal (backend c)).2 c0 _ Hv0)
    as (c' & Hrun' & Hst & Hc & Hv & Hrcs & _).
  exists c'. rewrite Hrun. split; [exact Hrun'|].
  rewrite Hc, updateRoundState_current, Hcur0.
  repeat split; assumption.
Qed.

(** The branches of [startNewRound] that log and return. *)
Lemma startNewRound_stale r c cur :
  current c = Some cur ->
  0 <= sequence cur < 2 ^ 63 ->
  Number (LastProposal (backend c)).1 < sequence cur - 1
  ∨ (Number (LastProposal (backend c)).1 = sequence cur - 1 ∧ r <= round cur) ->
  ∃ lvl text, startNewRound r c = Returned (logf lvl text c).
Proof.
  intros Hcur Hseq Hcase. unfold startNewRound.
  destruct (LastProposal (backend c)) as [lp lper]. cbn in Hcase. rewrite Hcur.
  destruct (decide (0 <= BigInt.Cmp (Number lp) (sequence cur))) as [Hge|_].
  { apply (proj1 (BigIntFacts.Cmp_ge _ _)) in Hge. lia. }
  rewrite BigIntFacts.Int64_small by exact Hseq.
  rewrite BigIntFacts.wrap_int64_small by lia.
  destruct (decide (BigInt.Cmp (Number lp) (sequence cur - 1) = 0)) as [Heq|_].
  - apply (proj1 (BigIntFacts.Cmp_eq _ _)) in Heq.
    destruct Hcase as [Hlt|[_ Hr]]; [lia|].
    destruct (decide (BigInt.Cmp r (round cur) = 0)) as [_|Hne]; [by do 2 eexists|].
    destruct (decide (BigInt.Cmp r (round cur) < 0)) as [_|Hnl]; [by do 2 eexists|].
    exfalso. assert (r ≠ round cur) by (intros ->; apply Hne; by apply BigIntFacts.Cmp_eq).
    apply Hnl. apply BigIntFacts.Cmp_lt. lia.
  - by do 2 eexists.
Qed.

(** C2, as the code has it.  [startNewRound(round)] on a core with a round
    state whose sequence fits an [int64].  When the chain head is at or
    beyond the current sequence, the sequence advances: the view is
    (lastProposal.number + 1, 0), the validator set is the backend's for
    that block (with the proposer computed for round 0), the round-change
    set is empty and the round state is fresh.  When the chain head is the
    block before the current sequence and [round] is above the current
    round, a round change takes place in the same sequence, carrying the
    pending request and the prepared certificate forward, provided the
    round-change set yields a certificate for the round; without one the
    call logs an error and returns the core as it was.  In every other case
    the call logs and returns the core as it was. *)
Theorem startNewRound_cases c cur r :
  current c = Some cur ->
  0 <= sequence cur < 2 ^ 63 ->
  (sequence cur <= Number (LastProposal (backend c)).1 ->
     ∃ c', startNewRound r c = Returned c'
       ∧ current c' =
           Some (newRoundState
                   (mkView (Number (LastProposal (backend c)).1 + 1) 0)
                   None None EmptyPreparedCertificate)
       ∧ valSet c' =
           Some (CalcProposer (Validators (backend c) (LastProposal (backend c)).1)
                              (LastProposal (backend c)).2 0)
       ∧ coreRoundChangeSet c' = Some newRoundChangeSet
       ∧ state c' = StateAcceptRequest)
  ∧ (Number (LastProposal (backend c)).1 = sequence cur - 1 ->
     round cur < r ->
     ∀ vs rcs,
       valSet c = Some vs ->
       coreRoundChangeSet c = Some rcs ->
       (∀ cert,
          getCertificate r (MinQuorumSize vs) rcs = inr cert ->
          ∃ c', startNewRound r c = Returned c'
            ∧ current c' =
                Some (newRoundState (mkView (sequence cur) r) None
                        (pendingRequest cur) (preparedCertificate cur))
            ∧ valSet c' =
                Some (CalcProposer vs (LastProposal (backend c)).2 (BigInt.Uint64 r))
            ∧ coreRoundChangeSet c' = Some newRoundChangeSet
            ∧ state c' = StateAcceptRequest)
       ∧ (∀ e,
            getCertificate r (MinQuorumSize vs) rcs = inl e ->
            startNewRound r c =
            Returned (logf LvlError "Unable to produce round change certificate" c)))
  ∧ (Number (LastProposal (backend c)).1 < sequence cur - 1
     ∨ (Number (LastProposal (backend c)).1 = sequence cur - 1 ∧ r <= round cur) ->
     ∃ lvl text, startNewRound r c = Returned (logf lvl text c)).
Proof.
  intros Hcur Hseq. split; [|split].
  - intros Hle. by apply (startNewRound_advance_returns r c cur).
  - intros Hlp Hr vs rcs Hvs Hrcs. split.
    + intros cert Hcert.
      rewrite (startNewRound_roundChange r c cur Hcur Hseq Hlp Hr).
      rewrite (getPreprepare_returns r c cur vs rcs cert Hcur Hvs Hrcs Hcert). cbn.
      destruct (enterRound_returns true (mkView (sequence cur) r)
                  (fold_left pickRequest (RoundChangeMessages cert)
                             (-1, pendingRequest cur)).2 cert
                  (LastProposal (backend c)).2 c vs Hvs)
        as (c' & Hrun' & Hst & Hc & Hv & Hrcs' & _).
      exists c'. split; [exact Hrun'|].
      rewrite Hc, updateRoundState_current, Hcur.
      repeat split; assumption.
    + intros e Hcert.
      rewrite (startNewRound_roundChange r c cur Hcur Hseq Hlp Hr).
      rewrite (getPreprepare_fails r c vs rcs e Hvs Hrcs Hcert). reflexivity.
  - apply startNewRound_stale; assumption.
Qed.

(** ** PREPARE *)

Variable CheckValidatorSignature : VS -> Message -> list byte -> Err + Address.
Variable SignCommittedSeal : list byte -> list byte.

#[local] Arguments PrepareCommittedSeal : simpl never.

Lemma View_Cmp_refl view : View_Cmp view view = 0.
Proof.
  unfold View_Cmp.
  assert (Hs : BigInt.Cmp (Sequence view) (Sequence view) = 0)
    by by apply BigIntFacts.Cmp_eq.
  assert (Hr : BigInt.Cmp (Round view) (Round view) = 0)
    by by apply BigIntFacts.Cmp_eq.
  rewrite Hs, Hr. by destruct (decide (0 ≠ 0)).
Qed.

(** C6.  A PREPARE whose subject is not the current one (the view of the
    round state with the hash of the accepted proposal), be it for its
    round, its sequence, a missing sequence or its digest, fails
    [verifyPrepare] with errInconsistentSubject; and [handlePrepare]
    answers a message carrying such a subject with an error and leaves the
    core, hence the PREPAREs counted, as they were. *)
Theorem verifyPrepare_inconsistent c cur prepare :
  current c = Some cur ->
  prepare ≠ Subject_ptr <$> roundState_Subject cur ->
  verifyPrepare prepare c = Returned (Some errInconsistentSubject)
  ∧ (∀ msg s,
       DecodeSubject msg = Some s ->
       prepare = Some (Subject_ptr s) ->
       ∃ e, handlePrepare SignCommittedSeal msg c = Returned (c, Some e)
            ∧ (SubjectView s = roundState_View cur -> e = errInconsistentSubject)).
Proof.
  intros Hcur Hne.
  assert (Hverify : verifyPrepare prepare c = Returned (Some errInconsistentSubject)).
  { unfold verifyPrepare. rewrite Hcur. cbn.
    destruct (decide (prepare = Subject_ptr <$> roundState_Subject cur)); done. }
  split; [exact Hverify|].
  intros msg s Hdec ->. unfold handlePrepare. rewrite Hdec.
  unfold checkMessage. rewrite Hcur. cbn.
  destruct (decide (View_Cmp (SubjectView s) (roundState_View cur) < 0)) as [Hlt|Hge].
  { cbn. eexists. split; [reflexivity|]. intros Hv. rewrite Hv, View_Cmp_refl in Hlt. lia. }
  destruct (decide (0 < View_Cmp (SubjectView s) (roundState_View cur))) as [Hgt|Hle].
  { cbn. eexists. split; [reflexivity|]. intros Hv. rewrite Hv, View_Cmp_refl in Hgt. lia. }
  cbn. rewrite Hverify. cbn. eexists. split; reflexivity.
Qed.




(** ** Prepared certificates *)


Lemma certificateMessageError_None vs seq cert seen m :
  certificateMessageError CheckValidatorSignature vs seq (CertProposal cert)
      (PreparedCertificate_View cert) seen m
    = None
  ↔ messageAcceptable CheckValidatorSignature vs seq cert m ∧ MsgAddress m ∉ seen.
Proof.
  unfold certificateMessageError, messageAcceptable.
  destruct (CheckValidatorSignature vs (PayloadNoSig m) (Signature m)) as [e|signer].
  { split; [discriminate|]. intros [(Hc & _) _]. discriminate. }
  destruct (decide (signer ≠ MsgAddress m)) as [Hne|Heq].
  { split; [discriminate|]. intros [(Hc & _) _]. congruence. }
  assert (signer = MsgAddress m) as -> by (destruct (decide (signer = MsgAddress m)); tauto).
  destruct (decide (MsgAddress m ∈ seen)) as [Hin|Hnin].
  { split; [discriminate|]. intros [_ Hn]. contradiction. }
  destruct (decide (Code m ≠ MsgPrepare ∧ Code m ≠ MsgCommit)) as [[Hp Hc]|Hcode].
  { split; [discriminate|]. intros [(_ & [?|?] & _) _]; contradiction. }
  assert (Hcode' : Code m = MsgPrepare ∨ Code m = MsgCommit).
  { destruct (decide (Code m = MsgPrepare)); [by left|].
    destruct (decide (Code m = MsgCommit)); [by right|]. exfalso. by apply Hcode. }
  destruct (DecodeSubject m) as [s|].
  2:{ split; [discriminate|]. intros [(_ & _ & s & Hs & _) _]. discriminate. }
  destruct (decide (seq < Sequence (SubjectView s))) as [Hfut|Hseq].
  { split; [discriminate|]. intros [(_ & _ & s' & Hs & Hle & _) _].
    injection Hs as <-. lia. }
  destruct (decide (PreparedCertificate_View cert ≠ Some (SubjectView s))) as [Hv|Hv].
  { split; [discriminate|]. intros [(_ & _ & s' & Hs & _ & Hv' & _) _].
    injection Hs as <-. contradiction. }
  assert (Hview : PreparedCertificate_View cert = Some (SubjectView s)).
  { destruct (decide (PreparedCertificate_View cert = Some (SubjectView s))); tauto. }
  destruct (decide (Digest s ≠ ProposalHash (CertProposal cert))) as [Hd|Hd].
  { split; [discriminate|]. intros [(_ & _ & s' & Hs & _ & _ & Hd') _].
    injection Hs as <-. contradiction. }
  assert (Hdig : Digest s = ProposalHash (CertProposal cert)).
  { destruct (decide (Digest s = ProposalHash (CertProposal cert))); tauto. }
  split; [|done]. intros _. repeat split; try done.
  exists s. repeat split; try done. lia.
Qed.

Lemma certificateMessagesError_None vs seq cert msgs : ∀ seen,
  certificateMessagesError CheckValidatorSignature vs seq (CertProposal cert)
      (PreparedCertificate_View cert)
    seen msgs = None
  ↔ (∀ m, m ∈ msgs -> messageAcceptable CheckValidatorSignature vs seq cert m)
    ∧ NoDup (MsgAddress <$> msgs)
    ∧ (∀ m, m ∈ msgs -> MsgAddress m ∉ seen).
Proof.
  induction msgs as [|m msgs IH]; intros seen; cbn.
  - split; [|done]. intros _.
    split; [|split]; [|constructor|]; intros m Hin; inversion Hin.
  - destruct (certificateMessageError CheckValidatorSignature vs seq (CertProposal cert)
                (PreparedCertificate_View cert) seen m) as [e|] eqn:Hm.
    + split; [discriminate|]. intros (Hall & _ & Hseen).
      assert (Hnone : certificateMessageError CheckValidatorSignature vs seq (CertProposal cert)
                        (PreparedCertificate_View cert) seen m = None).
      { apply certificateMessageError_None. split; [apply Hall|apply Hseen];
          apply elem_of_cons; by left. }
      congruence.
    + apply certificateMessageError_None in Hm as [Hok Hnin].
      rewrite IH. split.
      * intros (Hall & Hnd & Hseen). split; [|split].
        -- intros m' Hin. apply elem_of_cons in Hin as [->|Hin]; [done|by apply Hall].
        -- constructor; [|done]. intros Hin.
           apply list_elem_of_fmap in Hin as (m' & Heq & Hin').
           specialize (Hseen m' Hin'). apply Hseen. rewrite <- Heq.
           apply elem_of_cons. by left.
        -- intros m' Hin. apply elem_of_cons in Hin as [->|Hin]; [done|].
           intros Hs. apply (Hseen m' Hin). apply elem_of_cons. by right.
      * intros (Hall & Hnd & Hseen). apply NoDup_cons in Hnd as [Hnin' Hnd].
        split; [|split]; [|done|].
        -- intros m' Hin. apply Hall. apply elem_of_cons. by right.
        -- intros m' Hin Hs. apply elem_of_cons in Hs as [Heq|Hs].
           ++ apply Hnin'. rewrite <- Heq. apply list_elem_of_fmap. by exists m'.
           ++ apply (Hseen m'); [|done]. apply elem_of_cons. by right.
Qed.

(** The messages after a clean prefix are judged with the senders of the
    prefix seen. *)
Lemma certificateMessagesError_app vs seq p (cview : option View) pre : ∀ seen rest,
  certificateMessagesError CheckValidatorSignature vs seq p cview seen pre = None ->
  certificateMessagesError CheckValidatorSignature vs seq p cview seen (pre ++ rest) =
  certificateMessagesError CheckValidatorSignature vs seq p cview (reverse (MsgAddress
      <$> pre) ++ seen) rest.
Proof.
  induction pre as [|m pre IH]; intros seen rest Hpre; [reflexivity|].
  rewrite fmap_cons, reverse_cons, <- app_assoc.
  change ([MsgAddress m] ++ seen) with (MsgAddress m :: seen).
  rewrite <- (IH (MsgAddress m :: seen) rest).
  - simpl in Hpre |- *.
    by destruct (certificateMessageError CheckValidatorSignature vs seq p cview seen m).
  - simpl in Hpre.
    by destruct (certificateMessageError CheckValidatorSignature vs seq p cview seen m).
Qed.

Lemma verifyPreparedCertificate_unfold c cur vs cert :
  current c = Some cur ->
  valSet c = Some vs ->
  verifyPreparedCertificate CheckValidatorSignature cert c =
  Returned
    (if decide (Z.of_nat (length (PrepareOrCommitMessages cert)) ≠ MinQuorumSize vs)
     then Some errInvalidPreparedCertificateNumMsgs
     else certificateMessagesError CheckValidatorSignature vs (sequence cur) (CertProposal cert)
            (PreparedCertificate_View cert) [] (PrepareOrCommitMessages cert)).
Proof.
  intros Hcur Hvs. unfold verifyPreparedCertificate.
  rewrite Hcur, Hvs. cbn. by destruct (decide _).
Qed.

Lemma messagesOK_valid vs seq cert :
  (∀ m, m ∈ PrepareOrCommitMessages cert -> messageAcceptable CheckValidatorSignature
      vs seq cert m)
  ↔ (∃ v,
       Sequence v <= seq
       ∧ ∀ m, m ∈ PrepareOrCommitMessages cert ->
              DecodeSubject m = Some (mkSubject v (ProposalHash (CertProposal cert)))
              ∧ (Code m = MsgPrepare ∨ Code m = MsgCommit)
              ∧ CheckValidatorSignature vs (PayloadNoSig m) (Signature m)
                = inr (MsgAddress m)).
Proof.
  unfold messageAcceptable, PreparedCertificate_View.
  destruct (PrepareOrCommitMessages cert) as [|m0 msgs] eqn:Hmsgs.
  - split.
    + intros _. exists (mkView seq 0). split; [cbn; lia|]. intros m Hin. inversion Hin.
    + intros _ m Hin. inversion Hin.
  - split.
    + intros Hall.
      destruct (Hall m0) as (_ & _ & s0 & Hs0 & Hle0 & _ & _); [apply elem_of_cons; by left|].
      exists (SubjectView s0). split; [exact Hle0|].
      intros m Hin. destruct (Hall m Hin) as (Hsig & Hcode & s & Hs & _ & Hv & Hd).
      rewrite Hs0 in Hv. cbn in Hv. injection Hv as Hv.
      repeat split; try done. rewrite Hs. f_equal.
      destruct s as [sv sd]. cbn in *. by subst.
    + intros (v & Hle & Hall) m Hin.
      destruct (Hall m Hin) as (Hs & Hcode & Hsig).
      destruct (Hall m0) as (Hs0 & _ & _); [apply elem_of_cons; by left|].
      repeat split; try done.
      eexists. split; [exact Hs|]. rewrite Hs0. cbn. repeat split; done.
Qed.

(** C4.  [verifyPreparedCertificate] on a core with a round state and a
    validator set accepts a certificate exactly when the validity
    conditions of the specification hold, and otherwise returns the error
    of the first condition violated: errInvalidPreparedCertificateNumMsgs
    when the certificate does not hold minQuorumSize messages, the empty
    certificate among them; and, for the first message that is not
    acceptable after the others (its signature being its sender's),
    errInvalidPreparedCertificateDuplicate when its sender sent an earlier
    message, else errInvalidPreparedCertificateMsgCode when it is neither a
    PREPARE nor a COMMIT, else errInvalidPreparedCertificateMsgView when
    its sequence is beyond the current one, else
    errInvalidPreparedCertificateDigestMismatch when, its view being the
    certificate's, its digest is not the hash of the certificate's
    proposal. *)
Theorem verifyPreparedCertificate_first_violation c cur vs cert :
  current c = Some cur ->
  valSet c = Some vs ->
  (verifyPreparedCertificate CheckValidatorSignature cert c = Returned None
   ↔ ValidPreparedCertificate CheckValidatorSignature vs (sequence cur) cert)
  ∧ (Z.of_nat (length (PrepareOrCommitMessages cert)) ≠ MinQuorumSize vs ->
     verifyPreparedCertificate CheckValidatorSignature cert c
     = Returned (Some errInvalidPreparedCertificateNumMsgs))
  ∧ (0 < MinQuorumSize vs ->
     verifyPreparedCertificate CheckValidatorSignature EmptyPreparedCertificate c
     = Returned (Some errInvalidPreparedCertificateNumMsgs))
  ∧ (∀ pre m post,
       PrepareOrCommitMessages cert = pre ++ m :: post ->
       Z.of_nat (length (PrepareOrCommitMessages cert)) = MinQuorumSize vs ->
       (∀ m', m' ∈ pre -> messageAcceptable CheckValidatorSignature vs (sequence cur)
           cert m') ->
       NoDup (MsgAddress <$> pre) ->
       CheckValidatorSignature vs (PayloadNoSig m) (Signature m) = inr (MsgAddress m) ->
       (MsgAddress m ∈ MsgAddress <$> pre ->
        verifyPreparedCertificate CheckValidatorSignature cert c
        = Returned (Some errInvalidPreparedCertificateDuplicate))
       ∧ (MsgAddress m ∉ MsgAddress <$> pre ->
          (Code m ≠ MsgPrepare ∧ Code m ≠ MsgCommit ->
           verifyPreparedCertificate CheckValidatorSignature cert c
           = Returned (Some errInvalidPreparedCertificateMsgCode))
          ∧ (Code m = MsgPrepare ∨ Code m = MsgCommit ->
             ∀ s, DecodeSubject m = Some s ->
               (sequence cur < Sequence (SubjectView s) ->
                verifyPreparedCertificate CheckValidatorSignature cert c
                = Returned (Some errInvalidPreparedCertificateMsgView))
               ∧ (Sequence (SubjectView s) <= sequence cur ->
                  PreparedCertificate_View cert = Some (SubjectView s) ->
                  Digest s ≠ ProposalHash (CertProposal cert) ->
                  verifyPreparedCertificate CheckValidatorSignature cert c
                  = Returned (Some errInvalidPreparedCertificateDigestMismatch))))).
Proof.
  intros Hcur Hvs.
  pose proof (verifyPreparedCertificate_unfold c cur vs cert Hcur Hvs) as Hrun.
  split; [|split; [|split]].
  - rewrite Hrun. unfold ValidPreparedCertificate.
    destruct (decide _) as [Hlen|Hlen].
    { split; [discriminate|]. intros (Hl & _). contradiction. }
    assert (Hl : Z.of_nat (length (PrepareOrCommitMessages cert)) = MinQuorumSize vs).
    { destruct (decide (Z.of_nat (length (PrepareOrCommitMessages cert))
                        = MinQuorumSize vs)); tauto. }
    split.
    + intros Hnone. assert (Hn : certificateMessagesError CheckValidatorSignature vs
        (sequence cur)
                                   (CertProposal cert) (PreparedCertificate_View cert) []
                                   (PrepareOrCommitMessages cert) = None) by congruence.
      apply certificateMessagesError_None in Hn as (Hall & Hnd & _).
      split; [exact Hl|]. split; [|exact Hnd]. by apply messagesOK_valid.
    + intros (_ & Hvalid & Hnd). f_equal.
      apply certificateMessagesError_None. split; [by apply messagesOK_valid|].
      split; [exact Hnd|]. intros m _ Hin. inversion Hin.
  - intros Hlen. rewrite Hrun. by destruct (decide _).
  - intros Hq.
    rewrite (verifyPreparedCertificate_unfold c cur vs EmptyPreparedCertificate Hcur Hvs).
    cbn. rewrite decide_True by lia. reflexivity.
  - intros pre m post Hmsgs Hlen Hpre Hnd Hsig.
    assert (Hclean : certificateMessagesError CheckValidatorSignature vs (sequence cur)
        (CertProposal cert)
                       (PreparedCertificate_View cert) [] pre = None).
    { apply certificateMessagesError_None. split; [exact Hpre|]. split; [exact Hnd|].
      intros m' _ Hin. inversion Hin. }
    assert (Hat : verifyPreparedCertificate CheckValidatorSignature cert c =
                  Returned
                    (match certificateMessageError CheckValidatorSignature vs (sequence
                        cur) (CertProposal cert)
                             (PreparedCertificate_View cert)
                             (reverse (MsgAddress <$> pre) ++ []) m with
                     | Some e => Some e
                     | None =>
                         certificateMessagesError CheckValidatorSignature vs (sequence
                             cur) (CertProposal cert)
                           (PreparedCertificate_View cert)
                           (MsgAddress m :: reverse (MsgAddress <$> pre) ++ []) post
                     end)).
    { rewrite Hrun. destruct (decide _) as [Hn|_]; [contradiction|].
      rewrite Hmsgs, (certificateMessagesError_app _ _ _ _ _ _ _ Hclean). reflexivity. }
    rewrite app_nil_r in Hat. rewrite Hat.
    unfold certificateMessageError. rewrite Hsig.
    destruct (decide (MsgAddress m ≠ MsgAddress m)) as [Hne|_]; [done|].
    split.
    + intros Hin. rewrite decide_True; [reflexivity|]. by apply elem_of_reverse.
    + intros Hnin. rewrite decide_False by (by rewrite elem_of_reverse). split.
      * intros Hcode. by rewrite decide_True.
      * intros Hcode s Hs. rewrite decide_False by (intros [? ?]; destruct Hcode; done).
        rewrite Hs. split.
        -- intros Hfut. by rewrite decide_True.
        -- intros Hle Hview Hd. rewrite decide_False by lia.
           rewrite decide_False by (intros Hv; by apply Hv).
           by rewrite decide_True.
Qed.
End CoreProperties.

(** ** The round-change set *)

Section RoundChangeSetProperties.
Implicit Types (rcs : roundChangeSet) (msg : Message) (src : Validator).

Lemma msgsAt_store rcs r msg a k :
  msgsAt (rcs_store r msg a rcs) k =
  if decide (r = k) then messageSet_Add msg (msgsAt rcs r) else msgsAt rcs k.
Proof.
  unfold msgsAt at 1, rcs_store. cbn. destruct (decide (r = k)) as [->|Hne].
  - by rewrite lookup_insert_eq.
  - by rewrite lookup_insert_ne.
Qed.

Lemma msgsAt_forget rcs prev a k :
  msgsAt (rcs_forget prev a rcs) k =
  if decide (prev = k) then messageSet_Remove a (msgsAt rcs prev) else msgsAt rcs k.
Proof.
  unfold rcs_forget, msgsAt, messageSet_Remove.
  destruct (msgsForRound rcs !! prev) as [ms|] eqn:Hprev; cbn.
  - destruct (decide (prev = k)) as [->|Hne].
    + by rewrite lookup_insert_eq.
    + by rewrite lookup_insert_ne.
  - destruct (decide (prev = k)) as [->|Hne]; [|done].
    rewrite Hprev. cbn. by rewrite delete_empty.
Qed.

Lemma latest_store rcs r msg a b :
  latestRoundForVal (rcs_store r msg a rcs) !! b =
  if decide (a = b) then Some r else latestRoundForVal rcs !! b.
Proof.
  unfold rcs_store. cbn. destruct (decide (a = b)) as [->|Hne].
  - by rewrite lookup_insert_eq.
  - by rewrite lookup_insert_ne.
Qed.

Lemma latest_forget rcs prev a :
  latestRoundForVal (rcs_forget prev a rcs) = latestRoundForVal rcs.
Proof. unfold rcs_forget. by destruct (msgsForRound rcs !! prev). Qed.

(** Storing the same message for the same round again changes nothing. *)
Lemma rcs_store_twice rcs r msg a :
  rcs_store r msg a (rcs_store r msg a rcs) = rcs_store r msg a rcs.
Proof.
  unfold rcs_store at 1.
  rewrite msgsAt_store, decide_True by done.
  unfold rcs_store at 2 3. cbn. unfold messageSet_Add.
  by rewrite !insert_insert_eq.
Qed.

(** What [Add] does, by the latest round of the sender. *)
Lemma rcs_Add_accepted rcs r msg src :
  (∀ prev, latestRoundForVal rcs !! ValAddress src = Some prev ->
           prev <= BigInt.Uint64 r) ->
  ∃ rcs0,
    rcs_Add r msg src rcs = (rcs_store (BigInt.Uint64 r) msg (ValAddress src) rcs0, None)
    ∧ latestRoundForVal rcs0 = latestRoundForVal rcs
    ∧ (∀ k, msgsAt rcs0 k =
            match latestRoundForVal rcs !! ValAddress src with
            | Some prev =>
                if decide (prev < BigInt.Uint64 r ∧ prev = k)
                then messageSet_Remove (ValAddress src) (msgsAt rcs prev)
                else msgsAt rcs k
            | None => msgsAt rcs k
            end).
Proof.
  intros Hle. unfold rcs_Add.
  destruct (latestRoundForVal rcs !! ValAddress src) as [prev|] eqn:Hprev.
  - specialize (Hle prev eq_refl).
    destruct (decide (BigInt.Uint64 r < prev)) as [Hlt|_]; [lia|].
    destruct (decide (prev < BigInt.Uint64 r)) as [Hlt|Hge].
    + eexists. split; [reflexivity|]. split; [apply latest_forget|].
      intros k. rewrite msgsAt_forget.
      destruct (decide (prev = k)) as [->|Hne].
      * by rewrite decide_True.
      * by rewrite decide_False by (intros [_ ?]; done).
    + exists rcs. split; [reflexivity|]. split; [reflexivity|].
      intros k. by rewrite decide_False by (intros [? _]; done).
  - exists rcs. by repeat split.
Qed.

Lemma rcs_Add_rejected rcs r msg src prev :
  latestRoundForVal rcs !! ValAddress src = Some prev ->
  BigInt.Uint64 r < prev ->
  rcs_Add r msg src rcs = (rcs, Some errOldMessage).
Proof.
  intros Hprev Hlt. unfold rcs_Add. rewrite Hprev. by rewrite decide_True.
Qed.

(** C8.  [Add] for a message of the validator it is added for.  Adding the
    same message again changes neither the set nor the answer, and adding
    any message of the same sender for the same round again leaves the
    size of that round's messages as it was.  Adding for a round above the
    sender's latest is accepted, removes the sender's entry of the lower
    round, records the message under the new round and makes it the
    sender's latest; adding for a round below the latest is refused and
    changes nothing.  Hence a set in which every sender has messages in
    its latest round only stays so. *)
Theorem roundChangeSet_Add_highest_round rcs r msg src :
  MsgAddress msg = ValAddress src ->
  rcs_Add r msg src (rcs_Add r msg src rcs).1
    = ((rcs_Add r msg src rcs).1, (rcs_Add r msg src rcs).2)
  ∧ (∀ msg', MsgAddress msg' = ValAddress src ->
       size (msgsAt (rcs_Add r msg' src (rcs_Add r msg src rcs).1).1 (BigInt.Uint64 r))
       = size (msgsAt (rcs_Add r msg src rcs).1 (BigInt.Uint64 r)))
  ∧ (∀ prev, latestRoundForVal rcs !! ValAddress src = Some prev ->
       prev < BigInt.Uint64 r ->
       (rcs_Add r msg src rcs).2 = None
       ∧ latestRoundForVal (rcs_Add r msg src rcs).1 !! ValAddress src
         = Some (BigInt.Uint64 r)
       ∧ msgsAt (rcs_Add r msg src rcs).1 prev !! ValAddress src = None
       ∧ msgsAt (rcs_Add r msg src rcs).1 (BigInt.Uint64 r) !! ValAddress src
         = Some msg)
  ∧ (∀ prev, latestRoundForVal rcs !! ValAddress src = Some prev ->
       BigInt.Uint64 r < prev ->
       rcs_Add r msg src rcs = (rcs, Some errOldMessage))
  ∧ (latestOnly rcs -> latestOnly (rcs_Add r msg src rcs).1).
Proof.
  intros Haddr.
  set (a := ValAddress src) in *. set (round := BigInt.Uint64 r) in *.
  assert (Hcases : (∃ prev, latestRoundForVal rcs !! a = Some prev ∧ round < prev)
                   ∨ ¬ (∃ prev, latestRoundForVal rcs !! a = Some prev ∧ round < prev)).
  { destruct (latestRoundForVal rcs !! a) as [prev|].
    - destruct (decide (round < prev)); [left; by exists prev|].
      right. intros (prev' & Hp & Hlt). injection Hp as <-. done.
    - right. intros (prev' & Hp & _). discriminate. }
  destruct Hcases as [(prev & Hprev & Hlt)|Hacc].
  - (* refused *)
    rewrite (rcs_Add_rejected rcs r msg src prev Hprev Hlt). cbn.
    split; [exact (rcs_Add_rejected rcs r msg src prev Hprev Hlt)|].
    split; [intros msg' _; by rewrite (rcs_Add_rejected rcs r msg' src prev Hprev Hlt)|].
    split; [intros prev' Hp Hlt'; fold a in Hp; rewrite Hprev in Hp;
            injection Hp as <-; fold round in Hlt'; lia|].
    split; [done|done].
  - (* accepted *)
    assert (Hle : ∀ prev, latestRoundForVal rcs !! a = Some prev -> prev <= round).
    { intros prev Hprev. destruct (decide (prev <= round)); [done|].
      exfalso. apply Hacc. exists prev. split; [done|lia]. }
    destruct (rcs_Add_accepted rcs r msg src Hle) as (rcs0 & Hadd & Hlatest0 & Hmsgs0).
    fold a round in Hadd, Hmsgs0. rewrite Hadd. cbn.
    set (rcs1 := rcs_store round msg a rcs0).
    assert (Hlatest1 : latestRoundForVal rcs1 !! a = Some round).
    { subst rcs1. rewrite latest_store. by rewrite decide_True. }
    assert (Hle1 : ∀ prev, latestRoundForVal rcs1 !! a = Some prev -> prev <= round).
    { intros prev Hprev. rewrite Hlatest1 in Hprev. injection Hprev as <-. lia. }
    assert (Hagain : ∀ msg', rcs_Add r msg' src rcs1 = (rcs_store round msg' a rcs1, None)).
    { intros msg'. unfold rcs_Add. fold a round. rewrite Hlatest1.
      rewrite decide_False by lia. by rewrite decide_False by lia. }
    assert (Hmine : msgsAt rcs1 round !! a = Some msg).
    { subst rcs1. rewrite msgsAt_store, decide_True by done.
      unfold messageSet_Add. rewrite Haddr. apply lookup_insert_eq. }
    split; [|split; [|split; [|split]]].
    + rewrite Hagain. subst rcs1. by rewrite rcs_store_twice.
    + intros msg' Haddr'. rewrite Hagain. cbn.
      rewrite msgsAt_store, decide_True by done. unfold messageSet_Add.
      rewrite Haddr'. apply map_size_insert_Some. by eexists.
    + intros prev Hprev Hlt. split; [done|]. split; [done|]. split; [|done].
      subst rcs1. rewrite msgsAt_store, decide_False by lia.
      rewrite Hmsgs0, Hprev, decide_True by done.
      apply lookup_delete_eq.
    + intros prev Hprev Hlt. exfalso. apply Hacc. by exists prev.
    + intros Hinv k b Hsome.
      subst rcs1. rewrite latest_store, Hlatest0.
      rewrite msgsAt_store in Hsome.
      assert (Hold : ∀ k', is_Some (msgsAt rcs0 k' !! b) ->
                is_Some (msgsAt rcs k' !! b)
                ∧ (b = a -> ∀ prev, latestRoundForVal rcs !! a = Some prev ->
                            ¬ (prev < round ∧ prev = k'))).
      { intros k' Hk'. rewrite Hmsgs0 in Hk'.
        destruct (latestRoundForVal rcs !! a) as [prev|] eqn:Hprev.
        - destruct (decide (prev < round ∧ prev = k')) as [[Hlt ->]|Hn].
          + unfold messageSet_Remove in Hk'.
            destruct (decide (a = b)) as [->|Hne].
            * rewrite lookup_delete_eq in Hk'. by destruct Hk'.
            * rewrite lookup_delete_ne in Hk' by done. split; [done|]. by intros ->.
          + split; [done|]. intros _ prev' Hp. injection Hp as <-. exact Hn.
        - split; [done|]. intros _ prev' Hp. discriminate. }
      destruct (decide (a = b)) as [<-|Hne].
      * f_equal. destruct (decide (round = k)) as [->|Hnk]; [done|].
        destruct (Hold k Hsome) as [Hk Hnot].
        specialize (Hinv k a Hk). specialize (Hle k Hinv).
        exfalso. apply (Hnot eq_refl k Hinv). split; [lia|done].
      * apply Hinv. destruct (decide (round = k)) as [->|Hnk].
        -- unfold messageSet_Add in Hsome. rewrite Haddr in Hsome.
           rewrite lookup_insert_ne in Hsome by done. by apply Hold.
        -- by apply Hold.
Qed.

(** *** MaxRound *)

Lemma max_round_cons x l :
  max_round (x :: l) = Some (match max_round l with Some m => Z.max x m | None => x end).
Proof. reflexivity. Qed.

Lemma max_round_None l : max_round l = None ↔ l = [].
Proof. destruct l; [done|]. rewrite max_round_cons. split; discriminate. Qed.

Lemma max_round_Some l : ∀ m,
  max_round l = Some m ↔ m ∈ l ∧ ∀ x, x ∈ l -> x <= m.
Proof.
  induction l as [|y l IH]; intros m.
  - cbn. split; [discriminate|]. intros [Hin _]. inversion Hin.
  - rewrite max_round_cons. destruct (max_round l) as [m'|] eqn:Hl.
    + destruct (IH m') as [Hm' _]. destruct (Hm' eq_refl) as [Hin Hmax].
      split.
      * intros Heq. injection Heq as <-. split.
        -- destruct (Z.max_spec y m') as [[_ ->]|[_ ->]];
             apply elem_of_cons; [by right|by left].
        -- intros x Hx. apply elem_of_cons in Hx as [->|Hx]; [lia|].
           specialize (Hmax x Hx). lia.
      * intros [Hin' Hmax']. f_equal.
        assert (y <= m) by (apply Hmax'; apply elem_of_cons; by left).
        assert (m' <= m) by (apply Hmax'; apply elem_of_cons; by right).
        apply elem_of_cons in Hin' as [->|Hin']; [lia|].
        specialize (Hmax m Hin'). lia.
    + apply max_round_None in Hl as ->. split.
      * intros Heq. injection Heq as <-. split; [apply elem_of_cons; by left|].
        intros x Hx. apply elem_of_cons in Hx as [->|Hx]; [lia|inversion Hx].
      * intros [Hin _]. apply elem_of_cons in Hin as [->|Hin]; [done|inversion Hin].
Qed.

Lemma filter_length_mono (P Q : Z -> Prop)
    `{∀ x, Decision (P x)} `{∀ x, Decision (Q x)} (l : list Z) :
  (∀ x, x ∈ l -> P x -> Q x) ->
  (length (filter P l) <= length (filter Q l))%nat.
Proof.
  induction l as [|y l IH]; intros Himp; [done|].
  assert (IH' : (length (filter P l) <= length (filter Q l))%nat).
  { apply IH. intros x Hx. apply Himp. apply elem_of_cons. by right. }
  rewrite !filter_cons.
  destruct (decide (P y)) as [Hp|Hp].
  - rewrite decide_True by (apply Himp; [apply elem_of_cons; by left|done]).
    cbn. lia.
  - destruct (decide (Q y)); cbn; lia.
Qed.

Lemma list_min_exists (l : list Z) :
  l ≠ [] -> ∃ m, m ∈ l ∧ ∀ x, x ∈ l -> m <= x.
Proof.
  induction l as [|y l IH]; [done|]. intros _.
  destruct l as [|z l].
  - exists y. split; [apply elem_of_cons; by left|].
    intros x Hx. apply elem_of_cons in Hx as [->|Hx]; [lia|inversion Hx].
  - destruct IH as (m & Hin & Hmin); [done|].
    destruct (decide (y <= m)) as [Hle|Hgt].
    + exists y. split; [apply elem_of_cons; by left|].
      intros x Hx. apply elem_of_cons in Hx as [->|Hx]; [lia|].
      specialize (Hmin x Hx). lia.
    + exists m. split; [apply elem_of_cons; by right|].
      intros x Hx. apply elem_of_cons in Hx as [->|Hx]; [lia|by apply Hmin].
Qed.

Lemma sendersAtOrAbove_bound rcs R :
  sendersAtOrAbove rcs R <= Z.of_nat (size (latestRoundForVal rcs)).
Proof.
  unfold sendersAtOrAbove, latestRounds. apply inj_le.
  etrans; [apply length_filter|].
  by rewrite length_fmap, length_map_to_list.
Qed.

(** A round enough senders have reached lies at or below the latest round
    of one of them, which enough senders have reached too. *)
Lemma sendersAtOrAbove_witness rcs t R' :
  1 <= t ->
  t <= sendersAtOrAbove rcs R' ->
  ∃ R'', R'' ∈ latestRounds rcs ∧ R' <= R'' ∧ t <= sendersAtOrAbove rcs R''.
Proof.
  intros Ht Hcnt. unfold sendersAtOrAbove in *.
  destruct (list_min_exists (filter (fun r => R' <= r) (latestRounds rcs)))
    as (m & Hin & Hmin).
  { intros Hnil. rewrite Hnil in Hcnt. cbn in Hcnt. lia. }
  apply list_elem_of_filter in Hin as [Hle Hin].
  exists m. split; [done|]. split; [done|].
  etrans; [exact Hcnt|]. apply inj_le.
  apply filter_length_mono. intros x Hx Hx'.
  apply Hmin. apply list_elem_of_filter. by split.
Qed.

(** C9.  [MaxRound]: raising the threshold never raises the answer; an
    answer R is the latest round of a sender, at least [threshold] senders
    have their latest round at or above R, and no round that many senders
    have reached is above R (for a threshold of zero, no such round among
    the latest rounds of the senders); the answer is nil only when no round
    is reached by that many senders, and it is nil for every threshold
    above the number of senders seen. *)
Theorem MaxRound_threshold rcs :
  (∀ t1 t2, t1 <= t2 -> maxRound_le (MaxRound t2 rcs) (MaxRound t1 rcs))
  ∧ (∀ t R, MaxRound t rcs = Some R ->
       t <= sendersAtOrAbove rcs R
       ∧ R ∈ latestRounds rcs
       ∧ (∀ R', R' ∈ latestRounds rcs -> t <= sendersAtOrAbove rcs R' -> R' <= R)
       ∧ (1 <= t -> ∀ R', t <= sendersAtOrAbove rcs R' -> R' <= R))
  ∧ (∀ t, MaxRound t rcs = None -> 1 <= t -> ∀ R', sendersAtOrAbove rcs R' < t)
  ∧ (∀ t, Z.of_nat (size (latestRoundForVal rcs)) < t -> MaxRound t rcs = None).
Proof.
  assert (Hsome : ∀ t R, MaxRound t rcs = Some R ->
            t <= sendersAtOrAbove rcs R
            ∧ R ∈ latestRounds rcs
            ∧ (∀ R', R' ∈ latestRounds rcs -> t <= sendersAtOrAbove rcs R' -> R' <= R)).
  { intros t R HR. unfold MaxRound in HR. apply max_round_Some in HR as [Hin Hmax].
    apply list_elem_of_filter in Hin as [Hcnt Hin].
    split; [done|]. split; [done|].
    intros R' Hin' Hcnt'. apply Hmax. apply list_elem_of_filter. by split. }
  assert (Hnone : ∀ t, MaxRound t rcs = None ->
            ∀ R', R' ∈ latestRounds rcs -> sendersAtOrAbove rcs R' < t).
  { intros t HN R' Hin. unfold MaxRound in HN. apply max_round_None in HN.
    destruct (decide (t <= sendersAtOrAbove rcs R')) as [Hle|]; [|lia].
    exfalso. exact (filter_nil_not_elem_of _ _ R' HN Hle Hin). }
  split; [|split; [|split]].
  - intros t1 t2 Ht. unfold maxRound_le.
    destruct (MaxRound t2 rcs) as [R2|] eqn:H2; [|done].
    destruct (Hsome t2 R2 H2) as (Hcnt2 & Hin2 & _).
    destruct (MaxRound t1 rcs) as [R1|] eqn:H1.
    + destruct (Hsome t1 R1 H1) as (_ & _ & Hmax1). apply Hmax1; [done|lia].
    + specialize (Hnone t1 H1 R2 Hin2). lia.
  - intros t R HR. destruct (Hsome t R HR) as (Hcnt & Hin & Hmax).
    split; [done|]. split; [done|]. split; [done|].
    intros Ht R' Hcnt'.
    destruct (sendersAtOrAbove_witness rcs t R' Ht Hcnt') as (R'' & Hin'' & Hle & Hcnt'').
    specialize (Hmax R'' Hin'' Hcnt''). lia.
  - intros t HN Ht R'.
    destruct (decide (t <= sendersAtOrAbove rcs R')) as [Hle|]; [|lia].
    destruct (sendersAtOrAbove_witness rcs t R' Ht Hle) as (R'' & Hin'' & _ & Hcnt'').
    specialize (Hnone t HN R'' Hin''). lia.
  - intros t Ht. destruct (MaxRound t rcs) as [R|] eqn:HR; [|done].
    destruct (Hsome t R HR) as (Hcnt & _).
    pose proof (sendersAtOrAbove_bound rcs R). lia.
Qed.
End RoundChangeSetProperties.

(** * The properties at work

    Each property applied to one of the scenarios above. *)

Lemma round_change_timer_duration_witness :
  roundChangeTimer (newRoundChangeTimerForView (mkView 5 7) Scenario.atFiveZero)
  = Some (mkTimer 35000000000 (timeoutEvent (mkView 5 7)) false).
Proof.
  pose proof (round_change_timer_duration Scenario.atFiveZero (mkView 5 7)) as Hthm.
  cbv zeta in Hthm.
  destruct Hthm as (Htimer & _); [by vm_compute..|].
  exact Htimer.
Defined.

Lemma waitForDesiredRound_spec_witness :
  waitForDesiredRound 0 Scenario.atFiveZero
  = Returned (logf LvlDebug "New desired round not greater than current desired round"
                   Scenario.atFiveZero)
  ∧ ∃ c', waitForDesiredRound 3 Scenario.atFiveZero = Returned c'
      ∧ state c' = StateWaitingForNewRound
      ∧ current c' = Some (SetDesiredRound 3 Scenario.waitingState)
      ∧ calls c' = [CallLog LvlDebug "Waiting for desired round";
                    CallProcessBacklog;
                    CallSendRoundChange 3].
Proof.
  split.
  - apply (waitForDesiredRound_spec Scenario.atFiveZero Scenario.waitingState
             Scenario.four 0 eq_refl eq_refl).
    by vm_compute.
  - destruct (waitForDesiredRound_spec Scenario.atFiveZero Scenario.waitingState
                Scenario.four 3 eq_refl eq_refl) as (_ & Hup & _).
    destruct Hup as (c' & Hrun & Hst & Hcur & _ & _ & _ & Hcalls); [by vm_compute|].
    exists c'. repeat split; assumption.
Defined.

Lemma commit_backend_error_or_no_proposal_witness :
  (∃ c', commit Scenario.aggregate Scenario.sealLength Scenario.commitRefused
         = Returned c'
     ∧ calls c' = [CallProcessBacklog;
                   CallBackendCommit (Scenario.block 1) 7
                     [x00; x00; x00; x00; x00; x00];
                   CallSendNextRoundChange]
     ∧ state c' = StateCommitted
     ∧ current c' = Some Scenario.committing)
  ∧ (∃ c', commit Scenario.aggregate Scenario.sealLength Scenario.nothingAccepted
           = Returned c'
       ∧ calls c' = [CallProcessBacklog]
       ∧ state c' = StateCommitted).
Proof.
  split.
  - destruct (commit_backend_error_or_no_proposal Scenario.aggregate Scenario.sealLength
                Scenario.commitRefused Scenario.committing eq_refl) as [Herr _].
    edestruct Herr as (c' & Hrun & Hcalls & Hst & Hcur & _).
    + reflexivity.
    + vm_compute. reflexivity.
    + vm_compute. reflexivity.
    + reflexivity.
    + exists c'. repeat split; assumption.
  - destruct (commit_backend_error_or_no_proposal Scenario.aggregate Scenario.sealLength
                Scenario.nothingAccepted
                (newRoundState (mkView 1 0) None None EmptyPreparedCertificate) eq_refl)
      as [_ Hnone].
    destruct Hnone as (c' & Hrun & Hcalls & Hst & _); [reflexivity|].
    exists c'. repeat split; assumption.
Defined.

Lemma new_proposer_preprepare_witness :
  ∃ c' req,
    startNewRound 1 Scenario.proposerOfOne = Returned c'
    ∧ calls c' = [CallProcessPendingRequests; CallProcessBacklog;
                  CallSendPreprepare req Scenario.certificateForOne;
                  CallLog LvlDebug "New round"]
    ∧ ((∃ m rho p, m ∈ RoundChangeMessages Scenario.certificateForOne
          ∧ carriedCertificate m = Some (rho, p)
          ∧ req = mkRequest (Some p)
          ∧ ∀ m' rho' p', m' ∈ RoundChangeMessages Scenario.certificateForOne ->
                          carriedCertificate m' = Some (rho', p') -> rho' <= rho)
       ∨ ((∀ m, m ∈ RoundChangeMessages Scenario.certificateForOne ->
                carriedCertificate m = None)
          ∧ pendingRequest Scenario.waitingState = Some req)).
Proof.
  apply (new_proposer_preprepare Scenario.proposerOfOne Scenario.waitingState
           Scenario.four Scenario.roundChangesForOne 1 Scenario.certificateForOne).
  - reflexivity.
  - reflexivity.
  - reflexivity.
  - by vm_compute.
  - by vm_compute.
  - by vm_compute.
  - by vm_compute.
  - intros m rho p Hin Hc. vm_compute in Hin.
    repeat (apply elem_of_cons in Hin as [->|Hin]);
      [vm_compute in Hc; try discriminate; injection Hc as <- _; done ..|].
    inversion Hin.
  - by vm_compute.
  - right. by eexists.
Defined.

Lemma startNewRound_cases_witness :
  ∃ c', startNewRound 0 Scenario.headAtFive = Returned c'
    ∧ current c' = Some (newRoundState (mkView 6 0) None None EmptyPreparedCertificate)
    ∧ coreRoundChangeSet c' = Some newRoundChangeSet
    ∧ state c' = StateAcceptRequest.
Proof.
  destruct (startNewRound_cases Scenario.headAtFive Scenario.waitingState 0 eq_refl)
    as (Hadvance & _ & _); [by vm_compute|].
  destruct Hadvance as (c' & Hrun & Hcur & _ & Hrcs & Hst); [by vm_compute|].
  exists c'. repeat split; assumption.
Defined.

(** The chain head is two blocks beyond the current sequence, not at it,
    and the sequence advances all the same, to the block after the head. *)
Lemma startNewRound_advances_past_next_block :
  Number (LastProposal (backend Scenario.headAtSeven)).1
    ≠ sequence Scenario.waitingState
  ∧ current Scenario.headAtSeven = Some Scenario.waitingState
  ∧ ∃ c', startNewRound 0 Scenario.headAtSeven = Returned c'
      ∧ current c' = Some (newRoundState (mkView 8 0) None None EmptyPreparedCertificate)
      ∧ coreRoundChangeSet c' = Some newRoundChangeSet
      ∧ state c' = StateAcceptRequest.
Proof.
  split; [by vm_compute|]. split; [reflexivity|].
  destruct (startNewRound_advance_returns 0 Scenario.headAtSeven Scenario.waitingState
              eq_refl) as (c' & Hrun & Hcur & _ & Hrcs & Hst); [by vm_compute|].
  exists c'. repeat split; assumption.
Qed.

Lemma verifyPrepare_inconsistent_witness :
  verifyPrepare (Some (mkSubjectPtr (Some (mkViewPtr (Some 0) None)) 101))
                (Scenario.preparing StatePreprepared [])
  = Returned (Some errInconsistentSubject).
Proof.
  apply (verifyPrepare_inconsistent Scenario.signSeal
           (Scenario.preparing StatePreprepared []) (Scenario.preparesOf [])
           (Some (mkSubjectPtr (Some (mkViewPtr (Some 0) None)) 101)) eq_refl).
  by vm_compute.
Defined.



Lemma verifyPreparedCertificate_first_violation_witness :
  ValidPreparedCertificate Scenario.checkSignature Scenario.four 1
    (Scenario.preparedCertificateFor (mkView 1 0) (Scenario.block 1))
  ∧ verifyPreparedCertificate Scenario.checkSignature EmptyPreparedCertificate
      (Scenario.preparing StatePreprepared [])
    = Returned (Some errInvalidPreparedCertificateNumMsgs)
  ∧ verifyPreparedCertificate Scenario.checkSignature
      (mkPreparedCertificate (Scenario.block 1)
         [Scenario.prepareMsg 1 (mkView 1 0) (Scenario.block 1);
          Scenario.prepareMsg 1 (mkView 1 0) (Scenario.block 1);
          Scenario.prepareMsg 3 (mkView 1 0) (Scenario.block 1)])
      (Scenario.preparing StatePreprepared [])
    = Returned (Some errInvalidPreparedCertificateDuplicate).
Proof.
  split; [|split].
  - apply (verifyPreparedCertificate_first_violation Scenario.checkSignature
             (Scenario.preparing StatePreprepared []) (Scenario.preparesOf [])
             Scenario.four _ eq_refl eq_refl).
    by vm_compute.
  - apply (verifyPreparedCertificate_first_violation Scenario.checkSignature
             (Scenario.preparing StatePreprepared []) (Scenario.preparesOf [])
             Scenario.four EmptyPreparedCertificate eq_refl eq_refl).
    by vm_compute.
  - destruct (verifyPreparedCertificate_first_violation Scenario.checkSignature
                (Scenario.preparing StatePreprepared []) (Scenario.preparesOf [])
                Scenario.four
                (mkPreparedCertificate (Scenario.block 1)
                   [Scenario.prepareMsg 1 (mkView 1 0) (Scenario.block 1);
                    Scenario.prepareMsg 1 (mkView 1 0) (Scenario.block 1);
                    Scenario.prepareMsg 3 (mkView 1 0) (Scenario.block 1)])
                eq_refl eq_refl) as (_ & _ & _ & Hfirst).
    destruct (Hfirst [Scenario.prepareMsg 1 (mkView 1 0) (Scenario.block 1)]
                (Scenario.prepareMsg 1 (mkView 1 0) (Scenario.block 1))
                [Scenario.prepareMsg 3 (mkView 1 0) (Scenario.block 1)])
      as [Hdup _].
    + reflexivity.
    + by vm_compute.
    + intros m Hin. apply list_elem_of_singleton in Hin as ->.
      split; [by vm_compute|]. split; [by left|].
      eexists. split; [reflexivity|]. split; [by vm_compute|]. split; reflexivity.
    + apply NoDup_singleton.
    + by vm_compute.
    + apply Hdup. apply list_elem_of_singleton. reflexivity.
Defined.

Lemma roundChangeSet_Add_highest_round_witness :
  latestRoundForVal
    (rcs_Add 2 (Scenario.roundChangeMsg 1 (mkView 5 2) EmptyPreparedCertificate)
             (Scenario.validator 1) Scenario.roundChangesForOne).1 !! 1%N
  = Some 2
  ∧ msgsAt
      (rcs_Add 2 (Scenario.roundChangeMsg 1 (mkView 5 2) EmptyPreparedCertificate)
               (Scenario.validator 1) Scenario.roundChangesForOne).1 1 !! 1%N
    = None.
Proof.
  destruct (roundChangeSet_Add_highest_round Scenario.roundChangesForOne 2
              (Scenario.roundChangeMsg 1 (mkView 5 2) EmptyPreparedCertificate)
              (Scenario.validator 1) eq_refl) as (_ & _ & Hhigher & _).
  destruct (Hhigher 1) as (_ & Hlatest & Hgone & _); [by vm_compute..|].
  split; assumption.
Defined.

(** * The tests of the package, replayed on the model *)

(** TestRoundChangeSet: a message from each validator grows the round's set
    by one; the same messages again leave its size at four. *)
Example TestRoundChangeSet_Add :
  map (fun k => size (msgsAt (Scenario.addAll (fun _ => 1)
                                (take k [1%N; 2%N; 3%N; 4%N]) newRoundChangeSet) 1))
      [1%nat; 2%nat; 3%nat; 4%nat]
  = [1%nat; 2%nat; 3%nat; 4%nat]
  ∧ size (msgsAt (Scenario.addAll (fun _ => 1) [1%N; 2%N; 3%N; 4%N]
                                  Scenario.allAtOne) 1) = 4%nat.
Proof. split; by vm_compute. Qed.

(** TestRoundChangeSet: MaxRound is round 1 up to a threshold of four, and
    nil beyond. *)
Example TestRoundChangeSet_MaxRound :
  map (fun i => MaxRound i Scenario.allAtOne) [0; 1; 2; 3; 4; 5; 6; 7; 8; 9]
  = [Some 1; Some 1; Some 1; Some 1; Some 1; None; None; None; None; None].
Proof. by vm_compute. Qed.

(** TestRoundChangeSet: with validator i at round i, every round holds one
    message, each validator's latest round is its own, and MaxRound at
    threshold t is 4 - t. *)
Example TestRoundChangeSet_highest_round :
  map (fun i => (size (msgsAt Scenario.staircase i),
                 latestRoundForVal Scenario.staircase !! Z.to_N (i + 1)))
      [0; 1; 2; 3]
  = [(1%nat, Some 0); (1%nat, Some 1); (1%nat, Some 2); (1%nat, Some 3)]
  ∧ map (fun t => MaxRound t Scenario.staircase) [1; 2; 3] = [Some 3; Some 2; Some 1].
Proof. split; by vm_compute. Qed.

(** TestVerifyPreparedCertificate, its six certificates in order. *)
Example TestVerifyPreparedCertificate_cases :
  let c := Scenario.preparing StatePreprepared [] in
  let cert := Scenario.preparedCertificateFor (mkView 1 0) (Scenario.block 1) in
  let first := Scenario.prepareMsg 1 (mkView 1 0) (Scenario.block 1) in
  let verify cert := verifyPreparedCertificate Scenario.checkSignature cert c in
  verify cert = Returned None
  ∧ verify (Scenario.replaceMessage 1 first cert)
    = Returned (Some errInvalidPreparedCertificateDuplicate)
  ∧ verify (Scenario.preparedCertificateFor (mkView 10 0) (Scenario.block 1))
    = Returned (Some errInvalidPreparedCertificateMsgView)
  ∧ verify (Scenario.replaceMessage 0
              (Scenario.roundChangeMsg 1 (mkView 1 0) cert) cert)
    = Returned (Some errInvalidPreparedCertificateMsgCode)
  ∧ verify (mkPreparedCertificate (Scenario.block 2)
              (PrepareOrCommitMessages (Scenario.replaceMessage 1 first cert)))
    = Returned (Some errInvalidPreparedCertificateDigestMismatch)
  ∧ verify EmptyPreparedCertificate
    = Returned (Some errInvalidPreparedCertificateNumMsgs).
Proof. repeat split; by vm_compute. Qed.

(** TestVerifyPrepare, its six subjects in order; the round state of the
    first and of the last two is at (0, 0), that of the others at (1, 1). *)
Example TestVerifyPrepare_cases :
  let at00 := Scenario.coreAt 1 StatePreprepared
                (Scenario.acceptedAt (mkView 0 0) (Scenario.block 1)) 0 None in
  let at11 := Scenario.coreAt 1 StatePreprepared
                (Scenario.acceptedAt (mkView 1 1) (Scenario.block 1)) 0 None in
  let subject seq rnd digest :=
    Some (mkSubjectPtr (Some (mkViewPtr (Some rnd) seq)) digest) in
  verifyPrepare (subject (Some 0) 0 101%N) at00 = Returned None
  ∧ verifyPrepare (subject (Some 0) 0 101%N) at11
    = Returned (Some errInconsistentSubject)
  ∧ verifyPrepare (subject (Some 0) 0 1234567890%N) at11
    = Returned (Some errInconsistentSubject)
  ∧ verifyPrepare (subject None 0 101%N) at11
    = Returned (Some errInconsistentSubject)
  ∧ verifyPrepare (subject (Some 0) 1 101%N) at00
    = Returned (Some errInconsistentSubject)
  ∧ verifyPrepare (subject (Some 1) 0 101%N) at00
    = Returned (Some errInconsistentSubject).
Proof. repeat split; by vm_compute. Qed.

(** TestHandlePrepare, the normal case: after the PREPAREs of the four
    validators the node is Prepared, holds four PREPAREs and has sent one
    message, the COMMIT for the subject expected; with the PREPAREs of two
    it is still Preprepared and has sent nothing. *)
Example TestHandlePrepare_normal_case :
  Scenario.observe
    (Scenario.handlePrepares [1%N; 2%N; 3%N; 4%N]
       (Scenario.preparing StatePreprepared []))
  = Some (StatePrepared, 4,
          [CallProcessBacklog;
           CallBackendBroadcast
             (mkMessage MsgCommit (EncSubject (mkSubject (mkView 1 0) 101)) 1
                        (Scenario.signature 1)
                        (Scenario.signSeal (PrepareCommittedSeal 101)))],
          None)
  ∧ Scenario.observe
      (Scenario.handlePrepares [1%N; 2%N] (Scenario.preparing StatePreprepared []))
    = Some (StatePreprepared, 2, [], None).
Proof. split; by vm_compute. Qed.

(** * Further properties of core.go *)

Section CoreBehaviour.
Context {VS : Type} `{ValidatorSet VS}.
Variable AggregateSignatures : list (list byte) -> Err + list byte.
Variable IstanbulExtraCommittedSeal : nat.

Implicit Types (c : core VS) (cur : roundState) (view : View).

#[local] Arguments setState : simpl never.

(** ** Entering a round: what is left alone *)

Lemma setState_address st c : address (setState st c) = address c.
Proof.
  unfold setState. destruct (decide _); destruct (decide _); reflexivity.
Qed.

Lemma updateRoundState_frame view roundChange c :
  let c' := updateRoundState view roundChange c in
  consensusTimestamp c' = consensusTimestamp c
  ∧ address c' = address c
  ∧ backend c' = backend c
  ∧ config c' = config c
  ∧ valSet c' = valSet c
  ∧ futurePreprepareTimer c' = futurePreprepareTimer c
  ∧ roundChangeTimer c' = roundChangeTimer c
  ∧ calls c' = calls c.
Proof.
  unfold updateRoundState. destruct (current c); [destruct roundChange|];
    cbn; repeat split.
Qed.

Lemma enterRound_frame roundChange newView request cert lper c c' :
  enterRound roundChange newView request cert lper c = Returned c' ->
  consensusTimestamp c' = consensusTimestamp c
  ∧ address c' = address c
  ∧ backend c' = backend c
  ∧ config c' = config c
  ∧ futurePreprepareTimer c' = Timer_Stop <$> futurePreprepareTimer c.
Proof.
  unfold enterRound. destruct (valSet c) as [vs|]; [|discriminate]. cbn.
  set (c1 := set_valSet _ (updateRoundState newView roundChange
                             (set_roundChangeSet (Some newRoundChangeSet) c))).
  destruct (updateRoundState_frame newView roundChange
              (set_roundChangeSet (Some newRoundChangeSet) c))
    as (Ht & Ha & Hb & Hcfg & _ & Hf & _).
  cbn in Ht, Ha, Hb, Hcfg, Hf.
  destruct (setState_fields StateAcceptRequest c1)
    as (_ & _ & _ & _ & _ & Hf2 & Hb2 & Hcfg2 & Ht2).
  pose proof (setState_address StateAcceptRequest c1) as Ha2.
  set (c2 := setState StateAcceptRequest c1) in *.
  set (c3 := match request with
             | Some req =>
                 if roundChange && isProposer c2 && bool_decide (is_Some (current c2))
                 then emit (CallSendPreprepare req cert) c2 else c2
             | None => c2
             end).
  assert (H3 : consensusTimestamp c3 = consensusTimestamp c2
               ∧ address c3 = address c2 ∧ backend c3 = backend c2
               ∧ config c3 = config c2
               ∧ futurePreprepareTimer c3 = futurePreprepareTimer c2).
  { subst c3. destruct request as [req|]; [|done].
    destruct (roundChange && isProposer c2 && bool_decide (is_Some (current c2)));
      done. }
  destruct H3 as (Ht3 & Ha3 & Hb3 & Hcfg3 & Hf3).
  unfold newRoundChangeTimer, currentView.
  destruct (current c3) as [rs|]; [|discriminate]. cbn.
  intros [= <-]. cbn.
  rewrite Ht3, Ha3, Hb3, Hcfg3, Hf3, Ht2, Ha2, Hb2, Hcfg2, Hf2.
  subst c1. cbn. rewrite Ht, Ha, Hb, Hcfg, Hf. repeat split.
Qed.

(** ** The first round *)

(** Without a round state [startNewRound] goes straight to entering round
    0 after the chain head, under the backend's validator set. *)
Lemma startNewRound_initial c r :
  current c = None ->
  startNewRound r c =
  enterRound false (mkView (Number (LastProposal (backend c)).1 + 1) 0) None
    (mkRoundChangeCertificate []) (LastProposal (backend c)).2
    (set_valSet (Some (Validators (backend c) (LastProposal (backend c)).1))
       (logf LvlTrace "Start the initial round" c)).
Proof.
  intros Hcur. unfold startNewRound.
  destruct (LastProposal (backend c)) as [lp lper]. rewrite Hcur. reflexivity.
Qed.

(** X1.  [startNewRound] on a core without a round state, as [New] leaves
    it: whatever round is asked for, the core enters round 0 of the
    sequence after the chain head with the backend's validator set for
    that block, the proposer computed for round 0, an empty round-change
    set, a fresh round state and the round-change timer of that view; it
    processes pending requests and the backlog, sends no PRE-PREPARE,
    marks no meter and deletes nothing from the journal. *)
Theorem startNewRound_initial_round c r :
  current c = None ->
  let lastProposal := (LastProposal (backend c)).1 in
  let lastProposer := (LastProposal (backend c)).2 in
  let view := mkView (Number lastProposal + 1) 0 in
  ∃ c', startNewRound r c = Returned c'
    ∧ current c' = Some (newRoundState view None None EmptyPreparedCertificate)
    ∧ valSet c' =
        Some (CalcProposer (Validators (backend c) lastProposal) lastProposer 0)
    ∧ coreRoundChangeSet c' = Some newRoundChangeSet
    ∧ state c' = StateAcceptRequest
    ∧ roundChangeTimer c' =
        Some (mkTimer (roundChangeTimeout (config c) view) (timeoutEvent view) false)
    ∧ calls c' = calls c ++ [CallLog LvlTrace "Start the initial round";
                            CallProcessPendingRequests; CallProcessBacklog;
                            CallLog LvlDebug "New round"].
Proof.
  intros Hcur lastProposal lastProposer view.
  rewrite (startNewRound_initial c r Hcur). fold lastProposal lastProposer view.
  set (c0 := set_valSet _ (logf LvlTrace "Start the initial round" c)).
  destruct (enterRound_returns false view None
              (mkRoundChangeCertificate []) lastProposer c0
              (Validators (backend c) lastProposal) eq_refl)
    as (c' & Hrun & Hst & Hc & Hv & Hrcs & Htimer & Hcalls).
  exists c'. split; [exact Hrun|].
  rewrite Hc, updateRoundState_current. subst c0. cbn. rewrite Hcur.
  cbn in Hcalls. rewrite <- app_assoc in Hcalls. cbn in Hcalls.
  repeat split; assumption.
Qed.

(** ** Catching up with the chain *)

(** X2.  When the chain head is at or beyond the current sequence,
    [startNewRound] marks the sequence meter with the number of blocks
    gained (head - sequence + 1, which is that number whenever it fits an
    [int64]), updates the consensus timer when a consensus was being
    timed and clears the timestamp, deletes the journal entry of the view
    it leaves, and enters round 0 after the head with the timer of that
    view.  It sends no PRE-PREPARE, whoever the proposer is and whether or
    not a request is pending. *)
Theorem startNewRound_catch_up c cur r :
  current c = Some cur ->
  sequence cur <= Number (LastProposal (backend c)).1 ->
  let head := Number (LastProposal (backend c)).1 in
  let view := mkView (head + 1) 0 in
  ∃ c', startNewRound r c = Returned c'
    ∧ calls c' = calls c
        ++ [CallSequenceMeterMark (BigInt.Int64 (head - sequence cur + 1))]
        ++ match consensusTimestamp c with
           | Some t => [CallConsensusTimerUpdateSince t]
           | None => []
           end
        ++ [CallLog LvlTrace "Catch up to the latest proposal.";
            CallDeleteMessageFromDisk (round cur) (sequence cur);
            CallProcessPendingRequests; CallProcessBacklog;
            CallLog LvlDebug "New round"]
    ∧ consensusTimestamp c' = None
    ∧ roundChangeTimer c' =
        Some (mkTimer (roundChangeTimeout (config c) view) (timeoutEvent view) false)
    ∧ (head - sequence cur + 1 < 2 ^ 63 ->
       BigInt.Int64 (head - sequence cur + 1) = head - sequence cur + 1).
Proof.
  intros Hcur Hle head view. subst head view.
  unfold startNewRound.
  destruct (LastProposal (backend c)) as [lp lper]. cbn [fst snd] in *. rewrite Hcur.
  destruct (decide (0 <= BigInt.Cmp (Number lp) (sequence cur))) as [_|Hn].
  2:{ exfalso. apply Hn. apply BigIntFacts.Cmp_ge. exact Hle. }
  match goal with
  | |- ∃ c', enterRound _ _ _ _ _ ?x = _ ∧ _ => set (c0 := x)
  end.
  assert (Hc0 : valSet c0 = Some (Validators (backend c) lp)
                ∧ config c0 = config c
                ∧ consensusTimestamp c0 = None
                ∧ calls c0 = calls c
                    ++ [CallSequenceMeterMark
                          (BigInt.Int64 (Number lp - sequence cur + 1))]
                    ++ match consensusTimestamp c with
                       | Some t => [CallConsensusTimerUpdateSince t]
                       | None => []
                       end
                    ++ [CallLog LvlTrace "Catch up to the latest proposal.";
                        CallDeleteMessageFromDisk (round cur) (sequence cur)]).
  { subst c0. cbn. destruct (consensusTimestamp c) eqn:Ht; cbn;
      rewrite ?Ht, <- ?app_assoc; repeat split. }
  destruct Hc0 as (Hv0 & Hcfg0 & Ht0 & Hcalls0).
  destruct (enterRound_returns false (mkView (Number lp + 1) 0)
              (pendingRequest cur) (mkRoundChangeCertificate []) lper c0 _ Hv0)
    as (c' & Hrun & _ & _ & _ & _ & Htimer & Hcalls).
  destruct (enterRound_frame _ _ _ _ _ _ _ Hrun) as (Ht & _).
  exists c'. split; [exact Hrun|].
  rewrite Hcalls, Hcalls0, Ht, Ht0, Htimer, Hcfg0.
  split.
  { unfold preprepareCalls. destruct (pendingRequest cur); cbn;
      rewrite <- !app_assoc; destruct (consensusTimestamp c); reflexivity. }
  split; [reflexivity|]. split; [reflexivity|].
  intros Hfit. apply BigIntFacts.Int64_small. lia.
Qed.
(** ** A round change on a node that has nothing to propose *)

(** X3.  On a round change for which the round-change set yields a
    certificate, a node that is not the proposer of the new round, or that
    has neither a pending request nor a prepared certificate carried by
    the round-change messages, sends no PRE-PREPARE: it enters the round,
    processes pending requests and the backlog, and arms the timer of the
    new view. *)
Theorem round_change_without_preprepare c cur vs rcs r cert :
  current c = Some cur ->
  valSet c = Some vs ->
  coreRoundChangeSet c = Some rcs ->
  0 <= sequence cur < 2 ^ 63 ->
  Number (LastProposal (backend c)).1 = sequence cur - 1 ->
  round cur < r ->
  getCertificate r (MinQuorumSize vs) rcs = inr cert ->
  IsProposer (CalcProposer vs (LastProposal (backend c)).2 (BigInt.Uint64 r))
             (BackendAddress (backend c)) = false
  ∨ (pendingRequest cur = None
     ∧ ∀ m, m ∈ RoundChangeMessages cert -> carriedCertificate m = None) ->
  ∃ c', startNewRound r c = Returned c'
    ∧ calls c' = calls c ++ [CallProcessPendingRequests; CallProcessBacklog;
                            CallLog LvlDebug "New round"]
    ∧ state c' = StateAcceptRequest
    ∧ roundChangeTimer c' =
        Some (mkTimer (roundChangeTimeout (config c) (mkView (sequence cur) r))
                      (timeoutEvent (mkView (sequence cur) r)) false).
Proof.
  intros Hcur Hvs Hrcs Hseq Hlp Hr Hcert Hwhy.
  rewrite (startNewRound_roundChange r c cur Hcur Hseq Hlp Hr).
  rewrite (getPreprepare_returns r c cur vs rcs cert Hcur Hvs Hrcs Hcert). cbn.
  destruct (enterRound_returns true (mkView (sequence cur) r)
              (fold_left pickRequest (RoundChangeMessages cert)
                         (-1, pendingRequest cur)).2 cert
              (LastProposal (backend c)).2 c vs Hvs)
    as (c' & Hrun & Hst & _ & _ & _ & Htimer & Hcalls).
  exists c'. split; [exact Hrun|]. split; [|split; assumption].
  rewrite Hcalls. cbn [Round].
  assert (Hnone : preprepareCalls true
            (IsProposer (CalcProposer vs (LastProposal (backend c)).2 (BigInt.Uint64 r))
                        (BackendAddress (backend c)))
            (fold_left pickRequest (RoundChangeMessages cert)
                       (-1, pendingRequest cur)).2 cert = []).
  { destruct Hwhy as [Hprop|[Hpend Hcarried]].
    - rewrite Hprop. unfold preprepareCalls.
      by destruct (fold_left pickRequest _ _).2.
    - destruct (pickRequest_fold (RoundChangeMessages cert) (-1) (pendingRequest cur))
        as [_ [[Heq _]|(m & p & Hin & Hc & _)]]; cbn in *.
      + rewrite Heq. cbn. rewrite Hpend. reflexivity.
      + rewrite (Hcarried m Hin) in Hc. discriminate. }
  rewrite Hnone. reflexivity.
Qed.

(** ** Timers *)

Lemma Timer_Stop_twice (t : option Timer) :
  Timer_Stop <$> (Timer_Stop <$> t) = Timer_Stop <$> t.
Proof. by destruct t. Qed.

(** X4.  [stopTimer] leaves no timer of the core running and is
    idempotent; arming the round-change timer stops the future-preprepare
    timer and replaces the round-change timer by a running one, so that
    arming it for one view and then for another leaves the core as arming
    it for the second alone.  A core without timers is handled as well. *)
Theorem round_change_timer_rearmed c v1 v2 :
  stopTimer (stopTimer c) = stopTimer c
  ∧ (∀ t, futurePreprepareTimer (stopTimer c) = Some t
          ∨ roundChangeTimer (stopTimer c) = Some t -> timerStopped t = true)
  ∧ futurePreprepareTimer (newRoundChangeTimerForView v1 c)
    = Timer_Stop <$> futurePreprepareTimer c
  ∧ (∃ t, roundChangeTimer (newRoundChangeTimerForView v1 c) = Some t
          ∧ timerStopped t = false ∧ timerPosts t = timeoutEvent v1)
  ∧ newRoundChangeTimerForView v2 (newRoundChangeTimerForView v1 c)
    = newRoundChangeTimerForView v2 c.
Proof.
  split; [|split; [|split; [|split]]].
  - unfold stopTimer, stopFuturePreprepareTimer. cbn.
    by rewrite !Timer_Stop_twice.
  - intros t [Ht|Ht]; cbn in Ht;
      [destruct (futurePreprepareTimer c)|destruct (roundChangeTimer c)];
      cbn in Ht; try discriminate; by injection Ht as <-.
  - reflexivity.
  - eexists. split; [reflexivity|]. split; reflexivity.
  - unfold newRoundChangeTimerForView, stopTimer, stopFuturePreprepareTimer. cbn.
    by rewrite Timer_Stop_twice.
Qed.

(** ** Waiting for a round, again *)

Lemma waitForDesiredRound_raises c cur vs r :
  current c = Some cur ->
  valSet c = Some vs ->
  desiredRound cur < r ->
  waitForDesiredRound r c =
  Returned
    (emit (CallSendRoundChange r)
       (newRoundChangeTimerForView (mkView (sequence cur) r)
          (set_valSet
             (Some (CalcProposer vs (LastProposal (backend c)).2 (BigInt.Uint64 r)))
             (set_current (Some (SetDesiredRound r cur))
                (setState StateWaitingForNewRound
                   (logf LvlDebug "Waiting for desired round" c)))))).
Proof.
  intros Hcur Hvs Hr. unfold waitForDesiredRound. rewrite Hcur. cbn.
  destruct (decide (0 <= BigInt.Cmp (desiredRound cur) r)) as [Hn|_].
  { apply (proj1 (BigIntFacts.Cmp_ge _ _)) in Hn. lia. }
  destruct (setState_fields StateWaitingForNewRound
              (logf LvlDebug "Waiting for desired round" c))
    as (_ & Hc & Hv & _ & _ & _ & Hb & _).
  cbn. rewrite Hc. cbn. rewrite Hcur. cbn.
  rewrite Hb. cbn.
  destruct (LastProposal (backend c)) as [lp lper]. cbn.
  rewrite Hv. cbn. rewrite Hvs. reflexivity.
Qed.

Lemma waitForDesiredRound_not_above c cur r :
  current c = Some cur ->
  r <= desiredRound cur ->
  waitForDesiredRound r c =
  Returned (logf LvlDebug "New desired round not greater than current desired round" c).
Proof.
  intros Hcur Hr. unfold waitForDesiredRound. rewrite Hcur. cbn.
  destruct (decide (0 <= BigInt.Cmp (desiredRound cur) r)) as [_|Hn];
    [reflexivity|].
  exfalso. apply Hn. apply BigIntFacts.Cmp_ge. exact Hr.
Qed.

(** X5.  Once [waitForDesiredRound(r)] has raised the desired round to
    [r], a further call for [r] or for a lower round is the no-op: it logs
    one debug line and neither changes the state, nor re-arms the timer,
    nor sends a second ROUND-CHANGE. *)
Theorem waitForDesiredRound_repeated c cur vs r r2 :
  current c = Some cur ->
  valSet c = Some vs ->
  desiredRound cur < r ->
  r2 <= r ->
  ∃ c', waitForDesiredRound r c = Returned c'
    ∧ calls c' = calls c ++ [CallLog LvlDebug "Waiting for desired round";
                            CallProcessBacklog;
                            CallSendRoundChange r]
    ∧ waitForDesiredRound r2 c' =
      Returned (logf LvlDebug
                  "New desired round not greater than current desired round" c').
Proof.
  intros Hcur Hvs Hr Hr2.
  rewrite (waitForDesiredRound_raises c cur vs r Hcur Hvs Hr).
  eexists. split; [reflexivity|]. split.
  - cbn [calls emit newRoundChangeTimerForView set_roundChangeTimer stopTimer
         stopFuturePreprepareTimer set_futurePreprepareTimer set_valSet set_current].
    rewrite setState_calls. rewrite decide_False by discriminate.
    cbn. rewrite <- !app_assoc. reflexivity.
  - apply (waitForDesiredRound_not_above _ (SetDesiredRound r cur)).
    + reflexivity.
    + exact Hr2.
Qed.

(** ** Commit: the seals and the bitmap *)

Lemma sealBuffer_length seal :
  length (sealBuffer IstanbulExtraCommittedSeal seal) = IstanbulExtraCommittedSeal.
Proof.
  unfold sealBuffer. rewrite length_take, length_app, length_replicate. lia.
Qed.

Lemma GetAddressIndex_member vs a j v :
  GetByAddress vs a = (j, Some v) -> 0 <= j ->
  GetAddressIndex vs a = inr j ∧ GetAddressPublicKey vs a = inr (BLSPublicKey v).
Proof.
  intros Hget Hj. unfold GetAddressIndex, GetAddressPublicKey. rewrite Hget.
  rewrite decide_False by lia. by split.
Qed.

(** The loop over the COMMITs of validators: one padded seal per message,
    in order, and in the bitmap one more bit per sender. *)
Lemma commitLoop_members vs values : ∀ seals bitmap keys,
  (∀ m, m ∈ values -> ∃ j v, GetByAddress vs (MsgAddress m) = (j, Some v) ∧ 0 <= j) ->
  ∃ bitmap' keys',
    commitLoop IstanbulExtraCommittedSeal (Some vs) values (seals, bitmap, keys)
    = Returned (seals ++ ((fun m => sealBuffer IstanbulExtraCommittedSeal
                                      (CommittedSeal m)) <$> values),
                bitmap', keys')
    ∧ (0 <= bitmap -> 0 <= bitmap')
    ∧ ∀ j, 0 <= j ->
        Z.testbit bitmap' j = true
        ↔ Z.testbit bitmap j = true
          ∨ ∃ m, m ∈ values ∧ (GetByAddress vs (MsgAddress m)).1 = j.
Proof.
  induction values as [|v rest IH]; intros seals bitmap keys Hall.
  - exists bitmap, keys. cbn. rewrite app_nil_r. split; [reflexivity|].
    split; [done|]. intros j Hj. split; [by left|].
    intros [Hb|(m & Hin & _)]; [exact Hb|inversion Hin].
  - destruct (Hall v) as (i & val & Hget & Hi); [by left|].
    destruct (GetAddressIndex_member vs _ i val Hget Hi) as [Hidx Hkey].
    destruct (IH (seals ++ [sealBuffer IstanbulExtraCommittedSeal (CommittedSeal v)])
                 (Z.setbit bitmap i) (keys ++ [BLSPublicKey val]))
      as (bitmap' & keys' & Hrun & Hpos & Hbits).
    { intros m Hin. apply Hall. by right. }
    exists bitmap', keys'. split; [|split].
    + cbn. rewrite Hidx, Hkey, Hrun, <- app_assoc. reflexivity.
    + intros Hb. apply Hpos. rewrite Z.setbit_spec'. apply Z.lor_nonneg.
      split; [exact Hb|]. apply Z.pow_nonneg. lia.
    + intros j Hj. rewrite (Hbits j Hj), (Z.setbit_iff _ _ _ Hi). split.
      * intros [[<-|Hb]|(m & Hin & Hm)].
        -- right. exists v. split; [by left|]. by rewrite Hget.
        -- by left.
        -- right. exists m. split; [by right|exact Hm].
      * intros [Hb|(m & Hin & Hm)]; [left; by right|].
        apply elem_of_cons in Hin as [->|Hin].
        -- left. left. by rewrite Hget in Hm.
        -- right. by exists m.
Qed.

(** X6.  [commit()] on a node whose COMMITs all come from validators of
    its set, a proposal being accepted and the aggregation succeeding:
    the seals aggregated are those of the COMMITs, each cut or zero-padded
    to [IstanbulExtraCommittedSeal] bytes; [Backend.Commit] is called once,
    with the proposal, the aggregate and a bitmap whose bits are exactly
    the validator indices of the senders; a round change is asked for
    exactly when the backend answers with an error; the state is
    Committed either way and the round state untouched. *)
Theorem commit_bitmap_of_senders c cur vs proposal asig :
  current c = Some cur ->
  valSet c = Some vs ->
  roundState_Proposal cur = Some proposal ->
  let values := messageSet_Values (Commits cur) in
  let seals := (fun m => sealBuffer IstanbulExtraCommittedSeal (CommittedSeal m))
                 <$> values in
  (∀ m, m ∈ values -> ∃ j v, GetByAddress vs (MsgAddress m) = (j, Some v) ∧ 0 <= j) ->
  AggregateSignatures seals = inr asig ->
  ∃ c' bitmap,
    commit AggregateSignatures IstanbulExtraCommittedSeal c = Returned c'
    ∧ calls c' = calls c
        ++ [CallProcessBacklog; CallBackendCommit proposal bitmap asig]
        ++ match Commit (backend c) proposal bitmap asig with
           | Some _ => [CallSendNextRoundChange]
           | None => []
           end
    ∧ 0 <= bitmap
    ∧ (∀ j, 0 <= j ->
         Z.testbit bitmap j = true
         ↔ ∃ m, m ∈ values ∧ (GetByAddress vs (MsgAddress m)).1 = j)
    ∧ (∀ seal, seal ∈ seals -> length seal = IstanbulExtraCommittedSeal)
    ∧ state c' = StateCommitted
    ∧ current c' = Some cur.
Proof.
  intros Hcur Hvs Hp values seals Hall Hagg.
  destruct (setState_fields StateCommitted c)
    as (Hst & Hc & Hv & _ & _ & _ & Hb & _).
  pose proof (setState_calls StateCommitted c) as Hcalls.
  rewrite decide_False in Hcalls by discriminate.
  destruct (commitLoop_members vs values [] 0 [] Hall)
    as (bitmap & keys & Hloop & Hpos & Hbits).
  cbn [app] in Hloop. fold seals in Hloop.
  assert (Hrun : commit AggregateSignatures IstanbulExtraCommittedSeal c =
                 let c1 := emit (CallBackendCommit proposal bitmap asig)
                                (setState StateCommitted c) in
                 match Commit (backend c) proposal bitmap asig with
                 | Some _ => Returned (emit CallSendNextRoundChange c1)
                 | None => Returned c1
                 end).
  { unfold commit. rewrite Hc, Hcur. cbn. rewrite Hp, Hv, Hvs.
    fold values. rewrite Hloop. cbn. rewrite Hagg. cbn. rewrite Hb. reflexivity. }
  assert (Hlen : ∀ seal, seal ∈ seals -> length seal = IstanbulExtraCommittedSeal).
  { intros seal Hin. subst seals. apply list_elem_of_fmap in Hin as (m & -> & _).
    apply sealBuffer_length. }
  assert (Hbits' : ∀ j, 0 <= j ->
            Z.testbit bitmap j = true
            ↔ ∃ m, m ∈ values ∧ (GetByAddress vs (MsgAddress m)).1 = j).
  { intros j Hj. rewrite (Hbits j Hj), Z.testbit_0_l. split.
    - intros [Hf|Hm]; [discriminate|exact Hm].
    - intros Hm. by right. }
  rewrite Hrun. cbv zeta.
  set (c1 := emit (CallBackendCommit proposal bitmap asig) (setState StateCommitted c)).
  exists (match Commit (backend c) proposal bitmap asig with
          | Some _ => emit CallSendNextRoundChange c1
          | None => c1
          end), bitmap.
  assert (Hpos' : 0 <= bitmap) by (apply Hpos; lia).
  destruct (Commit (backend c) proposal bitmap asig) eqn:Hcommit;
    (split; [reflexivity|]); subst c1; cbn; rewrite Hcalls, Hst, Hc, <- ?app_assoc;
    cbn; (split; [reflexivity|]); (split; [exact Hpos'|]);
    (split; [exact Hbits'|]); (split; [exact Hlen|]);
    (split; [reflexivity|exact Hcur]).
Qed.

(** A COMMIT whose sender the validator set does not know stops the loop. *)
Lemma commitLoop_stranger vs values m : ∀ acc,
  m ∈ values ->
  (∃ e, GetAddressIndex vs (MsgAddress m) = inl e)
  ∨ (∃ e, GetAddressPublicKey vs (MsgAddress m) = inl e) ->
  ∃ why, commitLoop IstanbulExtraCommittedSeal (Some vs) values acc = Panicked why.
Proof.
  induction values as [|v rest IH]; intros [[seals bitmap] keys] Hin Hbad.
  - inversion Hin.
  - cbn. destruct (GetAddressIndex vs (MsgAddress v)) as [e|j] eqn:Hidx;
      [by eexists|].
    destruct (GetAddressPublicKey vs (MsgAddress v)) as [e|key] eqn:Hkey;
      [by eexists|].
    apply elem_of_cons in Hin as [->|Hin].
    + destruct Hbad as [[e He]|[e He]]; congruence.
    + by apply IH.
Qed.

(** X7.  [commit()] panics instead of committing when, a proposal being
    accepted, one of the COMMITs held comes from an address the validator
    set has no index or no public key for, and when the aggregation of the
    seals fails; [Backend.Commit] is not reached. *)
Theorem commit_panics c cur vs proposal :
  current c = Some cur ->
  valSet c = Some vs ->
  roundState_Proposal cur = Some proposal ->
  let values := messageSet_Values (Commits cur) in
  (∀ m, m ∈ values ->
        (∃ e, GetAddressIndex vs (MsgAddress m) = inl e)
        ∨ (∃ e, GetAddressPublicKey vs (MsgAddress m) = inl e) ->
        ∃ why, commit AggregateSignatures IstanbulExtraCommittedSeal c = Panicked why)
  ∧ (∀ seals bitmap keys e,
       commitLoop IstanbulExtraCommittedSeal (Some vs) values ([], 0, [])
         = Returned (seals, bitmap, keys) ->
       AggregateSignatures seals = inl e ->
       ∃ why, commit AggregateSignatures IstanbulExtraCommittedSeal c = Panicked why).
Proof.
  intros Hcur Hvs Hp values.
  destruct (setState_fields StateCommitted c) as (_ & Hc & Hv & _).
  split.
  - intros m Hin Hbad.
    destruct (commitLoop_stranger vs values m ([], 0, []) Hin Hbad) as [why Hloop].
    exists why. unfold commit. rewrite Hc, Hcur. cbn. rewrite Hp, Hv, Hvs.
    fold values. rewrite Hloop. reflexivity.
  - intros seals bitmap keys e Hloop Hagg. eexists.
    unfold commit. rewrite Hc, Hcur. cbn. rewrite Hp, Hv, Hvs.
    fold values. rewrite Hloop. cbn. rewrite Hagg. reflexivity.
Qed.
(** ** Outgoing messages *)

(** X8.  [finalizeMessage] ignores the sender and the signature the
    caller left in the message: the payload carries the address of the
    core and the signature the backend gives for the message without
    signature, with the code, the body and the committed seal as they
    were; finalizing a finalized message gives the same payload again. *)
Theorem finalizeMessage_sender_and_signature c code body a1 s1 a2 s2 seal :
  finalizeMessage (mkMessage code body a1 s1 seal) c
  = finalizeMessage (mkMessage code body a2 s2 seal) c
  ∧ ∀ payload,
      finalizeMessage (mkMessage code body a1 s1 seal) c = inr payload ->
      payload = mkMessage code body (address c) (Signature payload) seal
      ∧ Sign (backend c) (PayloadNoSig payload) = inr (Signature payload)
      ∧ finalizeMessage payload c = inr payload.
Proof.
  split; [reflexivity|].
  intros payload. unfold finalizeMessage, PayloadNoSig. cbn.
  destruct (Sign (backend c) (mkMessage code body (address c) [] seal))
    as [e|sig] eqn:Hsign; [discriminate|].
  intros [= <-]. cbn. rewrite Hsign. repeat split.
Qed.

(** X9.  [broadcast] on a core with a round state returns, whatever the
    backend answers, and changes nothing in the core: a message the
    backend cannot sign is logged and not handed over; otherwise the
    backend is handed the finalized payload, once, and a refusal is
    logged.  Without a round state the call panics. *)
Theorem broadcast_effects c msg :
  (current c = None -> ∃ why, broadcast msg c = Panicked why)
  ∧ (is_Some (current c) ->
     ∃ c', broadcast msg c = Returned c'
       ∧ state c' = state c
       ∧ current c' = current c
       ∧ valSet c' = valSet c
       ∧ coreRoundChangeSet c' = coreRoundChangeSet c
       ∧ roundChangeTimer c' = roundChangeTimer c
       ∧ calls c' = calls c ++
           match finalizeMessage msg c with
           | inl _ => [CallLog LvlError "Failed to finalize message"]
           | inr payload =>
               CallBackendBroadcast payload ::
               match Broadcast (backend c) payload with
               | Some _ => [CallLog LvlError "Failed to broadcast message"]
               | None => []
               end
           end).
Proof.
  split.
  - intros Hcur. unfold broadcast. rewrite Hcur. by eexists.
  - intros [cur Hcur]. unfold broadcast. rewrite Hcur. cbn.
    destruct (finalizeMessage msg c) as [e|payload].
    + eexists. split; [reflexivity|]. cbn. repeat split; exact Hcur.
    + cbn. destruct (Broadcast (backend c) payload) eqn:Hb;
        eexists; (split; [reflexivity|]); cbn; rewrite <- ?app_assoc;
        repeat split; exact Hcur.
Qed.

(** ** The committed seal *)

Lemma bytes_of_N_length len : ∀ n, length (bytes_of_N len n) = len.
Proof.
  induction len as [|k IH]; intros n; cbn; [reflexivity|].
  rewrite length_app, IH. cbn. lia.
Qed.

Lemma byte_of_N_inj a b :
  byte_of_N a = byte_of_N b -> (a mod 256 = b mod 256)%N.
Proof.
  unfold byte_of_N. intros Heq.
  assert (Hsome : ∀ n, ∃ y, Byte.of_N (n mod 256)%N = Some y).
  { intros n. destruct (Byte.of_N (n mod 256)%N) as [y|] eqn:Hy; [by eexists|].
    apply Byte.of_N_None_iff in Hy.
    pose proof (N.mod_upper_bound n 256 ltac:(done)). lia. }
  destruct (Hsome a) as [ya Ha], (Hsome b) as [yb Hb].
  rewrite Ha, Hb in Heq. cbn in Heq. subst yb.
  apply Byte.to_of_N in Ha, Hb. congruence.
Qed.

Lemma bytes_of_N_inj len : ∀ a b,
  (a < 256 ^ N.of_nat len)%N -> (b < 256 ^ N.of_nat len)%N ->
  bytes_of_N len a = bytes_of_N len b -> a = b.
Proof.
  induction len as [|k IH]; intros a b Ha Hb Heq.
  - cbn in Ha, Hb. lia.
  - cbn in Heq. apply app_inj_tail in Heq as [Hhigh Hlow].
    apply byte_of_N_inj in Hlow.
    assert (Hpow : (256 ^ N.of_nat (S k) = 256 * 256 ^ N.of_nat k)%N).
    { rewrite Nat2N.inj_succ, N.pow_succ_r'. reflexivity. }
    rewrite Hpow in Ha, Hb.
    assert (Hdiv : (a / 256 = b / 256)%N).
    { apply IH; [| |exact Hhigh]; apply N.Div0.div_lt_upper_bound; assumption. }
    rewrite (N.div_mod a 256), (N.div_mod b 256) by done. congruence.
Qed.

(** X10.  The committed seal of a hash is 33 bytes long, the 32 bytes of
    the hash followed by the COMMIT code as one byte; two hashes with the
    same seal are the same hash. *)
Theorem PrepareCommittedSeal_injective h1 h2 :
  (h1 < 2 ^ 256)%N ->
  (h2 < 2 ^ 256)%N ->
  length (PrepareCommittedSeal h1) = 33%nat
  ∧ PrepareCommittedSeal h1 = Hash_Bytes h1 ++ [x02]
  ∧ length (Hash_Bytes h1) = 32%nat
  ∧ (PrepareCommittedSeal h1 = PrepareCommittedSeal h2 -> h1 = h2).
Proof.
  intros H1 H2. unfold PrepareCommittedSeal, Hash_Bytes.
  split; [by rewrite length_app, bytes_of_N_length|].
  split; [reflexivity|]. split; [apply bytes_of_N_length|].
  intros Heq. apply app_inj_tail in Heq as [Heq _].
  apply (bytes_of_N_inj 32); [| |exact Heq].
  - change (256 ^ N.of_nat 32)%N with (2 ^ 256)%N. exact H1.
  - change (256 ^ N.of_nat 32)%N with (2 ^ 256)%N. exact H2.
Qed.
(** ** The request of a round change: ties *)

Lemma pickRequest_below rho msgs : ∀ mx req,
  mx < rho ->
  (∀ m rho' p, m ∈ msgs -> carriedCertificate m = Some (rho', p) -> rho' < rho) ->
  (fold_left pickRequest msgs (mx, req)).1 < rho.
Proof.
  induction msgs as [|m msgs IH]; intros mx req Hmx Hall; [exact Hmx|].
  cbn [fold_left]. rewrite pickRequest_carried.
  assert (Hrest : ∀ m' rho' p, m' ∈ msgs ->
                    carriedCertificate m' = Some (rho', p) -> rho' < rho).
  { intros m' rho' p Hin. apply Hall. by right. }
  destruct (carriedCertificate m) as [[rho' p]|] eqn:Hm; [|by apply IH].
  destruct (decide (mx < rho')); [|by apply IH].
  apply IH; [|exact Hrest]. apply (Hall m rho' p); [by left|exact Hm].
Qed.

Lemma pickRequest_kept rho req msgs :
  (∀ m rho' p, m ∈ msgs -> carriedCertificate m = Some (rho', p) -> rho' <= rho) ->
  fold_left pickRequest msgs (rho, req) = (rho, req).
Proof.
  induction msgs as [|m msgs IH]; intros Hall; [reflexivity|].
  cbn [fold_left]. rewrite pickRequest_carried.
  assert (Hrest : ∀ m' rho' p, m' ∈ msgs ->
                    carriedCertificate m' = Some (rho', p) -> rho' <= rho).
  { intros m' rho' p Hin. apply Hall. by right. }
  destruct (carriedCertificate m) as [[rho' p]|] eqn:Hm; [|by apply IH].
  destruct (decide (rho < rho')) as [Hlt|_]; [|by apply IH].
  specialize (Hall m rho' p ltac:(by left) Hm). lia.
Qed.

(** X11.  Among the prepared certificates the messages of the
    round-change certificate carry, the one of the highest round gives the
    proposal, and of several at that round the first in the certificate;
    it replaces the pending request, if there is one. *)
Theorem getPreprepare_first_of_highest_round c cur vs rcs r cert before m after rho p :
  current c = Some cur ->
  valSet c = Some vs ->
  coreRoundChangeSet c = Some rcs ->
  getCertificate r (MinQuorumSize vs) rcs = inr cert ->
  RoundChangeMessages cert = before ++ m :: after ->
  carriedCertificate m = Some (rho, p) ->
  0 <= rho ->
  (∀ m' rho' p', m' ∈ before -> carriedCertificate m' = Some (rho', p') -> rho' < rho) ->
  (∀ m' rho' p', m' ∈ after -> carriedCertificate m' = Some (rho', p') -> rho' <= rho) ->
  getPreprepareWithRoundChangeCertificate r c
  = Returned (Some (mkRequest (Some p)), cert, None).
Proof.
  intros Hcur Hvs Hrcs Hcert Hsplit Hm Hrho Hbefore Hafter.
  rewrite (getPreprepare_returns r c cur vs rcs cert Hcur Hvs Hrcs Hcert).
  rewrite Hsplit, fold_left_app. cbn [fold_left].
  pose proof (pickRequest_below rho before (-1) (pendingRequest cur)
                ltac:(lia) Hbefore) as Hlow.
  destruct (fold_left pickRequest before (-1, pendingRequest cur)) as [mx req].
  cbn in Hlow. rewrite pickRequest_carried, Hm.
  rewrite decide_True by exact Hlow.
  rewrite (pickRequest_kept rho _ after Hafter). reflexivity.
Qed.

(** ** A core fresh from [New], and [SetAddress] *)

Lemma startNewRound_initial_backend c r c' :
  current c = None ->
  startNewRound r c = Returned c' ->
  backend c' = backend c.
Proof.
  intros Hcur. rewrite (startNewRound_initial c r Hcur).
  intros Hrun. apply enterRound_frame in Hrun as (_ & _ & Hb & _). exact Hb.
Qed.

Lemma commit_without_round_state c :
  current c = None ->
  ∃ why, commit AggregateSignatures IstanbulExtraCommittedSeal c = Panicked why.
Proof.
  intros Hcur. eexists. unfold commit.
  destruct (setState_fields StateCommitted c) as (_ & -> & _).
  rewrite Hcur. reflexivity.
Qed.

(** X12.  The core [New] returns is in AcceptRequest under the address of
    its backend, and is not the proposer, having no validator set; having
    no round state either, [commit], [waitForDesiredRound] and
    [newRoundChangeTimer] panic on it.  [startNewRound] is what makes it
    usable: it returns, and the node is the proposer afterwards exactly
    when the backend's validator set for the chain head, the proposer
    computed for round 0, says so. *)
Theorem New_core_needs_startNewRound (b : Backend VS) cfg r :
  let c := New b cfg in
  state c = StateAcceptRequest
  ∧ address c = BackendAddress b
  ∧ isProposer c = false
  ∧ (∃ why, commit AggregateSignatures IstanbulExtraCommittedSeal c = Panicked why)
  ∧ (∃ why, waitForDesiredRound r c = Panicked why)
  ∧ (∃ why, newRoundChangeTimer c = Panicked why)
  ∧ ∃ c', startNewRound r c = Returned c'
      ∧ is_Some (current c')
      ∧ isProposer c'
        = IsProposer (CalcProposer (Validators b (LastProposal b).1)
                                   (LastProposal b).2 0)
                     (BackendAddress b).
Proof.
  intros c. split; [reflexivity|]. split; [reflexivity|]. split; [reflexivity|].
  split; [by apply commit_without_round_state|].
  split; [eexists; reflexivity|]. split; [eexists; reflexivity|].
  destruct (enterRound_returns false (mkView (Number (LastProposal b).1 + 1) 0) None
              (mkRoundChangeCertificate []) (LastProposal b).2
              (set_valSet (Some (Validators b (LastProposal b).1))
                 (logf LvlTrace "Start the initial round" c))
              (Validators b (LastProposal b).1) eq_refl)
    as (c' & Hrun & _ & Hcur & Hv & _).
  assert (Hstart : startNewRound r c = Returned c')
    by (rewrite (startNewRound_initial c r eq_refl); exact Hrun).
  pose proof (startNewRound_initial_backend c r c' eq_refl Hstart) as Hb.
  exists c'. split; [exact Hstart|]. split.
  - rewrite Hcur, updateRoundState_current. by eexists.
  - unfold isProposer. rewrite Hv, Hb. reflexivity.
Qed.

(** X13.  [SetAddress] changes the sender [finalizeMessage] puts on
    outgoing messages, and nothing [isProposer] looks at: whether the node
    is the proposer is decided by the address of the backend. *)
Theorem SetAddress_sender_not_proposer c a msg :
  isProposer (SetAddress a c) = isProposer c
  ∧ (∀ payload, finalizeMessage msg (SetAddress a c) = inr payload ->
                MsgAddress payload = a)
  ∧ (∀ payload, finalizeMessage msg c = inr payload ->
                MsgAddress payload = address c).
Proof.
  split; [reflexivity|].
  split; intros payload; unfold finalizeMessage; cbn;
    destruct (Sign _ _); [discriminate| |discriminate|];
    by intros [= <-].
Qed.
End CoreBehaviour.

(** ** The further properties of core.go at work *)

Lemma startNewRound_initial_round_witness :
  ∃ c', startNewRound 3 (New (Scenario.backendAt 1 4 4 None) Scenario.config0)
        = Returned c'
    ∧ current c' = Some (newRoundState (mkView 5 0) None None EmptyPreparedCertificate)
    ∧ state c' = StateAcceptRequest
    ∧ calls c' = [CallLog LvlTrace "Start the initial round";
                  CallProcessPendingRequests; CallProcessBacklog;
                  CallLog LvlDebug "New round"].
Proof.
  destruct (startNewRound_initial_round
              (New (Scenario.backendAt 1 4 4 None) Scenario.config0) 3 eq_refl)
    as (c' & Hrun & Hcur & _ & _ & Hst & _ & Hcalls).
  exists c'. split; [exact Hrun|]. split; [exact Hcur|]. split; [exact Hst|exact Hcalls].
Defined.

Lemma startNewRound_catch_up_witness :
  ∃ c', startNewRound 0 Scenario.headAtSeven = Returned c'
    ∧ calls c' = [CallSequenceMeterMark 3;
                  CallLog LvlTrace "Catch up to the latest proposal.";
                  CallDeleteMessageFromDisk 0 5;
                  CallProcessPendingRequests; CallProcessBacklog;
                  CallLog LvlDebug "New round"]
    ∧ consensusTimestamp c' = None.
Proof.
  destruct (startNewRound_catch_up Scenario.headAtSeven Scenario.waitingState 0 eq_refl)
    as (c' & Hrun & Hcalls & Ht & _); [by vm_compute|].
  exists c'. split; [exact Hrun|]. split; [exact Hcalls|exact Ht].
Defined.

Lemma round_change_without_preprepare_witness :
  ∃ c', startNewRound 1
          (Scenario.coreWith 1 StateWaitingForNewRound Scenario.waitingState 4 None
                             Scenario.roundChangesForOne)
        = Returned c'
    ∧ calls c' = [CallProcessPendingRequests; CallProcessBacklog;
                  CallLog LvlDebug "New round"]
    ∧ state c' = StateAcceptRequest.
Proof.
  destruct (round_change_without_preprepare
              (Scenario.coreWith 1 StateWaitingForNewRound Scenario.waitingState 4 None
                                 Scenario.roundChangesForOne)
              Scenario.waitingState Scenario.four Scenario.roundChangesForOne 1
              Scenario.certificateForOne eq_refl eq_refl eq_refl)
    as (c' & Hrun & Hcalls & Hst & _).
  - by vm_compute.
  - by vm_compute.
  - by vm_compute.
  - by vm_compute.
  - left. by vm_compute.
  - exists c'. split; [exact Hrun|]. split; [exact Hcalls|exact Hst].
Defined.

Lemma waitForDesiredRound_repeated_witness :
  ∃ c', waitForDesiredRound 3 Scenario.atFiveZero = Returned c'
    ∧ calls c' = [CallLog LvlDebug "Waiting for desired round";
                  CallProcessBacklog;
                  CallSendRoundChange 3]
    ∧ waitForDesiredRound 2 c' =
      Returned (logf LvlDebug
                  "New desired round not greater than current desired round" c').
Proof.
  apply (waitForDesiredRound_repeated Scenario.atFiveZero Scenario.waitingState
           Scenario.four 3 2 eq_refl eq_refl); by vm_compute.
Defined.

Lemma commit_bitmap_of_senders_witness :
  ∃ c' bitmap,
    commit Scenario.aggregate Scenario.sealLength
           (Scenario.coreAt 1 StatePrepared Scenario.committing 0 None)
    = Returned c'
    ∧ calls c' = [CallProcessBacklog;
                  CallBackendCommit (Scenario.block 1) bitmap
                    [x00; x00; x00; x00; x00; x00]]
    ∧ Z.testbit bitmap 1 = true
    ∧ state c' = StateCommitted.
Proof.
  destruct (commit_bitmap_of_senders Scenario.aggregate Scenario.sealLength
              (Scenario.coreAt 1 StatePrepared Scenario.committing 0 None)
              Scenario.committing Scenario.four (Scenario.block 1)
              [x00; x00; x00; x00; x00; x00] eq_refl eq_refl eq_refl)
    as (c' & bitmap & Hrun & Hcalls & _ & Hbits & _ & Hst & _).
  - intros m Hin. vm_compute in Hin.
    repeat (apply elem_of_cons in Hin as [->|Hin]);
      [eexists _, _; split; [vm_compute; reflexivity|done] ..|].
    inversion Hin.
  - by vm_compute.
  - exists c', bitmap. split; [exact Hrun|]. split; [exact Hcalls|].
    split; [|exact Hst].
    apply Hbits; [done|].
    exists (Scenario.commitMsg 2 (mkView 1 0) (Scenario.block 1)).
    split; [|by vm_compute].
    vm_compute. repeat first [apply list_elem_of_here | apply list_elem_of_further].
Defined.

Lemma commit_panics_witness :
  ∃ why, commit Scenario.aggregate Scenario.sealLength
           (Scenario.coreAt 1 StatePrepared Scenario.committingWithStranger 0 None)
         = Panicked why.
Proof.
  destruct (commit_panics Scenario.aggregate Scenario.sealLength
              (Scenario.coreAt 1 StatePrepared Scenario.committingWithStranger 0 None)
              Scenario.committingWithStranger Scenario.four (Scenario.block 1)
              eq_refl eq_refl eq_refl) as [Hstranger _].
  apply (Hstranger (Scenario.commitMsg 9 (mkView 1 0) (Scenario.block 1))).
  - vm_compute. repeat first [apply list_elem_of_here | apply list_elem_of_further].
  - left. eexists. vm_compute. reflexivity.
Defined.

Lemma PrepareCommittedSeal_injective_witness :
  length (PrepareCommittedSeal 101) = 33%nat
  ∧ (PrepareCommittedSeal 101 = PrepareCommittedSeal 777 -> 101%N = 777%N).
Proof.
  destruct (PrepareCommittedSeal_injective 101 777) as (Hlen & _ & _ & Hinj);
    [by vm_compute..|].
  split; [exact Hlen|exact Hinj].
Defined.

Lemma getPreprepare_first_of_highest_round_witness :
  getPreprepareWithRoundChangeCertificate 1 Scenario.proposerOfOne
  = Returned (Some (mkRequest (Some Scenario.preparedBlock)),
              Scenario.certificateForOne, None).
Proof.
  apply (getPreprepare_first_of_highest_round Scenario.proposerOfOne
           Scenario.waitingState Scenario.four Scenario.roundChangesForOne 1
           Scenario.certificateForOne
           [Scenario.roundChangeMsg 2 (mkView 5 1) EmptyPreparedCertificate;
            Scenario.roundChangeMsg 3 (mkView 5 1) EmptyPreparedCertificate]
           (Scenario.roundChangeMsg 1 (mkView 5 1)
              (Scenario.preparedCertificateFor (mkView 5 0) Scenario.preparedBlock))
           [] 0 Scenario.preparedBlock eq_refl eq_refl eq_refl).
  - by vm_compute.
  - by vm_compute.
  - by vm_compute.
  - done.
  - intros m rho p Hin Hc.
    repeat (apply elem_of_cons in Hin as [->|Hin]);
      [vm_compute in Hc; discriminate ..|].
    inversion Hin.
  - intros m rho p Hin. inversion Hin.
Defined.

(** * Properties of the EVM context (core/evm.go) *)

Section EvmProperties.
Import Evm.

Implicit Types (ref header : Header) (chain : ChainContext) (anc : list Header).

(** ** The answers of a walk *)

Lemma filter_none {A : Type} (P : A -> Prop) `{∀ x, Decision (P x)} (l : list A) :
  (∀ x, x ∈ l -> ¬ P x) -> filter P l = [].
Proof.
  induction l as [|x l IH]; intros Hnone; [reflexivity|].
  rewrite filter_cons_False by (apply Hnone; by left).
  apply IH. intros y Hin. apply Hnone. by right.
Qed.

Lemma hashOf_cons header anc n :
  hashOf (header :: anc) n
  = if decide (parentNumber header = n) then ParentHash header else hashOf anc n.
Proof.
  unfold hashOf. destruct (decide (parentNumber header = n)) as [Heq|Hne].
  - by rewrite filter_cons_True.
  - by rewrite filter_cons_False.
Qed.

Lemma coinbaseOf_cons header anc n :
  coinbaseOf (header :: anc) n
  = if decide (ownNumber header = n) then Coinbase header else coinbaseOf anc n.
Proof.
  unfold coinbaseOf. destruct (decide (ownNumber header = n)) as [Heq|Hne].
  - by rewrite filter_cons_True.
  - by rewrite filter_cons_False.
Qed.

Lemma hashOf_member anc : ∀ header,
  NoDup (parentNumber <$> anc) -> header ∈ anc ->
  hashOf anc (parentNumber header) = ParentHash header.
Proof.
  induction anc as [|x anc IH]; intros header Hnd Hin; [inversion Hin|].
  rewrite hashOf_cons. rewrite fmap_cons in Hnd. apply NoDup_cons in Hnd as [Hx Hnd].
  apply elem_of_cons in Hin as [->|Hin]; [by rewrite decide_True|].
  destruct (decide (parentNumber x = parentNumber header)) as [Heq|_]; [|by apply IH].
  exfalso. apply Hx. rewrite Heq. apply list_elem_of_fmap. by exists header.
Qed.

Lemma coinbaseOf_member anc : ∀ header,
  NoDup (ownNumber <$> anc) -> header ∈ anc ->
  coinbaseOf anc (ownNumber header) = Coinbase header.
Proof.
  induction anc as [|x anc IH]; intros header Hnd Hin; [inversion Hin|].
  rewrite coinbaseOf_cons. rewrite fmap_cons in Hnd.
  apply NoDup_cons in Hnd as [Hx Hnd].
  apply elem_of_cons in Hin as [->|Hin]; [by rewrite decide_True|].
  destruct (decide (ownNumber x = ownNumber header)) as [Heq|_]; [|by apply IH].
  exfalso. apply Hx. rewrite Heq. apply list_elem_of_fmap. by exists header.
Qed.

(** The loop of [GetHashFn] on a chain that ends: it returns the parent
    hash of the first header it visits whose parent has number [n], the
    zero hash when it visits none, and has cached what it visited. *)
Lemma hashLoop_returns chain n anc : ∀ hash number (cache : gmap Z Hash) fuel,
  Ancestors chain hash number anc ->
  (length anc <= fuel)%nat ->
  ∃ cache',
    hashLoop fuel chain n (GetHeader chain hash number) cache
    = Some (hashOf anc n, cache')
    ∧ (∀ k, is_Some (cache !! k) -> is_Some (cache' !! k))
    ∧ (∀ k v, cache' !! k = Some v ->
              cache !! k = Some v
              ∨ ∃ header, header ∈ anc ∧ parentNumber header = k
                          ∧ ParentHash header = v).
Proof.
  induction anc as [|header anc IH]; intros hash number cache fuel Hanc Hfuel.
  - inversion Hanc as [? ? Hnone|]; subst. rewrite Hnone.
    exists cache. destruct fuel; cbn; (split; [reflexivity|]); split; auto.
  - inversion Hanc as [|? ? ? ? Hsome Hrest]; subst. rewrite Hsome.
    destruct fuel as [|fuel]; [cbn in Hfuel; lia|]. cbn in Hfuel.
    cbn [hashLoop]. rewrite hashOf_cons.
    destruct (decide (n = parentNumber header)) as [->|Hne].
    + rewrite decide_True by reflexivity. eexists. split; [reflexivity|]. split.
      * intros k Hk. destruct (decide (k = parentNumber header)) as [->|Hk'].
        -- rewrite lookup_insert_eq. by eexists.
        -- by rewrite lookup_insert_ne.
      * intros k v Hk. destruct (decide (k = parentNumber header)) as [->|Hk'].
        -- rewrite lookup_insert_eq in Hk. injection Hk as <-.
           right. exists header. split; [by left|done].
        -- rewrite lookup_insert_ne in Hk by done. by left.
    + rewrite decide_False by done.
      destruct (IH (ParentHash header) (parentNumber header)
                   (<[parentNumber header := ParentHash header]> cache) fuel Hrest
                   ltac:(lia)) as (cache' & Hrun & Hkeep & Hfrom).
      exists cache'. split; [exact Hrun|]. split.
      * intros k Hk. apply Hkeep.
        destruct (decide (k = parentNumber header)) as [->|Hk'].
        -- rewrite lookup_insert_eq. by eexists.
        -- by rewrite lookup_insert_ne.
      * intros k v Hk. destruct (Hfrom k v Hk) as [Hold|(h & Hin & Hh)].
        -- destruct (decide (k = parentNumber header)) as [->|Hk'].
           ++ rewrite lookup_insert_eq in Hold. injection Hold as <-.
              right. exists header. split; [by left|done].
           ++ rewrite lookup_insert_ne in Hold by done. by left.
        -- right. exists h. split; [by right|exact Hh].
Qed.

Lemma coinbaseLoop_returns chain n anc : ∀ hash number (cache : gmap Z N) fuel,
  Ancestors chain hash number anc ->
  (length anc <= fuel)%nat ->
  ∃ cache',
    coinbaseLoop fuel chain n (GetHeader chain hash number) cache
    = Some (coinbaseOf anc n, cache')
    ∧ (∀ k, is_Some (cache !! k) -> is_Some (cache' !! k))
    ∧ (∀ k v, cache' !! k = Some v ->
              cache !! k = Some v
              ∨ ∃ header, header ∈ anc ∧ ownNumber header = k
                          ∧ Coinbase header = v).
Proof.
  induction anc as [|header anc IH]; intros hash number cache fuel Hanc Hfuel.
  - inversion Hanc as [? ? Hnone|]; subst. rewrite Hnone.
    exists cache. destruct fuel; cbn; (split; [reflexivity|]); split; auto.
  - inversion Hanc as [|? ? ? ? Hsome Hrest]; subst. rewrite Hsome.
    destruct fuel as [|fuel]; [cbn in Hfuel; lia|]. cbn in Hfuel.
    cbn [coinbaseLoop]. rewrite coinbaseOf_cons.
    destruct (decide (n = ownNumber header)) as [->|Hne].
    + rewrite decide_True by reflexivity. eexists. split; [reflexivity|]. split.
      * intros k Hk. destruct (decide (k = ownNumber header)) as [->|Hk'].
        -- rewrite lookup_insert_eq. by eexists.
        -- by rewrite lookup_insert_ne.
      * intros k v Hk. destruct (decide (k = ownNumber header)) as [->|Hk'].
        -- rewrite lookup_insert_eq in Hk. injection Hk as <-.
           right. exists header. split; [by left|done].
        -- rewrite lookup_insert_ne in Hk by done. by left.
    + rewrite decide_False by done.
      destruct (IH (ParentHash header) (parentNumber header)
                   (<[ownNumber header := Coinbase header]> cache) fuel Hrest
                   ltac:(lia)) as (cache' & Hrun & Hkeep & Hfrom).
      exists cache'. split; [exact Hrun|]. split.
      * intros k Hk. apply Hkeep.
        destruct (decide (k = ownNumber header)) as [->|Hk'].
        -- rewrite lookup_insert_eq. by eexists.
        -- by rewrite lookup_insert_ne.
      * intros k v Hk. destruct (Hfrom k v Hk) as [Hold|(h & Hin & Hh)].
        -- destruct (decide (k = ownNumber header)) as [->|Hk'].
           ++ rewrite lookup_insert_eq in Hold. injection Hold as <-.
              right. exists header. split; [by left|done].
           ++ rewrite lookup_insert_ne in Hold by done. by left.
        -- right. exists h. split; [by right|exact Hh].
Qed.
(** ** The first call *)

(** X14.  On a chain whose parent links from [ref] end, the first call of
    the closure of [GetHashFn(ref, chain)] returns within as many turns
    of its loop as the links are long: the parent hash of [ref] for the
    number before [ref], else the parent hash of the first ancestor whose
    parent has the number asked for, else the zero hash. *)
Theorem GetHashFn_first_call ref chain anc fuel n :
  Ancestors chain (ParentHash ref) (parentNumber ref) anc ->
  (length anc <= fuel)%nat ->
  ∃ f', GetHashFunc_call fuel (GetHashFn ref chain) n
        = Some (hashOf (ref :: anc) n, f')
    ∧ (n = parentNumber ref -> hashOf (ref :: anc) n = ParentHash ref)
    ∧ ((∀ header, header ∈ ref :: anc -> parentNumber header ≠ n) ->
       hashOf (ref :: anc) n = 0%N).
Proof.
  intros Hanc Hfuel. unfold GetHashFunc_call, GetHashFn. cbn.
  rewrite hashOf_cons.
  assert (Hmiss : (∀ header, header ∈ ref :: anc -> parentNumber header ≠ n) ->
                  (if decide (parentNumber ref = n) then ParentHash ref
                   else hashOf anc n) = 0%N).
  { intros Hnone. rewrite decide_False by (apply Hnone; by left).
    unfold hashOf. rewrite filter_none; [reflexivity|].
    intros h Hin. apply Hnone. by right. }
  destruct (decide (parentNumber ref = n)) as [<-|Hne].
  - rewrite lookup_singleton_eq. eexists. split; [reflexivity|]. by split.
  - rewrite lookup_singleton_ne by done.
    destruct (hashLoop_returns chain n anc _ _ {[parentNumber ref := ParentHash ref]}
                fuel Hanc Hfuel) as (cache' & Hrun & _).
    rewrite Hrun. eexists. split; [reflexivity|]. split; [congruence|exact Hmiss].
Qed.

(** ** Calls after the first: the cache *)

Lemma GetHashFunc_call_coherent ref chain anc fuel n cache :
  Ancestors chain (ParentHash ref) (parentNumber ref) anc ->
  NoDup (parentNumber <$> ref :: anc) ->
  (length anc <= fuel)%nat ->
  (∀ m, cache = Some m ->
        m !! parentNumber ref = Some (ParentHash ref)
        ∧ ∀ k v, m !! k = Some v -> hashOf (ref :: anc) k = v) ->
  ∃ m', GetHashFunc_call fuel (mkGetHashFunc ref chain cache) n
        = Some (hashOf (ref :: anc) n, mkGetHashFunc ref chain (Some m'))
    ∧ m' !! parentNumber ref = Some (ParentHash ref)
    ∧ ∀ k v, m' !! k = Some v -> hashOf (ref :: anc) k = v.
Proof.
  intros Hanc Hnd Hfuel Hcache. unfold GetHashFunc_call. cbn.
  set (m := match cache with
            | Some cache => cache
            | None => {[parentNumber ref := ParentHash ref]}
            end).
  assert (Hm : m !! parentNumber ref = Some (ParentHash ref)
               ∧ ∀ k v, m !! k = Some v -> hashOf (ref :: anc) k = v).
  { subst m. destruct cache as [m|]; [by apply Hcache|].
    split; [apply lookup_singleton_eq|]. intros k v Hk.
    apply lookup_singleton_Some in Hk as [<- <-].
    rewrite hashOf_cons. by rewrite decide_True. }
  destruct Hm as [Href Hall].
  destruct (m !! n) as [hash|] eqn:Hn.
  - exists m. rewrite (Hall n hash Hn). by repeat split.
  - destruct (hashLoop_returns chain n anc _ _ m fuel Hanc Hfuel)
      as (cache' & Hrun & Hkeep & Hfrom).
    rewrite Hrun. exists cache'. split.
    + rewrite hashOf_cons. rewrite decide_False; [reflexivity|].
      intros <-. rewrite Href in Hn. discriminate.
    + split.
      * destruct (Hkeep (parentNumber ref)) as [v Hv]; [by eexists|].
        destruct (Hfrom _ _ Hv) as [Hold|(h & Hin & Hk & Hv')].
        -- congruence.
        -- rewrite Hv, <- Hv'. f_equal.
           rewrite <- (hashOf_member (ref :: anc) h Hnd ltac:(by right)).
           rewrite Hk, hashOf_cons. by rewrite decide_True.
      * intros k v Hk. destruct (Hfrom k v Hk) as [Hold|(h & Hin & <- & <-)].
        -- by apply Hall.
        -- apply hashOf_member; [exact Hnd|by right].
Qed.

Lemma GetHashFunc_calls_coherent ref chain anc fuel ns :
  Ancestors chain (ParentHash ref) (parentNumber ref) anc ->
  NoDup (parentNumber <$> ref :: anc) ->
  (length anc <= fuel)%nat ->
  GetHashFunc_calls fuel (GetHashFn ref chain) ns
  = Some (hashOf (ref :: anc) <$> ns).
Proof.
  intros Hanc Hnd Hfuel. unfold GetHashFn.
  assert (Hstart : ∀ m, (None : option (gmap Z N)) = Some m ->
            m !! parentNumber ref = Some (ParentHash ref)
            ∧ ∀ k v, m !! k = Some v -> hashOf (ref :: anc) k = v) by done.
  revert Hstart. generalize (None : option (gmap Z N)).
  induction ns as [|n ns IH]; intros cache Hcache; [reflexivity|].
  cbn [GetHashFunc_calls].
  destruct (GetHashFunc_call_coherent ref chain anc fuel n cache Hanc Hnd Hfuel Hcache)
    as (m' & Hrun & Href & Hall).
  rewrite Hrun, IH; [reflexivity|].
  intros m [= <-]. by split.
Qed.

(** X15.  When no two of [ref] and its ancestors have the same number,
    the closure of [GetHashFn] answers every call of a series as its
    first call would, the cache it fills along the way changing no
    answer: for the number before any of these headers, the parent hash
    of that header. *)
Theorem GetHashFn_cache_keeps_answers ref chain anc fuel ns :
  Ancestors chain (ParentHash ref) (parentNumber ref) anc ->
  NoDup (parentNumber <$> ref :: anc) ->
  (length anc <= fuel)%nat ->
  GetHashFunc_calls fuel (GetHashFn ref chain) ns
  = Some (hashOf (ref :: anc) <$> ns)
  ∧ ∀ header, header ∈ ref :: anc ->
      hashOf (ref :: anc) (parentNumber header) = ParentHash header.
Proof.
  intros Hanc Hnd Hfuel. split.
  - by apply GetHashFunc_calls_coherent.
  - intros header Hin. by apply hashOf_member.
Qed.

Lemma GetCoinbaseFunc_call_coherent ref chain anc fuel n cache :
  Ancestors chain (ParentHash ref) (parentNumber ref) anc ->
  NoDup (ownNumber <$> ref :: anc) ->
  (length anc <= fuel)%nat ->
  (∀ m, cache = Some m ->
        m !! ownNumber ref = Some (Coinbase ref)
        ∧ ∀ k v, m !! k = Some v -> coinbaseOf (ref :: anc) k = v) ->
  ∃ m', GetCoinbaseFunc_call fuel (mkGetCoinbaseFunc ref chain cache) n
        = Some (coinbaseOf (ref :: anc) n, mkGetCoinbaseFunc ref chain (Some m'))
    ∧ m' !! ownNumber ref = Some (Coinbase ref)
    ∧ ∀ k v, m' !! k = Some v -> coinbaseOf (ref :: anc) k = v.
Proof.
  intros Hanc Hnd Hfuel Hcache. unfold GetCoinbaseFunc_call. cbn.
  set (m := match cache with
            | Some cache => cache
            | None => {[ownNumber ref := Coinbase ref]}
            end).
  assert (Hm : m !! ownNumber ref = Some (Coinbase ref)
               ∧ ∀ k v, m !! k = Some v -> coinbaseOf (ref :: anc) k = v).
  { subst m. destruct cache as [m|]; [by apply Hcache|].
    split; [apply lookup_singleton_eq|]. intros k v Hk.
    apply lookup_singleton_Some in Hk as [<- <-].
    rewrite coinbaseOf_cons. by rewrite decide_True. }
  destruct Hm as [Href Hall].
  destruct (m !! n) as [address|] eqn:Hn.
  - exists m. rewrite (Hall n address Hn). by repeat split.
  - destruct (coinbaseLoop_returns chain n anc _ _ m fuel Hanc Hfuel)
      as (cache' & Hrun & Hkeep & Hfrom).
    rewrite Hrun. exists cache'. split.
    + rewrite coinbaseOf_cons. rewrite decide_False; [reflexivity|].
      intros <-. rewrite Href in Hn. discriminate.
    + split.
      * destruct (Hkeep (ownNumber ref)) as [v Hv]; [by eexists|].
        destruct (Hfrom _ _ Hv) as [Hold|(h & Hin & Hk & Hv')].
        -- congruence.
        -- rewrite Hv, <- Hv'. f_equal.
           rewrite <- (coinbaseOf_member (ref :: anc) h Hnd ltac:(by right)).
           rewrite Hk, coinbaseOf_cons. by rewrite decide_True.
      * intros k v Hk. destruct (Hfrom k v Hk) as [Hold|(h & Hin & <- & <-)].
        -- by apply Hall.
        -- apply coinbaseOf_member; [exact Hnd|by right].
Qed.

Lemma GetCoinbaseFunc_calls_coherent ref chain anc fuel ns :
  Ancestors chain (ParentHash ref) (parentNumber ref) anc ->
  NoDup (ownNumber <$> ref :: anc) ->
  (length anc <= fuel)%nat ->
  GetCoinbaseFunc_calls fuel (GetCoinbaseFn ref chain) ns
  = Some (coinbaseOf (ref :: anc) <$> ns).
Proof.
  intros Hanc Hnd Hfuel. unfold GetCoinbaseFn.
  assert (Hstart : ∀ m, (None : option (gmap Z N)) = Some m ->
            m !! ownNumber ref = Some (Coinbase ref)
            ∧ ∀ k v, m !! k = Some v -> coinbaseOf (ref :: anc) k = v) by done.
  revert Hstart. generalize (None : option (gmap Z N)).
  induction ns as [|n ns IH]; intros cache Hcache; [reflexivity|].
  cbn [GetCoinbaseFunc_calls].
  destruct (GetCoinbaseFunc_call_coherent ref chain anc fuel n cache
              Hanc Hnd Hfuel Hcache) as (m' & Hrun & Href & Hall).
  rewrite Hrun, IH; [reflexivity|].
  intros m [= <-]. by split.
Qed.

(** X16.  The closure of [GetCoinbaseFn(ref, chain)], on a chain whose
    parent links from [ref] end and on which no two of [ref] and its
    ancestors have the same number: every call of a series returns, with
    the coinbase of [ref] for the number of [ref] itself, else the
    coinbase of the ancestor with the number asked for, else the zero
    address; the cache changes no answer. *)
Theorem GetCoinbaseFn_cache_keeps_answers ref chain anc fuel ns :
  Ancestors chain (ParentHash ref) (parentNumber ref) anc ->
  NoDup (ownNumber <$> ref :: anc) ->
  (length anc <= fuel)%nat ->
  GetCoinbaseFunc_calls fuel (GetCoinbaseFn ref chain) ns
  = Some (coinbaseOf (ref :: anc) <$> ns)
  ∧ coinbaseOf (ref :: anc) (ownNumber ref) = Coinbase ref
  ∧ (∀ header, header ∈ anc ->
       coinbaseOf (ref :: anc) (ownNumber header) = Coinbase header)
  ∧ (∀ n, (∀ header, header ∈ ref :: anc -> ownNumber header ≠ n) ->
          coinbaseOf (ref :: anc) n = 0%N).
Proof.
  intros Hanc Hnd Hfuel. split; [|split; [|split]].
  - by apply GetCoinbaseFunc_calls_coherent.
  - rewrite coinbaseOf_cons. by rewrite decide_True.
  - intros header Hin. apply coinbaseOf_member; [exact Hnd|by right].
  - intros n Hnone. unfold coinbaseOf.
    rewrite filter_none; [reflexivity|].
    intros h Hin. by apply Hnone.
Qed.

(** ** A chain that does not end *)

Lemma hashLoop_runs_on chain n :
  (∀ hash number, ∃ header, GetHeader chain hash number = Some header
                            ∧ parentNumber header ≠ n) ->
  ∀ fuel header cache,
    parentNumber header ≠ n ->
    hashLoop fuel chain n (Some header) cache = None.
Proof.
  intros Hchain. induction fuel as [|fuel IH]; intros header cache Hne;
    [reflexivity|].
  cbn [hashLoop]. rewrite decide_False by congruence.
  destruct (Hchain (ParentHash header) (parentNumber header)) as (next & -> & Hnext).
  by apply IH.
Qed.

(** X17.  The loop of the closure of [GetHashFn] has no bound of its own:
    on a chain that answers every request with a header, none of which
    has the number after the one asked for, a call has not returned after
    any number of turns.  The number before [ref] is answered from the
    cache all the same, without a request to the chain; for a [ref] of
    number 0 that number is 2^64 - 1. *)
Theorem GetHashFn_unbounded_walk ref chain n :
  (∀ hash number, ∃ header, GetHeader chain hash number = Some header
                            ∧ parentNumber header ≠ n) ->
  n ≠ parentNumber ref ->
  (∀ fuel, GetHashFunc_call fuel (GetHashFn ref chain) n = None)
  ∧ (∀ fuel, ∃ f', GetHashFunc_call fuel (GetHashFn ref chain) (parentNumber ref)
                   = Some (ParentHash ref, f'))
  ∧ (Number ref = 0 -> parentNumber ref = 2 ^ 64 - 1).
Proof.
  intros Hchain Hne. split; [|split].
  - intros fuel. unfold GetHashFunc_call, GetHashFn. cbn.
    rewrite lookup_singleton_ne by done.
    destruct (Hchain (ParentHash ref) (parentNumber ref)) as (header & -> & Hh).
    by rewrite (hashLoop_runs_on chain n Hchain).
  - intros fuel. unfold GetHashFunc_call, GetHashFn. cbn.
    rewrite lookup_singleton_eq. by eexists.
  - intros H0. unfold parentNumber. rewrite H0. reflexivity.
Qed.
(** ** A chain numbered as chains are *)

Lemma sub64_pred k : 0 < k < 2 ^ 64 -> sub64 k 1 = k - 1.
Proof. intros Hk. unfold sub64. apply Z.mod_small. lia. Qed.

Lemma sub64_inj x y :
  0 <= x < 2 ^ 64 -> 0 <= y < 2 ^ 64 -> sub64 x 1 = sub64 y 1 -> x = y.
Proof.
  intros Hx Hy. unfold sub64.
  destruct (decide (x = 0)) as [->|Hx0]; destruct (decide (y = 0)) as [->|Hy0];
    try reflexivity.
  - rewrite (Z.mod_small (y - 1)) by lia. change ((0 - 1) mod 2 ^ 64) with (2 ^ 64 - 1).
    lia.
  - rewrite (Z.mod_small (x - 1)) by lia. change ((0 - 1) mod 2 ^ 64) with (2 ^ 64 - 1).
    lia.
  - rewrite !Z.mod_small by lia. lia.
Qed.

(** On a numbered chain without a block 2^64 - 1 the parent links from
    any request end, after at most one header per number down to 0. *)
Lemma numbered_ancestors chain :
  numbered chain ->
  (∀ hash, GetHeader chain hash (2 ^ 64 - 1) = None) ->
  ∀ (d : nat) hash,
    Z.of_nat d < 2 ^ 64 - 1 ->
    ∃ anc, Ancestors chain hash (Z.of_nat d) anc
      ∧ (length anc <= S d)%nat
      ∧ Forall (fun h => 0 <= ownNumber h <= Z.of_nat d) anc
      ∧ NoDup (ownNumber <$> anc).
Proof.
  intros Hnum Htop. induction d as [|d IH]; intros hash Hd.
  - destruct (GetHeader chain hash 0) as [h|] eqn:Hget.
    + pose proof (Hnum _ _ _ Hget) as Hown.
      assert (Hpn : parentNumber h = 2 ^ 64 - 1).
      { unfold parentNumber. unfold ownNumber in Hown. rewrite Hown. reflexivity. }
      exists [h]. split; [|split; [|split]].
      * eapply Ancestors_step; [exact Hget|]. rewrite Hpn.
        apply Ancestors_end. apply Htop.
      * cbn. lia.
      * apply Forall_singleton. rewrite Hown. cbn. lia.
      * cbn. apply NoDup_singleton.
    + exists []. split; [by apply Ancestors_end|].
      split; [cbn; lia|]. split; [constructor|constructor].
  - destruct (GetHeader chain hash (Z.of_nat (S d))) as [h|] eqn:Hget.
    + pose proof (Hnum _ _ _ Hget) as Hown.
      assert (Hpn : parentNumber h = Z.of_nat d).
      { unfold parentNumber. unfold ownNumber in Hown. rewrite Hown.
        rewrite sub64_pred by lia. lia. }
      destruct (IH (ParentHash h) ltac:(lia)) as (anc & Hanc & Hlen & Hrange & Hnd).
      exists (h :: anc). split; [|split; [|split]].
      * eapply Ancestors_step; [exact Hget|]. rewrite Hpn. exact Hanc.
      * cbn. lia.
      * apply Forall_cons. split; [rewrite Hown; lia|].
        eapply Forall_impl; [exact Hrange|]. cbn. intros x Hx. lia.
      * rewrite fmap_cons. apply NoDup_cons. split; [|exact Hnd].
        intros Hin. apply list_elem_of_fmap in Hin as (x & Hx & Hin).
        rewrite Forall_forall in Hrange. specialize (Hrange x Hin). lia.
    + exists []. split; [by apply Ancestors_end|].
      split; [cbn; lia|]. split; [constructor|constructor].
Qed.

(** X18.  On a chain that answers a request for a number with a header of
    that number and holds no block 2^64 - 1, for a [ref] of a number from
    1 up, [Number ref] turns of the loop are enough for every call of
    either closure; the answers do not depend on the calls made before;
    [GetHashFn] gives the parent hash of [ref] for the number before
    [ref] and the zero hash for the number of [ref] and every number
    after it, while [GetCoinbaseFn] gives the coinbase of [ref] for the
    number of [ref] and the zero address for every number after it. *)
Theorem closures_on_numbered_chain ref chain fuel ns :
  numbered chain ->
  (∀ hash, GetHeader chain hash (2 ^ 64 - 1) = None) ->
  0 < Number ref < 2 ^ 64 ->
  (Z.to_nat (Number ref) <= fuel)%nat ->
  ∃ anc,
    Ancestors chain (ParentHash ref) (parentNumber ref) anc
    ∧ GetHashFunc_calls fuel (GetHashFn ref chain) ns
      = Some (hashOf (ref :: anc) <$> ns)
    ∧ GetCoinbaseFunc_calls fuel (GetCoinbaseFn ref chain) ns
      = Some (coinbaseOf (ref :: anc) <$> ns)
    ∧ hashOf (ref :: anc) (Number ref - 1) = ParentHash ref
    ∧ coinbaseOf (ref :: anc) (Number ref) = Coinbase ref
    ∧ (∀ n, Number ref <= n < 2 ^ 64 - 1 -> hashOf (ref :: anc) n = 0%N)
    ∧ (∀ n, Number ref < n -> coinbaseOf (ref :: anc) n = 0%N).
Proof.
  intros Hnum Htop Href Hfuel.
  assert (Hown : ownNumber ref = Number ref).
  { unfold ownNumber. apply BigIntFacts.Uint64_small. lia. }
  assert (Hpn : parentNumber ref = Number ref - 1).
  { unfold parentNumber. fold (ownNumber ref). rewrite Hown. apply sub64_pred. lia. }
  destruct (numbered_ancestors chain Hnum Htop (Z.to_nat (Number ref - 1))
              (ParentHash ref) ltac:(lia)) as (anc & Hanc & Hlen & Hrange & Hnd).
  rewrite Z2Nat.id in Hanc, Hrange by lia.
  rewrite <- Hpn in Hanc.
  assert (Hlen' : (length anc <= fuel)%nat) by lia.
  assert (Hnd_own : NoDup (ownNumber <$> ref :: anc)).
  { rewrite fmap_cons. apply NoDup_cons. split; [|exact Hnd].
    intros Hin. apply list_elem_of_fmap in Hin as (x & Hx & Hin).
    rewrite Forall_forall in Hrange. specialize (Hrange x Hin). lia. }
  assert (Hrange' : ∀ x, x ∈ ownNumber <$> ref :: anc -> 0 <= x < 2 ^ 64).
  { intros x Hin. apply list_elem_of_fmap in Hin as (h & -> & Hin).
    apply elem_of_cons in Hin as [->|Hin]; [lia|].
    rewrite Forall_forall in Hrange. specialize (Hrange h Hin). lia. }
  assert (Hnd_pn : NoDup (parentNumber <$> ref :: anc)).
  { change parentNumber with ((fun x => sub64 x 1) ∘ ownNumber).
    rewrite list_fmap_compose. apply NoDup_fmap_2_strong; [|exact Hnd_own].
    intros x y Hx Hy. apply sub64_inj; by apply Hrange'. }
  exists anc. split; [exact Hanc|].
  split; [by apply GetHashFunc_calls_coherent|].
  split; [by apply GetCoinbaseFunc_calls_coherent|].
  split; [rewrite hashOf_cons; by rewrite decide_True|].
  split; [rewrite coinbaseOf_cons; by rewrite decide_True|].
  split.
  - intros n Hn. unfold hashOf. rewrite filter_none; [reflexivity|].
    intros h Hin. apply elem_of_cons in Hin as [->|Hin]; [lia|].
    rewrite Forall_forall in Hrange. specialize (Hrange h Hin).
    unfold parentNumber. fold (ownNumber h).
    destruct (decide (ownNumber h = 0)) as [->|Hz].
    + change (sub64 0 1) with (2 ^ 64 - 1). lia.
    + rewrite sub64_pred by lia. lia.
  - intros n Hn. unfold coinbaseOf. rewrite filter_none; [reflexivity|].
    intros h Hin. apply elem_of_cons in Hin as [->|Hin]; [lia|].
    rewrite Forall_forall in Hrange. specialize (Hrange h Hin). lia.
Qed.
(** ** The context of a block *)

(** X19.  The context [NewEVMContext] builds for a header of a number
    from 1 up: its [GetHash] answers the number before the block with the
    parent hash of the header and its [GetCoinbase] answers the number of
    the block with the coinbase of the header, both without a request to
    the chain; its own [Coinbase] is the author when one is given, whatever
    the header says, and else the address the engine names for the header,
    an error of the engine being ignored. *)
Theorem NewEVMContext_closures msg header chain author fuel :
  0 < Number header < 2 ^ 64 ->
  let ctx := NewEVMContext msg header chain author in
  (∃ f, GetHashFunc_call fuel (GetHash ctx) (BlockNumber ctx - 1)
        = Some (ParentHash header, f))
  ∧ (∃ f, GetCoinbaseFunc_call fuel (GetCoinbase ctx) (BlockNumber ctx)
          = Some (Coinbase header, f))
  ∧ ContextCoinbase ctx = default (EngineAuthor chain header).1 author
  ∧ Origin ctx = From msg
  ∧ ContextGasPrice ctx = GasPrice msg.
Proof.
  intros Hn ctx.
  assert (Hown : ownNumber header = Number header).
  { unfold ownNumber. apply BigIntFacts.Uint64_small. lia. }
  assert (Hpn : parentNumber header = Number header - 1).
  { unfold parentNumber. fold (ownNumber header). rewrite Hown. apply sub64_pred. lia. }
  split; [|split; [|split; [|split]]].
  - subst ctx. unfold GetHashFunc_call, NewEVMContext, GetHashFn. cbn.
    rewrite <- Hpn, lookup_singleton_eq. by eexists.
  - subst ctx. unfold GetCoinbaseFunc_call, NewEVMContext, GetCoinbaseFn. cbn.
    rewrite <- Hown, lookup_singleton_eq. by eexists.
  - subst ctx. by destruct author.
  - reflexivity.
  - reflexivity.
Qed.
End EvmProperties.

(** ** Transfers *)

Section Transfers.
Context {DB : Type} `{Evm.StateDB DB}.

(** X20.  On a state database that keeps accounts, [Transfer] takes the
    amount from the sender and gives it to the recipient and touches no
    other balance: the two balances together are what they were, and a
    transfer to oneself changes nothing. *)
Theorem Transfer_moves_amount (db : DB) sender recipient amount account :
  accounting DB ->
  Evm.GetBalance (Evm.Transfer db sender recipient amount) account
  = Evm.GetBalance db account
    - (if decide (sender = account) then amount else 0)
    + (if decide (recipient = account) then amount else 0)
  ∧ (sender = recipient ->
     Evm.GetBalance (Evm.Transfer db sender recipient amount) account
     = Evm.GetBalance db account)
  ∧ (sender ≠ recipient ->
     Evm.GetBalance (Evm.Transfer db sender recipient amount) sender
     + Evm.GetBalance (Evm.Transfer db sender recipient amount) recipient
     = Evm.GetBalance db sender + Evm.GetBalance db recipient).
Proof.
  intros Hacc.
  assert (Hbal : ∀ x,
            Evm.GetBalance (Evm.Transfer db sender recipient amount) x
            = Evm.GetBalance db x
              - (if decide (sender = x) then amount else 0)
              + (if decide (recipient = x) then amount else 0)).
  { intros x. unfold Evm.Transfer.
    destruct (Hacc (Evm.SubBalance db sender amount) recipient amount x) as [-> _].
    destruct (Hacc db sender amount x) as [_ ->].
    destruct (decide (recipient = x)); destruct (decide (sender = x)); lia. }
  split; [apply Hbal|]. split.
  - intros <-. rewrite Hbal. destruct (decide (sender = account)); lia.
  - intros Hne. rewrite !Hbal.
    rewrite (decide_True (P := sender = sender)) by reflexivity.
    rewrite (decide_True (P := recipient = recipient)) by reflexivity.
    rewrite (decide_False (P := recipient = sender)) by congruence.
    rewrite (decide_False (P := sender = recipient)) by congruence.
    lia.
Qed.

(** X21.  [CanTransfer] holds exactly when the balance covers the amount.
    [Transfer] makes no such check of its own: after a transfer to another
    account the sender's balance is not negative when [CanTransfer] held
    before, and negative when it did not. *)
Theorem CanTransfer_guards_sender (db : DB) sender recipient amount :
  accounting DB ->
  (Evm.CanTransfer db sender amount = true <-> amount <= Evm.GetBalance db sender)
  ∧ (sender ≠ recipient ->
     Evm.CanTransfer db sender amount = true ->
     0 <= Evm.GetBalance (Evm.Transfer db sender recipient amount) sender)
  ∧ (sender ≠ recipient ->
     Evm.CanTransfer db sender amount = false ->
     Evm.GetBalance (Evm.Transfer db sender recipient amount) sender < 0).
Proof.
  intros Hacc.
  assert (Hcan : Evm.CanTransfer db sender amount = true
                 <-> amount <= Evm.GetBalance db sender).
  { unfold Evm.CanTransfer. rewrite bool_decide_eq_true. apply BigIntFacts.Cmp_ge. }
  assert (Hafter : sender ≠ recipient ->
            Evm.GetBalance (Evm.Transfer db sender recipient amount) sender
            = Evm.GetBalance db sender - amount).
  { intros Hne. unfold Evm.Transfer.
    destruct (Hacc (Evm.SubBalance db sender amount) recipient amount sender) as [-> _].
    destruct (Hacc db sender amount sender) as [_ ->].
    rewrite decide_False by congruence. rewrite decide_True by reflexivity.
    reflexivity. }
  split; [exact Hcan|]. split.
  - intros Hne Htrue. rewrite (Hafter Hne). apply Hcan in Htrue. lia.
  - intros Hne Hfalse. rewrite (Hafter Hne).
    assert (Hnot : ¬ amount <= Evm.GetBalance db sender).
    { intros Hle. apply Hcan in Hle. congruence. }
    lia.
Qed.
End Transfers.

(** * Properties of the minimum client version check *)

Section VersionProperties.
Context {DB : Type}.
Variable MakeStaticCall : option Evm.Header -> option DB -> Err + Z * Z * Z.
Variable VersionInfo_Cmp :
  BlockchainParameters.VersionInfo -> BlockchainParameters.VersionInfo -> Z.
Variable CurrentVersionInfo : BlockchainParameters.VersionInfo.

(** X22.  [GetMinimumVersion] passes an error of the contract call on and
    otherwise reports each of the three numbers the contract answers
    modulo 2^64.  [CheckMinimumVersion] shuts the client down (after ten
    seconds) only when the call succeeded and the current version compares
    below the version read; when the call fails it logs a warning and
    does nothing else. *)
Theorem CheckMinimumVersion_fails_open header state :
  (∀ e, MakeStaticCall header state = inl e ->
        BlockchainParameters.GetMinimumVersion MakeStaticCall header state = inl e
        ∧ BlockchainParameters.CheckMinimumVersion MakeStaticCall VersionInfo_Cmp
            CurrentVersionInfo header state
          = [BlockchainParameters.LogWarn "Error checking client version"])
  ∧ (∀ major minor patch,
       MakeStaticCall header state = inr (major, minor, patch) ->
       0 <= major -> 0 <= minor -> 0 <= patch ->
       BlockchainParameters.GetMinimumVersion MakeStaticCall header state
       = inr (BlockchainParameters.mkVersionInfo
                (major mod 2 ^ 64) (minor mod 2 ^ 64) (patch mod 2 ^ 64)))
  ∧ (∀ text,
       BlockchainParameters.LogCrit text
       ∈ BlockchainParameters.CheckMinimumVersion MakeStaticCall VersionInfo_Cmp
           CurrentVersionInfo header state ->
       ∃ version,
         BlockchainParameters.GetMinimumVersion MakeStaticCall header state
         = inr version
         ∧ VersionInfo_Cmp CurrentVersionInfo version = -1).
Proof.
  unfold BlockchainParameters.CheckMinimumVersion,
    BlockchainParameters.GetMinimumVersion.
  split; [|split].
  - intros e ->. by split.
  - intros major minor patch -> Hmajor Hminor Hpatch.
    unfold BigInt.Uint64. by rewrite !Z.abs_eq by assumption.
  - intros text.
    destruct (MakeStaticCall header state) as [e|[[major minor] patch]].
    + intros Hin. apply list_elem_of_singleton in Hin. discriminate.
    + destruct (decide _) as [Hcmp|_].
      * intros _. eexists. split; [reflexivity|exact Hcmp].
      * intros Hin. inversion Hin.
Qed.
End VersionProperties.

(** * The properties of the EVM context at work *)

Lemma tenBlocks_numbered : numbered EvmScenario.tenBlocks.
Proof.
  intros hash number header. cbn.
  destruct (decide _) as [[Hrange _]|_]; [|discriminate].
  intros [= <-]. unfold Evm.ownNumber. cbn. apply BigIntFacts.Uint64_small. lia.
Qed.

Lemma tenBlocks_top hash : Evm.GetHeader EvmScenario.tenBlocks hash (2 ^ 64 - 1) = None.
Proof. cbn. rewrite decide_False; [reflexivity|]. intros [Hrange _]. lia. Qed.

(** The ancestors of block 3 on the chain of ten blocks. *)
Lemma tenBlocks_ancestors_of_three :
  Ancestors EvmScenario.tenBlocks
    (Evm.ParentHash (EvmScenario.headerAt 3)) (Evm.parentNumber (EvmScenario.headerAt 3))
    [EvmScenario.headerAt 2; EvmScenario.headerAt 1; EvmScenario.headerAt 0].
Proof.
  repeat (eapply Ancestors_step; [by vm_compute|]).
  apply Ancestors_end. by vm_compute.
Qed.

Lemma ledger_accounting : accounting (gmap N Z).
Proof.
  intros db a x b. cbn. split.
  - destruct (decide (a = b)) as [->|Hne].
    + by rewrite lookup_insert_eq.
    + by rewrite lookup_insert_ne.
  - destruct (decide (a = b)) as [->|Hne].
    + by rewrite lookup_insert_eq.
    + by rewrite lookup_insert_ne.
Qed.

Lemma GetHashFn_first_call_witness :
  ∃ f', Evm.GetHashFunc_call 3 (Evm.GetHashFn (EvmScenario.headerAt 3)
                                              EvmScenario.tenBlocks) 0
        = Some (1000%N, f').
Proof.
  destruct (GetHashFn_first_call (EvmScenario.headerAt 3) EvmScenario.tenBlocks _ 3 0
              tenBlocks_ancestors_of_three) as (f' & Hrun & _); [cbn; lia|].
  exists f'. exact Hrun.
Defined.

Lemma GetHashFn_cache_keeps_answers_witness :
  Evm.GetHashFunc_calls 3 (Evm.GetHashFn (EvmScenario.headerAt 3) EvmScenario.tenBlocks)
    [0; 2; 0; 7; 1]
  = Some [1000%N; 1002%N; 1000%N; 0%N; 1001%N].
Proof.
  destruct (GetHashFn_cache_keeps_answers (EvmScenario.headerAt 3)
              EvmScenario.tenBlocks _ 3 [0; 2; 0; 7; 1]
              tenBlocks_ancestors_of_three) as [Hcalls _].
  - apply (bool_decide_unpack _). by vm_compute.
  - cbn. lia.
  - exact Hcalls.
Defined.

Lemma GetCoinbaseFn_cache_keeps_answers_witness :
  Evm.GetCoinbaseFunc_calls 3
    (Evm.GetCoinbaseFn (EvmScenario.headerAt 3) EvmScenario.tenBlocks) [3; 0; 3; 4]
  = Some [1%N; 1%N; 1%N; 0%N].
Proof.
  destruct (GetCoinbaseFn_cache_keeps_answers (EvmScenario.headerAt 3)
              EvmScenario.tenBlocks _ 3 [3; 0; 3; 4]
              tenBlocks_ancestors_of_three) as [Hcalls _].
  - apply (bool_decide_unpack _). by vm_compute.
  - cbn. lia.
  - exact Hcalls.
Defined.

Lemma GetHashFn_unbounded_walk_witness :
  Evm.GetHashFunc_call 1000
    (Evm.GetHashFn (EvmScenario.headerAt 10) EvmScenario.looping) 5 = None.
Proof.
  destruct (GetHashFn_unbounded_walk (EvmScenario.headerAt 10) EvmScenario.looping 5)
    as [Hnever _].
  - intros hash number. exists (EvmScenario.headerAt 3). split; [reflexivity|].
    by vm_compute.
  - by vm_compute.
  - apply Hnever.
Defined.

Lemma closures_on_numbered_chain_witness :
  Evm.GetHashFunc_calls 3 (Evm.GetHashFn (EvmScenario.headerAt 3) EvmScenario.tenBlocks)
    [2; 3]
  = Some [1002%N; 0%N].
Proof.
  destruct (closures_on_numbered_chain (EvmScenario.headerAt 3) EvmScenario.tenBlocks
              3 [2; 3] tenBlocks_numbered tenBlocks_top)
    as (anc & _ & Hcalls & _ & Hparent & _ & Hzero & _).
  - by vm_compute.
  - cbn. lia.
  - rewrite Hcalls. cbn [fmap list_fmap].
    change 2 with (Evm.Number (EvmScenario.headerAt 3) - 1) at 1.
    rewrite Hparent. rewrite (Hzero 3) by (by vm_compute). reflexivity.
Defined.

Lemma NewEVMContext_closures_witness :
  let ctx := Evm.NewEVMContext (Evm.mkTxMessage 5 1) (EvmScenario.headerAt 3)
               EvmScenario.tenBlocks (Some 77%N) in
  Evm.ContextCoinbase ctx = 77%N
  ∧ ∃ f, Evm.GetCoinbaseFunc_call 0 (Evm.GetCoinbase ctx) 3 = Some (1%N, f).
Proof.
  destruct (NewEVMContext_closures (Evm.mkTxMessage 5 1) (EvmScenario.headerAt 3)
              EvmScenario.tenBlocks (Some 77%N) 0)
    as (_ & Hcoinbase & Hauthor & _); [by vm_compute|].
  split; [exact Hauthor|exact Hcoinbase].
Defined.

Lemma Transfer_moves_amount_witness :
  Evm.GetBalance (Evm.Transfer EvmScenario.accounts 1 2 30) 1%N = 70
  ∧ Evm.GetBalance (Evm.Transfer EvmScenario.accounts 1 2 30) 2%N = 35.
Proof.
  split.
  - destruct (Transfer_moves_amount EvmScenario.accounts 1 2 30 1 ledger_accounting)
      as [Hbal _]. rewrite Hbal. by vm_compute.
  - destruct (Transfer_moves_amount EvmScenario.accounts 1 2 30 2 ledger_accounting)
      as [Hbal _]. rewrite Hbal. by vm_compute.
Defined.

Lemma CanTransfer_guards_sender_witness :
  Evm.CanTransfer EvmScenario.accounts 2 30 = false
  ∧ Evm.GetBalance (Evm.Transfer EvmScenario.accounts 2 1 30) 2%N < 0.
Proof.
  destruct (CanTransfer_guards_sender EvmScenario.accounts 2 1 30 ledger_accounting)
    as (_ & _ & Hover).
  split; [by vm_compute|]. apply Hover; by vm_compute.
Defined.

(** The version check on a contract that fails, and on one that answers
    [2^64 + 1 . 2 . 3], read as 1.2.3: a client at 1.5.0 goes on, one at
    1.1.0 is shut down. *)
Example CheckMinimumVersion_runs :
  BlockchainParameters.CheckMinimumVersion EvmScenario.failing
    EvmScenario.compareVersions (BlockchainParameters.mkVersionInfo 1 1 0) None None
  = [BlockchainParameters.LogWarn "Error checking client version"]
  ∧ BlockchainParameters.GetMinimumVersion EvmScenario.answering None None
    = inr (BlockchainParameters.mkVersionInfo 1 2 3)
  ∧ BlockchainParameters.CheckMinimumVersion EvmScenario.answering
      EvmScenario.compareVersions (BlockchainParameters.mkVersionInfo 1 5 0) None None
    = []
  ∧ BlockchainParameters.CheckMinimumVersion EvmScenario.answering
      EvmScenario.compareVersions (BlockchainParameters.mkVersionInfo 1 1 0) None None
    = [BlockchainParameters.Sleep 10;
       BlockchainParameters.LogCrit "Client version older than required"].
Proof. repeat split; by vm_compute. Qed.
